(** * GsPack4 SCW4.x script containers: string extraction and rebuild

    A shallow embedding of [GsPack4_Scw4_extract.py] (binary container to
    editable text document) and [GsPack4_Scw4_write.py] (text document plus
    original container to rebuilt container), with the properties of the
    container codec proved over it.

    Layout of the development:
    - [Py]        the Python runtime the scripts rely on: exceptions, bytes
                  and str operations, slices, text and binary file objects,
                  codecs with their error handlers;
    - [Struct]    the [struct] module for the little-endian formats in use;
    - [Extractor] [extract_scw_file];
    - [Writer]    [parse_txt] and [process_scw];
    - [ExtractorMain], [WriterMain] the loops of the two [main]
                  functions;
    - [Sample]    a runtime to compute with and sample containers;
    - the vocabulary of the statements, the lemmas, the theorems [C1] to
      [C10], the further properties [X1] to [X23], and the instances of
      both at the sample data.

    The interpreter is taken as given in three places, gathered in the
    class [Py.Runtime]: the decoding and encoding tables of the cp932
    codec, and the builtin [int] on strings. Text files are taken after
    UTF-8 decoding, as sequences of code points. *)

From Stdlib Require Import ZArith Lia List.
From Stdlib.Strings Require Import Byte.
From stdpp Require Import base list gmap strings.

Local Open Scope Z_scope.

(** Python [bytes] are lists of octets, Python [str] lists of Unicode code
    points. *)
Abbreviation bytes := (list byte).
Abbreviation str := (list Z).

(** [len] is Python's [len], an [int]. *)
Definition len {A} (l : list A) : Z := Z.of_nat (length l).

(** Code points of an ASCII literal. *)
Definition str_of (s : string) : str :=
  map (fun a => Z.of_N (Ascii.N_of_ascii a)) (String.list_ascii_of_string s).

(** Octets of an ASCII literal. *)
Definition bytes_of (s : string) : bytes :=
  map Ascii.byte_of_ascii (String.list_ascii_of_string s).

Definition b2z (b : byte) : Z := Z.of_N (Byte.to_N b).
Definition z2b (z : Z) : byte :=
  default x00 (Byte.of_N (Z.to_N (z mod 256))).

(* ================================================================== *)
(** * The Python runtime *)
(* ================================================================== *)

Module Py.

(** ** Exceptions *)

Inductive exn :=
  | ValueError | StructError | IndexError | OSError
  | UnicodeDecodeError | UnicodeEncodeError.

Inductive result (A : Type) : Type :=
  | Ok (a : A)
  | Raise (e : exn).
Arguments Ok {A} a.
Arguments Raise {A} e.

#[global] Instance result_ret : MRet result := fun A a => Ok a.
#[global] Instance result_bind : MBind result := fun A B k m =>
  match m with Ok a => k a | Raise e => Raise e end.

(** ** Slices

    [l[a:b]] with Python's treatment of negative and out-of-range bounds. *)

Definition clamp_index (n i : Z) : Z :=
  if i <? 0 then Z.max 0 (i + n) else Z.min i n.

Definition slice {A} (l : list A) (a b : Z) : list A :=
  let lo := clamp_index (len l) a in
  let hi := clamp_index (len l) b in
  take (Z.to_nat (hi - lo)) (drop (Z.to_nat lo) l).

(** [l[:b]] *)
Definition slice_to {A} (l : list A) (b : Z) : list A := slice l 0 b.

(** ** bytes methods *)

(** [bs.rstrip(b'\x00')] *)
Definition rstrip_nul (bs : bytes) : bytes :=
  foldr (fun b acc =>
           match acc with
           | [] => if Byte.eqb b x00 then [] else [b]
           | _ => b :: acc
           end) [] bs.

(** [bs.split(b'\x00')[0]] *)
Fixpoint until_nul (bs : bytes) : bytes :=
  match bs with
  | [] => []
  | b :: r => if Byte.eqb b x00 then [] else b :: until_nul r
  end.

(** ** str methods *)

(** [c.isspace()], the characters [str.strip()] removes. *)
Definition isspace (c : Z) : bool :=
  (9 <=? c) && (c <=? 13) || (28 <=? c) && (c <=? 32)
  || (c =? 0x85) || (c =? 0xA0) || (c =? 0x1680)
  || (0x2000 <=? c) && (c <=? 0x200A)
  || (c =? 0x2028) || (c =? 0x2029) || (c =? 0x202F) || (c =? 0x205F)
  || (c =? 0x3000).

Fixpoint lstrip (s : str) : str :=
  match s with
  | [] => []
  | c :: r => if isspace c then lstrip r else s
  end.

Definition rstrip (s : str) : str :=
  foldr (fun c acc =>
           match acc with
           | [] => if isspace c then [] else [c]
           | _ => c :: acc
           end) [] s.

(** [s.strip()] *)
Definition strip (s : str) : str := lstrip (rstrip s).

(** [s.rstrip(']')] and the like: strip one trailing character class. *)
Definition rstrip_char (x : Z) (s : str) : str :=
  foldr (fun c acc =>
           match acc with
           | [] => if c =? x then [] else [c]
           | _ => c :: acc
           end) [] s.

(** [s.startswith(p)] *)
Fixpoint startswith (p s : str) : bool :=
  match p, s with
  | [], _ => true
  | _ :: _, [] => false
  | a :: p', c :: s' => (a =? c) && startswith p' s'
  end.

(** [s.split(x, 1)] when [x in s]: the parts before and after the first [x];
    [None] when [x not in s]. *)
Fixpoint split_once (x : Z) (s : str) : option (str * str) :=
  match s with
  | [] => None
  | c :: r =>
      if c =? x then Some ([], r)
      else match split_once x r with
           | Some (a, b) => Some (c :: a, b)
           | None => None
           end
  end.

Definition str_eqb (a b : str) : bool := bool_decide (a = b).

(** [str(n)] and the [{n}] of an f-string, for an [int]. *)
Fixpoint digits (u : Decimal.uint) : str :=
  match u with
  | Decimal.Nil => []
  | Decimal.D0 r => 48 :: digits r
  | Decimal.D1 r => 49 :: digits r
  | Decimal.D2 r => 50 :: digits r
  | Decimal.D3 r => 51 :: digits r
  | Decimal.D4 r => 52 :: digits r
  | Decimal.D5 r => 53 :: digits r
  | Decimal.D6 r => 54 :: digits r
  | Decimal.D7 r => 55 :: digits r
  | Decimal.D8 r => 56 :: digits r
  | Decimal.D9 r => 57 :: digits r
  end.

Definition str_int (n : Z) : str :=
  match Z.to_int n with
  | Decimal.Pos u => digits u
  | Decimal.Neg u => 45 :: digits u
  end.

(** ** Text files

    A file opened in text mode with the default [newline=None] is read with
    universal newlines: iterating it yields the lines ended by ["\n"],
    ["\r"] or ["\r\n"], each with its terminator (given as ["\n"]). *)

Fixpoint readlines_go (cur : str) (s : str) : list str :=
  match s with
  | [] => match cur with [] => [] | _ => [rev cur] end
  | c :: r =>
      if c =? 10 then rev (10 :: cur) :: readlines_go [] r
      else if c =? 13 then
        match r with
        | c' :: r' =>
            if c' =? 10 then rev (10 :: cur) :: readlines_go [] r'
            else rev (10 :: cur) :: readlines_go [] r
        | [] => [rev (10 :: cur)]
        end
      else readlines_go (c :: cur) r
  end.

Definition readlines (text : str) : list str := readlines_go [] text.

(** ** Binary files

    A file opened with ['rb']: its content and the current position. *)

Record file := File { f_data : bytes; f_pos : nat }.

Definition open_rb (data : bytes) : file := File data 0.

(** [f.read(n)]: at most [n] octets from the position; [-1] reads to the
    end; a smaller [n] raises. *)
Definition read (n : Z) (f : file) : result (bytes * file) :=
  if n <? -1 then Raise ValueError
  else
    let rest := drop (f_pos f) (f_data f) in
    let got := if n =? -1 then rest else take (Z.to_nat n) rest in
    Ok (got, File (f_data f) (f_pos f + length got)).

(** [f.seek(p)]; a negative position is refused with [OSError]. *)
Definition seek (p : Z) (f : file) : result file :=
  if p <? 0 then Raise OSError
  else Ok (File (f_data f) (Z.to_nat p)).

(** ** Codecs

    A stateless multibyte codec is given by its two tables: the decoder
    looks at the head of the remaining input and either yields one code
    point from some octets or reports some octets as malformed; the
    encoder maps a code point to its octets, if it has any. The error
    handlers are those of [bytes.decode] and [str.encode]. *)

Inductive dec_step :=
  | Decoded (c : Z) (used : nat)
  | Malformed (bad : nat).

Inductive errors := Strict | Replace | Ignore.

Fixpoint decode_loop (fuel : nat) (step : bytes -> dec_step) (h : errors)
    (bs : bytes) : result str :=
  match fuel, bs with
  | O, _ | _, [] => Ok []
  | S fuel', _ :: _ =>
      match step bs with
      | Decoded c n =>
          s ← decode_loop fuel' step h (drop (Nat.max 1 n) bs); Ok (c :: s)
      | Malformed n =>
          match h with
          | Strict => Raise UnicodeDecodeError
          | Replace =>
              s ← decode_loop fuel' step h (drop (Nat.max 1 n) bs);
              Ok (0xFFFD :: s)
          | Ignore => decode_loop fuel' step h (drop (Nat.max 1 n) bs)
          end
      end
  end.

(** [bs.decode(codec, errors=h)] *)
Definition decode (step : bytes -> dec_step) (h : errors) (bs : bytes)
    : result str :=
  decode_loop (length bs) step h bs.

Fixpoint encode (enc : Z -> option bytes) (h : errors) (s : str)
    : result bytes :=
  match s with
  | [] => Ok []
  | c :: r =>
      match enc c with
      | Some b => rest ← encode enc h r; Ok (b ++ rest)
      | None =>
          match h with
          | Strict => Raise UnicodeEncodeError
          | Replace => rest ← encode enc h r; Ok (x3f :: rest)
          | Ignore => encode enc h r
          end
      end
  end.

(** The ['ascii'] codec. *)
Definition ascii_decode_step (bs : bytes) : dec_step :=
  match bs with
  | b :: _ => if b2z b <? 128 then Decoded (b2z b) 1 else Malformed 1
  | [] => Malformed 1
  end.

(** What the scripts take from the interpreter as given: the two tables
    of the ['cp932'] codec and the builtin [int] on a [str]. *)
Class Runtime := {
  cp932_decode_step : bytes -> dec_step;
  cp932_encode_char : Z -> option bytes;
  int : str -> result Z;
}.

End Py.
Import Py.

(* ================================================================== *)
(** * The [struct] module, little-endian standard sizes *)
(* ================================================================== *)

Module Struct.

(** Format characters: [ns], [i] and [I]. *)
Inductive item := s_ (n : nat) | i_ | I_.

(** Packed and unpacked values: [bytes] and [int]. *)
Inductive value := VBytes (b : bytes) | VInt (z : Z).

Definition item_size (it : item) : nat :=
  match it with s_ n => n | i_ | I_ => 4%nat end.

Fixpoint calcsize (fmt : list item) : nat :=
  match fmt with
  | [] => 0%nat
  | it :: r => (item_size it + calcsize r)%nat
  end.

Fixpoint le_decode (bs : bytes) : Z :=
  match bs with
  | [] => 0
  | b :: r => b2z b + 256 * le_decode r
  end.

Fixpoint le_encode (n : nat) (z : Z) : bytes :=
  match n with
  | O => []
  | S k => z2b z :: le_encode k (z / 256)
  end.

(** Two's complement reading of an unsigned 32-bit value. *)
Definition signed32 (u : Z) : Z := if u <? 2 ^ 31 then u else u - 2 ^ 32.

Definition unpack_item (it : item) (bs : bytes) : value :=
  match it with
  | s_ _ => VBytes bs
  | I_ => VInt (le_decode bs)
  | i_ => VInt (signed32 (le_decode bs))
  end.

Fixpoint unpack_items (fmt : list item) (data : bytes) : list value :=
  match fmt with
  | [] => []
  | it :: r =>
      unpack_item it (take (item_size it) data)
      :: unpack_items r (drop (item_size it) data)
  end.

(** [struct.unpack(fmt, data)] *)
Definition unpack (fmt : list item) (data : bytes) : result (list value) :=
  if bool_decide (length data = calcsize fmt)
  then Ok (unpack_items fmt data)
  else Raise StructError.

Definition pack_item (it : item) (v : value) : result bytes :=
  match it, v with
  | s_ n, VBytes b => Ok (take n (b ++ replicate n x00))
  | i_, VInt z =>
      if (- 2 ^ 31 <=? z) && (z <? 2 ^ 31) then Ok (le_encode 4 z)
      else Raise StructError
  | I_, VInt z =>
      if (0 <=? z) && (z <? 2 ^ 32) then Ok (le_encode 4 z)
      else Raise StructError
  | _, _ => Raise StructError
  end.

(** [struct.pack(fmt, *vals)] *)
Fixpoint pack (fmt : list item) (vals : list value) : result bytes :=
  match fmt, vals with
  | [], [] => Ok []
  | it :: fr, v :: vr =>
      b ← pack_item it v; rest ← pack fr vr; Ok (b ++ rest)
  | _, _ => Raise StructError
  end.

(** The offset argument of [unpack_from] and [pack_into]: a negative one
    counts from the end of the buffer, and [size] octets must fit. *)
Definition resolve_offset (buflen size : nat) (offset : Z) : result nat :=
  let off := if offset <? 0 then offset + Z.of_nat buflen else offset in
  if off <? 0 then Raise StructError
  else if Z.of_nat buflen - off <? Z.of_nat size then Raise StructError
  else Ok (Z.to_nat off).

(** [struct.unpack_from(fmt, buf, offset)] *)
Definition unpack_from (fmt : list item) (buf : bytes) (offset : Z)
    : result (list value) :=
  off ← resolve_offset (length buf) (calcsize fmt) offset;
  Ok (unpack_items fmt (take (calcsize fmt) (drop off buf))).

(** [struct.pack_into(fmt, buf, offset, *vals)], giving the new content of
    the buffer. *)
Definition pack_into (fmt : list item) (buf : bytes) (offset : Z)
    (vals : list value) : result bytes :=
  off ← resolve_offset (length buf) (calcsize fmt) offset;
  b ← pack fmt vals;
  Ok (take off buf ++ b ++ drop (off + calcsize fmt) buf).

End Struct.
Import Struct.

(** Literals shared by the two scripts. *)
Definition NL : str := [10].
Definition MAGIC : str := Eval cbv in str_of "Scw4.x".
Definition DECODE_ERROR : str := Eval cbv in str_of "<DECODE_ERROR>".
Definition BRACKET : str := Eval cbv in str_of "[".
Definition HEADER_TAG : str := Eval cbv in str_of "[Header]".
Definition INDEX_TAG : str := Eval cbv in str_of "[Index=".
Definition STRING_COUNT : str := Eval cbv in str_of "STRING_COUNT".
Definition TEXT_COUNT : str := Eval cbv in str_of "TEXT_COUNT".

(** The text written when each of [lines] is followed by a newline. *)
Definition text_of_lines (lines : list str) : str :=
  concat (map (fun l => l ++ NL) lines).

(* ================================================================== *)
(** * GsPack4_Scw4_extract.py *)
(* ================================================================== *)

Module Extractor.

Definition Pad2Len : Z := 128.
Definition FileHeadLen : Z := 0x1C4.

(** How a call of [extract_scw_file] ends: one of its early returns, the
    [except Exception] handler, or the text document written to
    [file_path + '.txt'], given with the list [strings] it was made from. *)
Inductive outcome :=
  | InvalidMagic
  | TextCountZero
  | IncompleteIndex
  | Failed (e : exn)
  | Extracted (doc : str) (strings : list str).

(** The f-strings written to the output file. *)
Fixpoint sections (idx : Z) (strings : list str) : str :=
  match strings with
  | [] => []
  | s :: r =>
      str_of "[Index=" ++ str_int idx ++ str_of "]" ++ NL ++ s ++ NL ++ NL
      ++ sections (idx + 1) r
  end.

Definition document (string_count text_count : Z) (description : str)
    (strings : list str) : str :=
  str_of "[Header]" ++ NL
  ++ str_of "STRING_COUNT = " ++ str_int string_count ++ NL
  ++ str_of "TEXT_COUNT = " ++ str_int text_count ++ NL
  ++ str_of "FILE_DESCRIPTION = " ++ description ++ NL ++ NL
  ++ sections 1 strings.

Section extract.
Context `{Runtime}.

(** [struct.unpack('<i', f.read(4))[0]] *)
Definition read_int (f : file) : result (Z * file) :=
  '(b, f) ← read 4 f;
  vs ← unpack [i_] b;
  match vs with
  | [VInt z] => Ok (z, f)
  | _ => Raise StructError
  end.

(** [data.rstrip(b'\x00').decode('cp932', errors='replace')] under its
    [try]/[except UnicodeDecodeError]. *)
Definition decode_string (data : bytes) : result str :=
  match decode cp932_decode_step Replace (rstrip_nul data) with
  | Ok s => Ok s
  | Raise UnicodeDecodeError => Ok DECODE_ERROR
  | Raise e => Raise e
  end.

(** The body of [for i in range(string_count)], over the remaining values
    of [i]; [break] ends it with the strings collected so far. *)
Fixpoint extract_strings (command_count string_section_start : Z)
    (index_data : bytes) (range : list Z) (strings : list str) (f : file)
    : result (list str * file) :=
  match range with
  | [] => Ok (strings, f)
  | i :: range' =>
      let idx_offset := (command_count + i) * 8 in
      if idx_offset + 8 >? len index_data then Ok (strings, f)
      else
        vs ← unpack [I_; I_] (slice index_data idx_offset (idx_offset + 8));
        match vs with
        | [VInt start; VInt length_] =>
            let abs_pos := string_section_start + start in
            f ← seek abs_pos f;
            '(data, f) ← read length_ f;
            s ← decode_string data;
            extract_strings command_count string_section_start index_data
              range' (strings ++ [s]) f
        | _ => Raise StructError
        end
  end.

Definition extract_scw_file_try (f : file) : result outcome :=
  '(m, f) ← read 16 f;
  magic ← decode ascii_decode_step Strict (rstrip_nul m);
  if negb (str_eqb magic MAGIC) then Ok InvalidMagic
  else
    '(main_version, f) ← read_int f;
    '(is_compressed, f) ← read_int f;
    '(content_length, f) ← read_int f;
    '(compressed_len, f) ← read_int f;
    '(minor_version, f) ← read_int f;
    '(command_count, f) ← read_int f;
    '(string_count, f) ← read_int f;
    '(addon_count, f) ← read_int f;
    '(command_size, f) ← read_int f;
    '(string_size, f) ← read_int f;
    '(addon_size, f) ← read_int f;
    '(padding1, f) ← read_int f;
    '(text_count, f) ← read_int f;
    '(padding2, f) ← read Pad2Len f;
    '(d, f) ← read 0x100 f;
    dtext ← decode cp932_decode_step Ignore (until_nul d);
    let description := strip dtext in
    if text_count =? 0 then Ok TextCountZero
    else
      let index_size := (command_count + string_count + addon_count) * 8 in
      f ← seek FileHeadLen f;
      '(index_data, f) ← read index_size f;
      if negb (len index_data =? index_size) then Ok IncompleteIndex
      else
        let string_section_start := FileHeadLen + index_size + command_size in
        '(strings, f) ← extract_strings command_count string_section_start
                          index_data (seqZ 0 string_count) [] f;
        Ok (Extracted (document string_count text_count description strings)
              strings).

(** [extract_scw_file] on a file with content [data]. *)
Definition extract_scw_file (data : bytes) : outcome :=
  match extract_scw_file_try (open_rb data) with
  | Ok o => o
  | Raise e => Failed e
  end.

End extract.
End Extractor.

(* ================================================================== *)
(** * GsPack4_Scw4_write.py *)
(* ================================================================== *)

Module Writer.

Definition Pad2Len : nat := 128.
Definition FileHeadLen : Z := 0x1C4.

(** The header format [f'<16s13i{Pad2Len}s256s']. *)
Definition HEADER_FMT : list item :=
  [s_ 16] ++ replicate 13 i_ ++ [s_ Pad2Len; s_ 256].

(** ** parse_txt *)

Inductive section := header_section | index_section.

(** The local variables of [parse_txt]. *)
Record locals := Locals {
  strings : list str;
  header : gmap str str;
  current_index : option Z;
  current_section : option section;
}.

Definition initial : locals := Locals [] ∅ None None.

(** What [parse_txt] returns: [(None, None)] or [(header, strings)]. *)
Abbreviation parsed := (option (gmap str str * list str)).

(** One pass of the loop body: the locals afterwards, or the early
    [return None, None]. *)
Inductive pass := Next (st : locals) | ReturnNone.

(** How a call of [process_scw] ends: [return False] after one of its
    logged errors or from the [except Exception] handler, with nothing
    written, or [return True] after writing [out] to [output_path]. *)
Inductive outcome :=
  | ParseFailed
  | CountMismatch
  | Failed (e : exn)
  | Written (out : bytes).

Section write.
Context `{Runtime}.

Definition parse_line (st : locals) (raw : str) : result pass :=
  let line := strip raw in
  match line with
  | [] => Ok (Next st)
  | _ :: _ =>
      if startswith BRACKET line then
        if str_eqb line HEADER_TAG then
          Ok (Next (Locals (strings st) (header st) (current_index st)
                      (Some header_section)))
        else if startswith INDEX_TAG line then
          index_part ← match split_once 61 line with
                       | Some (_, after) => Ok (rstrip_char 93 after)
                       | None => Raise IndexError
                       end;
          current_index ← int index_part;
          if negb (current_index =? len (strings st) + 1) then Ok ReturnNone
          else
            Ok (Next (Locals (strings st ++ [[]]) (header st)
                        (Some current_index) (Some index_section)))
        else
          Ok (Next (Locals (strings st) (header st) (current_index st) None))
      else
        match current_section st, current_index st with
        | Some header_section, _ =>
            match split_once 61 line with
            | Some (key, value) =>
                Ok (Next (Locals (strings st)
                            (<[strip key := strip value]> (header st))
                            (current_index st) (current_section st)))
            | None => Ok (Next st)
            end
        | Some index_section, Some current_index =>
            if (1 <=? current_index) && (current_index <=? len (strings st))
            then
              let k := Z.to_nat (current_index - 1) in
              match strings st !! k with
              | Some [] =>
                  Ok (Next (Locals (<[k := line]> (strings st)) (header st)
                              (Some current_index) (current_section st)))
              | Some old =>
                  Ok (Next (Locals (<[k := old ++ NL ++ line]> (strings st))
                              (header st) (Some current_index)
                              (current_section st)))
              | None => Raise IndexError
              end
            else Ok (Next st)
        | _, _ => Ok (Next st)
        end
  end.

(** [for line in f], from the locals [st] on. *)
Fixpoint parse_lines (lines : list str) (st : locals) : result parsed :=
  match lines with
  | [] => Ok (Some (header st, strings st))
  | raw :: rest =>
      p ← parse_line st raw;
      match p with
      | Next st' => parse_lines rest st'
      | ReturnNone => Ok None
      end
  end.

(** [parse_txt] on a text file with content [text]. *)
Definition parse_txt (text : str) : result parsed :=
  parse_lines (readlines text) initial.

(** ** process_scw *)

(** [int(header_txt.get(key, -1))] *)
Definition declared (header_txt : gmap str str) (key : str) : result Z :=
  match header_txt !! key with
  | Some v => int v
  | None => Ok (-1)
  end.

(** The body of [for s in new_strings]: one encoded, NUL-terminated string;
    the second component tells whether the [except] branch was taken. *)
Definition encode_string (s : str) : result (bytes * bool) :=
  match encode cp932_encode_char Strict s with
  | Ok b => Ok (b ++ [x00], false)
  | Raise UnicodeEncodeError =>
      b ← encode cp932_encode_char Replace s; Ok (b ++ [x00], true)
  | Raise e => Raise e
  end.

Fixpoint encode_strings (new_strings : list str) : result (list bytes) :=
  match new_strings with
  | [] => Ok []
  | s :: r =>
      '(encoded, _) ← encode_string s;
      rest ← encode_strings r;
      Ok (encoded :: rest)
  end.

(** The body of [for i in range(str_count)] over the remaining values of
    [i]: the string group of the index table is rewritten in place. *)
Fixpoint update_index (str_index_start : Z) (new_str_list : list bytes)
    (range : list Z) (new_index : bytes) (current_offset : Z)
    : result bytes :=
  match range with
  | [] => Ok new_index
  | i :: range' =>
      let entry_offset := str_index_start + i * 8 in
      _ ← unpack_from [I_; I_] new_index entry_offset;
      new_length ← match new_str_list !! Z.to_nat i with
                   | Some e => Ok (len e)
                   | None => Raise IndexError
                   end;
      new_index ← pack_into [I_; I_] new_index entry_offset
                    [VInt current_offset; VInt new_length];
      update_index str_index_start new_str_list range' new_index
        (current_offset + new_length)
  end.

(** The region arithmetic and the four slices of the content area:
    index table, command region, string region, addon region. *)
Definition split_content (content : bytes) (cmd_count str_count addon_count
    cmd_size str_size addon_size : Z) : bytes * bytes * bytes * bytes :=
  let index_size := (cmd_count + str_count + addon_count) * 8 in
  let index_end := index_size in
  let cmd_end := index_end + cmd_size in
  let str_end := cmd_end + str_size in
  let addon_end := str_end + addon_size in
  let index_data := slice_to content index_end in
  let cmd_data := slice content index_end cmd_end in
  let str_data := slice content cmd_end str_end in
  let addon_data := slice content str_end addon_end in
  (index_data, cmd_data, str_data, addon_data).

(** [process_scw] from the split of the content area on: [fields] is the
    unpacked header tuple, [content] what was read after the header. *)
Definition process_content (fields : list value) (content : bytes)
    (cmd_count str_count addon_count cmd_size str_size addon_size
     text_count : Z) (txt : str) : result outcome :=
  let '(index_data, cmd_data, str_data, addon_data) :=
    split_content content cmd_count str_count addon_count
      cmd_size str_size addon_size in
  p ← parse_txt txt;
  match p with
  | None => Ok ParseFailed
  | Some (header_txt, new_strings) =>
      if bool_decide (header_txt = ∅) || bool_decide (new_strings = [])
      then Ok ParseFailed
      else
        str_count_txt ← declared header_txt STRING_COUNT;
        text_count_txt ← declared header_txt TEXT_COUNT;
        if negb (str_count_txt =? str_count)
           || negb (text_count_txt =? text_count)
        then Ok CountMismatch
        else
          new_str_list ← encode_strings new_strings;
          let new_str_data := concat new_str_list in
          let new_str_size := len new_str_data in
          let str_index_start := cmd_count * 8 in
          new_index ← update_index str_index_start new_str_list
                        (seqZ 0 str_count) index_data 0;
          let new_content :=
            new_index ++ cmd_data ++ new_str_data ++ addon_data in
          let new_content_len := len new_content in
          let new_header :=
            <[10%nat := VInt new_str_size]>
              (<[3%nat := VInt new_content_len]> fields) in
          packed_header ← pack HEADER_FMT new_header;
          Ok (Written (packed_header ++ new_content))
  end.

(** The start of [process_scw]: the header is read and unpacked, the
    content area read. *)
Definition process_scw_try (scw : bytes) (txt : str) : result outcome :=
  let f := open_rb scw in
  '(header_data, f) ← read FileHeadLen f;
  fields ← unpack HEADER_FMT header_data;
  match fields with
  | [VBytes magic; VInt main_v; VInt is_compressed; VInt content_len;
     VInt comp_len; VInt minor_v; VInt cmd_count; VInt str_count;
     VInt addon_count; VInt cmd_size; VInt str_size; VInt addon_size;
     VInt pad1; VInt text_count; VBytes pad2; VBytes desc] =>
      f ← seek FileHeadLen f;
      '(content, f) ← read content_len f;
      process_content fields content cmd_count str_count addon_count
        cmd_size str_size addon_size text_count txt
  | _ => Raise StructError
  end.

(** [process_scw] on a container file with content [scw] and a text file
    with content [txt]. *)
Definition process_scw (scw : bytes) (txt : str) : outcome :=
  match process_scw_try scw txt with
  | Ok o => o
  | Raise e => Failed e
  end.

End write.
End Writer.

(* ================================================================== *)
(** * The [main] functions *)
(* ================================================================== *)

(** Both scripts end in a [main] that walks the directory [SCR] (and
    [TXT]) under the current directory and calls [extract_scw_file] or
    [process_scw] on the files it selects. The loops are given here over
    the lists that [os.walk] yields, as pairs of [root] and [files]; the
    path operations and the operations on the file system are left open,
    so that what is proved of the loops holds whatever these do. Console
    output, the log and the checks that the directories exist are left
    out. *)

(** ['.' in file] *)
Definition has_dot (file : str) : bool := existsb (Z.eqb 46) file.

(** [s.endswith(suffix)] *)
Definition endswith (suffix s : str) : bool :=
  startswith (rev suffix) (rev s).

Definition TXT_SUFFIX : str := Eval cbv in str_of ".txt".

(** What a call that may raise leaves behind: the file system, and
    whether an exception is on its way. *)
Inductive attempt (world : Type) :=
  | Fine (w : world)
  | Thrown (w : world).
Arguments Fine {world} w.
Arguments Thrown {world} w.

(** ** [main] of GsPack4_Scw4_extract.py *)

Module ExtractorMain.

(** The counters of [main]. *)
Record counts := Counts { processed_count : Z; error_count : Z }.

Section main.
Context {world path : Type}.
(** [Path(root) / file] *)
Variable scw_path : str -> str -> path.
(** [scw_file.with_suffix('.txt')] *)
Variable with_suffix_txt : path -> path.
(** [txt_file.exists()] *)
Variable exists_ : path -> world -> bool.
(** [txt_dir / scw_file.relative_to(scr_dir).parent / txt_file.name],
    where [relative_to] may raise *)
Variable output_path : path -> path -> option path.
(** [output_path.parent.mkdir(parents=True, exist_ok=True)] *)
Variable mkdir_parent : path -> world -> attempt world.
(** [txt_file.rename(output_path)] *)
Variable rename : path -> path -> world -> attempt world.
(** [extract_scw_file(scw_file)], which handles its own exceptions *)
Variable extract_scw_file : path -> world -> world.

(** The body of [for file in files], with its [try] and [except]. *)
Definition extract_one (root file : str) (st : counts * world)
    : counts * world :=
  let '(c, w) := st in
  if negb (has_dot file) then
    let scw_file := scw_path root file in
    let error w := (Counts (processed_count c) (error_count c + 1), w) in
    let w := extract_scw_file scw_file w in
    let txt_file := with_suffix_txt scw_file in
    if exists_ txt_file w then
      match output_path scw_file txt_file with
      | Some target =>
          match mkdir_parent target w with
          | Fine w =>
              match rename txt_file target w with
              | Fine w =>
                  (Counts (processed_count c + 1) (error_count c), w)
              | Thrown w => error w
              end
          | Thrown w => error w
          end
      | None => error w
      end
    else error w
  else (c, w).

(** The loops of [main] over what [os.walk(scr_dir)] yields, from
    counters at zero. *)
Definition main (walk : list (str * list str)) (w : world)
    : counts * world :=
  fold_left (fun st '(root, files) =>
               fold_left (fun st file => extract_one root file st) files st)
    walk (Counts 0 0, w).

End main.
End ExtractorMain.

(** ** [main] of GsPack4_Scw4_write.py *)

Module WriterMain.

(** The counters of [main]. *)
Record counts := Counts { success : Z; failed : Z; warnings : Z }.

Section main.
Context {world : Type}.
(** [os.path.join] with two and with three arguments *)
Variable join : str -> str -> str.
Variable join3 : str -> str -> str -> str.
(** [os.path.relpath], which may raise *)
Variable relpath : str -> str -> option str.
(** [os.path.dirname] *)
Variable dirname : str -> str.
(** [os.makedirs(path, exist_ok=True)] *)
Variable makedirs : str -> world -> attempt world.
(** [logger.warning] for a text file without script *)
Variable warning : str -> world -> world.
(** [process_scw(scw_path, txt_path, output_path)], which handles its own
    exceptions *)
Variable process_scw : str -> str -> str -> world -> bool * world.

(** The first pair of loops: the dictionary [scw_files] of the script
    files found under [scr_dir], keyed by file name. *)
Definition scw_files (walk : list (str * list str)) : gmap str str :=
  fold_left (fun m '(root, files) =>
               fold_left (fun m file =>
                            if negb (has_dot file)
                            then <[file := join root file]> m
                            else m) files m)
    walk ∅.

(** The body of the second [for file in files]; [None] when an exception
    leaves [main]. *)
Definition rebuild_one (txt_dir new_scr_dir : str) (files : gmap str str)
    (root file : str) (st : counts * world) : option (counts * world) :=
  let '(c, w) := st in
  if endswith TXT_SUFFIX file then
    let base_name := slice_to file (-4) in
    let warn :=
      Some (Counts (success c) (failed c) (warnings c + 1),
            warning file w) in
    match files !! base_name with
    | Some [] | None => warn
    | Some scw_path =>
        let txt_path := join root file in
        match relpath txt_path txt_dir with
        | Some rel_path =>
            let output_path :=
              join3 new_scr_dir (dirname rel_path) base_name in
            match makedirs (dirname output_path) w with
            | Fine w =>
                let '(ok, w) := process_scw scw_path txt_path output_path w in
                if ok
                then Some (Counts (success c + 1) (failed c) (warnings c), w)
                else Some (Counts (success c) (failed c + 1) (warnings c), w)
            | Thrown _ => None
            end
        | None => None
        end
    end
  else Some st.

(** The second pair of loops, over what [os.walk(txt_dir)] yields. *)
Definition rebuild_all (txt_dir new_scr_dir : str) (files : gmap str str)
    (walk : list (str * list str)) (st : counts * world)
    : option (counts * world) :=
  foldl (fun st '(root, names) =>
           foldl (fun st file =>
                    st ← st;
                    rebuild_one txt_dir new_scr_dir files root file st)
             st names)
    (Some st) walk.

(** Both pairs of loops, from counters at zero. *)
Definition main (txt_dir new_scr_dir : str)
    (scr_walk txt_walk : list (str * list str)) (w : world)
    : option (counts * world) :=
  rebuild_all txt_dir new_scr_dir (scw_files scr_walk) txt_walk
    (Counts 0 0 0, w).

End main.
End WriterMain.

(* ================================================================== *)
(** * A runtime to compute with, and sample containers *)
(* ================================================================== *)

Module Sample.

(** [int] on an ASCII decimal literal: optional surrounding whitespace, an
    optional sign, then digits [0-9]. *)
Fixpoint int_digits (acc : Z) (s : str) : result Z :=
  match s with
  | [] => Ok acc
  | c :: r =>
      if (48 <=? c) && (c <=? 57) then int_digits (10 * acc + (c - 48)) r
      else Raise ValueError
  end.

Definition int_ascii (s : str) : result Z :=
  match strip s with
  | [] => Raise ValueError
  | c :: r =>
      if c =? 45 then
        match r with [] => Raise ValueError
                | _ => n ← int_digits 0 r; Ok (- n) end
      else if c =? 43 then
        match r with [] => Raise ValueError | _ => int_digits 0 r end
      else int_digits 0 (c :: r)
  end.

(** The plane that cp932 shares with ASCII: octets and code points below
    [0x80] map to each other; nothing else is mapped. The sample data below
    stays inside it. *)
#[export] Instance seven_bit : Runtime := {|
  cp932_decode_step := ascii_decode_step;
  cp932_encode_char := fun c =>
    if (0 <=? c) && (c <? 128) then Some [z2b c] else None;
  int := int_ascii;
|}.

(** A container file: the fixed header of [0x1C4] octets with the given
    counts and sizes (versions, flags and paddings zero, no description),
    followed by [content]. *)
Definition container (content_length command_count string_count addon_count
    command_size string_size addon_size text_count : Z) (content : bytes)
    : bytes :=
  bytes_of "Scw4.x" ++ replicate 10 x00
  ++ le_encode 4 0 ++ le_encode 4 0
  ++ le_encode 4 content_length ++ le_encode 4 0 ++ le_encode 4 0
  ++ le_encode 4 command_count ++ le_encode 4 string_count
  ++ le_encode 4 addon_count
  ++ le_encode 4 command_size ++ le_encode 4 string_size
  ++ le_encode 4 addon_size
  ++ le_encode 4 0 ++ le_encode 4 text_count
  ++ replicate 128 x00 ++ replicate 256 x00
  ++ content.

(** An index entry [(start, length)]. *)
Definition entry (start length_ : Z) : bytes :=
  le_encode 4 start ++ le_encode 4 length_.

(** Text documents, line by line. *)
Definition doc_gap : str :=
  text_of_lines
    [str_of "[Header]"; str_of "STRING_COUNT = 2"; str_of "TEXT_COUNT = 1";
     []; str_of "[Index=1]"; str_of "A"; [];
     str_of "[Index=3]"; str_of "B"; []].

(** The locals of [parse_txt] after the first seven lines of [doc_gap]. *)
Definition locals_gap : Writer.locals :=
  Writer.Locals [str_of "A"]
    (<[TEXT_COUNT := str_of "1"]> (<[STRING_COUNT := str_of "2"]> ∅))
    (Some 1) (Some Writer.index_section).

Definition doc_untidy : str :=
  text_of_lines
    [str_of "[Header]"; str_of "STRING_COUNT = 1"; str_of "TEXT_COUNT = 1";
     []; str_of "[Index=1]"; str_of "  A  "; str_of "[B]"; str_of "C"; []].

(** Two strings, entries [(0,6)] and [(6,6)] over the string region
    ["AB\0\0\0\0CD\0\0\0\0"]; no commands, no addons. *)
Definition scenario : bytes :=
  container 28 0 2 0 0 12 0 2
    (entry 0 6 ++ entry 6 6
     ++ bytes_of "AB" ++ replicate 4 x00 ++ bytes_of "CD" ++ replicate 4 x00).


Definition doc_AB : str := Extractor.document 1 1 [] [str_of "AB"].

(** The header block of [doc_AB] as [parse_txt] returns it. *)
Definition header_AB : gmap str str :=
  <[str_of "FILE_DESCRIPTION" := []]>
    (<[TEXT_COUNT := str_of "1"]> (<[STRING_COUNT := str_of "1"]> ∅)).

(** The header block of [doc_scenario] as [parse_txt] returns it. *)
Definition header_scenario : gmap str str :=
  <[str_of "FILE_DESCRIPTION" := []]>
    (<[TEXT_COUNT := str_of "2"]> (<[STRING_COUNT := str_of "2"]> ∅)).

(** The text document the extractor writes for [scenario]. *)
Definition doc_scenario : str :=
  Extractor.document 2 2 [] [str_of "AB"; str_of "CD"].

(** A container with one string, given by its octets in the string
    region; no commands, no addons. *)
Definition one_string (payload : bytes) : bytes :=
  container (8 + len payload) 0 1 0 0 (len payload) 0 1
    (entry 0 (len payload) ++ payload).

(** The string [" AB"], with a leading space. *)
Definition spaced : bytes := one_string (bytes_of " AB" ++ [x00]).

Definition doc_spaced : str := Extractor.document 1 1 [] [str_of " AB"].

(** The string ["A\nB"], two lines. *)
Definition two_lines : bytes := one_string [x41; x0a; x42; x00].

(** The string ["A\n\nB"], with a blank line inside. *)
Definition blank_inside : bytes := one_string [x41; x0a; x0a; x42; x00].

(** The string ["[A]"], opening with a bracket. *)
Definition bracketed : bytes := one_string (bytes_of "[A]" ++ [x00]).

(** A container without strings, with a non-zero text count. *)
Definition no_strings : bytes := container 0 0 0 0 0 0 0 1 [].

(** The header block of [doc_untidy] as [parse_txt] returns it, and the
    locals of [parse_txt] after the first six lines of [doc_untidy]. *)
Definition header_untidy : gmap str str :=
  <[STRING_COUNT := str_of "1"]> (<[TEXT_COUNT := str_of "1"]> ∅).

Definition locals_untidy : Writer.locals :=
  Writer.Locals [str_of "A"] header_untidy (Some 1)
    (Some Writer.index_section).

(** A text without any section header. *)
Definition doc_plain : str :=
  text_of_lines [str_of "STRING_COUNT = 2"; str_of "AB"; str_of "CD"].

(** The document of [scenario] with another description, and its header
    block as [parse_txt] returns it. *)
Definition doc_described : str :=
  Extractor.document 2 2 (str_of "edited") [str_of "AB"; str_of "CD"].

Definition header_described : gmap str str :=
  <[str_of "FILE_DESCRIPTION" := str_of "edited"]>
    (<[TEXT_COUNT := str_of "2"]> (<[STRING_COUNT := str_of "2"]> ∅)).

(** A container with one string and a text count of zero. *)
Definition skipped : bytes :=
  container 11 0 1 0 0 3 0 0 (entry 0 3 ++ bytes_of "AB" ++ [x00]).

(** A container whose only string entry points past the end of the
    file. *)
Definition dangling : bytes := container 8 0 1 0 0 0 0 1 (entry 100 5).

(** The container [scenario] with other values in [contentLength],
    [stringSize] and [addonSize]. *)
Definition scenario_odd : bytes :=
  container 9999 0 2 0 0 777 5 2
    (entry 0 6 ++ entry 6 6
     ++ bytes_of "AB" ++ replicate 4 x00 ++ bytes_of "CD" ++ replicate 4 x00).

(** Two directory trees as [os.walk] lists them: scripts [a] in [SCR]
    and in [SCR/x], beside a file with an extension; text documents for
    [a] and for a script [c] that is not there, beside a file that is no
    text document. *)
Definition scr_walk : list (str * list str) :=
  [(str_of "SCR", [str_of "a"; str_of "b.bak"]);
   (str_of "SCR/x", [str_of "a"])].

Definition txt_walk : list (str * list str) :=
  [(str_of "TXT", [str_of "a.txt"; str_of "c.txt"; str_of "notes"])].

(** [os.path.join] on two relative POSIX paths without slashes at their
    ends. *)
Definition join_slash (a b : str) : str := a ++ str_of "/" ++ b.

(** One command, one string and one addon, entries [(0,2)], [(0,3)] and
    [(0,2)], over the command region ["CC"], the string region ["AB\0"]
    and the addon region ["ZZ"]. *)
Definition framed : bytes :=
  container 31 1 1 1 2 3 2 1
    (entry 0 2 ++ entry 0 3 ++ entry 0 2
     ++ bytes_of "CC" ++ bytes_of "AB" ++ [x00] ++ bytes_of "ZZ").


(** One command and three strings, entries [(0,2)], [(2,2)] and [(4,2)]
    over the string region ["A\0B\0C\0"], behind a command region of two
    octets. *)
Definition trio : bytes :=
  container 40 1 3 0 2 6 0 3
    (entry 0 2 ++ entry 0 2 ++ entry 2 2 ++ entry 4 2
     ++ bytes_of "CC"
     ++ bytes_of "A" ++ [x00] ++ bytes_of "B" ++ [x00]
     ++ bytes_of "C" ++ [x00]).

End Sample.

(* ================================================================== *)
(** * Vocabulary of the statements *)
(* ================================================================== *)

(** The 32-bit signed field at offset [off] of a container. *)
Definition int_at (data : bytes) (off : nat) : Z :=
  signed32 (le_decode (take 4 (drop off data))).

(** The unsigned 32-bit value at offset [off]. *)
Definition uint_at (data : bytes) (off : nat) : Z :=
  le_decode (take 4 (drop off data)).

(** Header fields by their offsets in the container layout. *)
Definition content_length (data : bytes) : Z := int_at data 0x18.
Definition command_count (data : bytes) : Z := int_at data 0x24.
Definition string_count (data : bytes) : Z := int_at data 0x28.
Definition addon_count (data : bytes) : Z := int_at data 0x2C.
Definition command_size (data : bytes) : Z := int_at data 0x30.
Definition string_size (data : bytes) : Z := int_at data 0x34.
Definition addon_size (data : bytes) : Z := int_at data 0x38.
Definition text_count (data : bytes) : Z := int_at data 0x40.

Definition header_length : Z := 0x1C4.

Definition index_table_size (data : bytes) : Z :=
  (command_count data + string_count data + addon_count data) * 8.

(** The content region: what follows the fixed header. *)
Definition content_region (data : bytes) : bytes := drop 0x1C4 data.

(** String-group index entry [i] of a container: its [start] and
    [length] fields. *)
Definition string_entry_offset (data : bytes) (i : Z) : Z :=
  header_length + (command_count data + i) * 8.
Definition entry_start (data : bytes) (i : Z) : Z :=
  uint_at data (Z.to_nat (string_entry_offset data i)).
Definition entry_length (data : bytes) (i : Z) : Z :=
  uint_at data (Z.to_nat (string_entry_offset data i) + 4).

(** Where the string region begins. *)
Definition string_region_start (data : bytes) : Z :=
  header_length + index_table_size data + command_size data.

(** [n] octets of [data] from absolute position [pos]. *)
Definition octets_at (data : bytes) (pos n : Z) : bytes :=
  take (Z.to_nat n) (drop (Z.to_nat pos) data).

(** The locals of [parse_txt] once its loop has gone through [lines]
    without returning or raising. *)
Fixpoint locals_after `{Runtime} (lines : list str) (st : Writer.locals)
    : option Writer.locals :=
  match lines with
  | [] => Some st
  | raw :: rest =>
      match Writer.parse_line st raw with
      | Ok (Writer.Next st') => locals_after rest st'
      | _ => None
      end
  end.

(** [extract_scw_file_try] from the point where the header has been read,
    stated over the fields of the container. *)
Definition after_header `{Runtime} (data : bytes)
    : result Extractor.outcome :=
  magic ← decode ascii_decode_step Strict (rstrip_nul (take 16 data));
  if negb (str_eqb magic MAGIC) then Ok Extractor.InvalidMagic
  else
    dtext ← decode cp932_decode_step Ignore
              (until_nul (take 256 (drop 196 data)));
    if text_count data =? 0 then Ok Extractor.TextCountZero
    else
      '(index_data, f) ← read (index_table_size data) (File data 452);
      if negb (len index_data =? index_table_size data)
      then Ok Extractor.IncompleteIndex
      else
        '(strings, f) ← Extractor.extract_strings (command_count data)
                          (string_region_start data) index_data
                          (seqZ 0 (string_count data)) [] f;
        Ok (Extractor.Extracted
              (Extractor.document (string_count data) (text_count data)
                 (strip dtext) strings) strings).

(** The string the extractor makes of string-group entry [i]: the octets
    the entry points at, NULs stripped, decoded. *)
Definition string_of_entry `{Runtime} (data : bytes) (i : Z) : str :=
  match Extractor.decode_string
          (octets_at data (string_region_start data + entry_start data i)
             (entry_length data i)) with
  | Ok s => s
  | Raise _ => []
  end.

(** The unpacked header tuple of a container, and what [process_scw] reads
    as its content area. *)
Definition header_fields (scw : bytes) : list value :=
  unpack_items Writer.HEADER_FMT (take 452 scw).

Definition content_read (scw : bytes) : bytes :=
  if content_length scw =? -1 then drop 452 scw
  else take (Z.to_nat (content_length scw)) (drop 452 scw).

(** The index entries of a contiguous string region: string after string
    from offset [off] on, each entry the running offset and the length. *)
Fixpoint index_entries (off : Z) (es : list bytes) : bytes :=
  match es with
  | [] => []
  | e :: r =>
      le_encode 4 off ++ le_encode 4 (len e)
      ++ index_entries (off + len e) r
  end.

(** The four regions [process_scw] slices out of the content area. *)
Definition regions (scw : bytes) : bytes * bytes * bytes * bytes :=
  Writer.split_content (content_read scw)
    (command_count scw) (string_count scw) (addon_count scw)
    (command_size scw) (string_size scw) (addon_size scw).

Definition index_region (scw : bytes) : bytes := (regions scw).1.1.1.
Definition command_region (scw : bytes) : bytes := (regions scw).1.1.2.
Definition string_region (scw : bytes) : bytes := (regions scw).1.2.
Definition addon_region (scw : bytes) : bytes := (regions scw).2.

(** The header of the rebuilt container: the original tuple with fields 3
    and 10 replaced, packed. *)
Definition patched_header (scw : bytes) (new_content_len new_str_size : Z)
    : result bytes :=
  pack Writer.HEADER_FMT
    (<[10%nat := VInt new_str_size]>
       (<[3%nat := VInt new_content_len]> (header_fields scw))).

(** The run of [process_scw] that writes [out]: the values of its
    variables. *)
Record rebuild `{Runtime} (scw : bytes) (txt : str) (out : bytes) := Rebuild {
  header_txt : gmap str str;
  new_strings : list str;
  new_str_list : list bytes;
  new_index : bytes;
  packed_header : bytes;
  rb_header : (452 <= length scw)%nat;
  rb_content : - 1 <= content_length scw;
  rb_parse : Writer.parse_txt txt = Ok (Some (header_txt, new_strings));
  rb_header_txt : header_txt <> ∅;
  rb_new_strings : new_strings <> [];
  rb_string_count :
    Writer.declared header_txt STRING_COUNT = Ok (string_count scw);
  rb_text_count :
    Writer.declared header_txt TEXT_COUNT = Ok (text_count scw);
  rb_encode : Writer.encode_strings new_strings = Ok new_str_list;
  rb_index :
    Writer.update_index (command_count scw * 8) new_str_list
      (seqZ 0 (string_count scw)) (index_region scw) 0 = Ok new_index;
  rb_pack :
    patched_header scw
      (len (new_index ++ command_region scw ++ concat new_str_list
            ++ addon_region scw))
      (len (concat new_str_list)) = Ok packed_header;
  rb_out :
    out = packed_header ++ new_index ++ command_region scw
          ++ concat new_str_list ++ addon_region scw;
}.

(** The file at [output_path] after a call of [process_scw], if the call
    wrote one. *)
Definition output_file (o : Writer.outcome) : option bytes :=
  match o with
  | Writer.Written out => Some out
  | _ => None
  end.



(** The octets [process_scw] makes of one string: its encoding and the
    terminating NUL. *)
Definition encoded `{Runtime} (s : str) : bytes :=
  match Writer.encode_string s with
  | Ok (b, _) => b
  | Raise _ => []
  end.

(** The offsets and lengths of a contiguous region fit the 32-bit fields
    of the index table. *)
Fixpoint entries_in_range (off : Z) (es : list bytes) : Prop :=
  match es with
  | [] => True
  | e :: r =>
      0 <= off < 2 ^ 32 /\ len e < 2 ^ 32 /\ entries_in_range (off + len e) r
  end.

(** The header outside the fields [contentLength] (offset [0x18]) and
    [stringSize] (offset [0x34]) is the same in both containers. *)
Definition same_header_frame (scw out : bytes) : Prop :=
  take 24 out = take 24 scw
  /\ take 24 (drop 28 out) = take 24 (drop 28 scw)
  /\ take 396 (drop 56 out) = take 396 (drop 56 scw).

(** ** Newline translation

    A text written through a file opened with ['w'] where [os.linesep] is
    ["\r\n"]: every ["\n"] goes to the file as ["\r\n"]. *)
Definition crlf (text : str) : str :=
  flat_map (fun c => if c =? 10 then [13; 10] else [c]) text.

(** ** Strings that go through the text document unchanged *)

(** [s.split('\n')] *)
Fixpoint split_nl (s : str) : list str :=
  match s with
  | [] => [[]]
  | c :: r =>
      if c =? 10 then [] :: split_nl r
      else match split_nl r with
           | l :: ls => (c :: l) :: ls
           | [] => [[c]]
           end
  end.

(** No carriage return or line feed. *)
Definition single_line (s : str) : bool :=
  forallb (fun c => negb (c =? 10) && negb (c =? 13)) s.

(** A line that [parse_txt] takes as it is for string content: not blank,
    no white space at either end, not opening with a bracket, no line
    break inside. *)
Definition clean_line (l : str) : bool :=
  negb (bool_decide (l = [])) && bool_decide (strip l = l)
  && negb (startswith BRACKET l) && single_line l.

(** A string the text document holds faithfully: empty, or made of clean
    lines. *)
Definition document_safe (s : str) : bool :=
  bool_decide (s = []) || forallb clean_line (split_nl s).

(** A string the codec gives back: encoded and NUL-terminated by
    [process_scw], then stripped of NULs and decoded by the extractor, it
    is itself again. *)
Definition codec_stable `{Runtime} (s : str) : Prop :=
  decode cp932_decode_step Replace (rstrip_nul (encoded s)) = Ok s.

(** The lines of the text document the extractor writes. *)
Fixpoint section_lines (idx : Z) (strings : list str) : list str :=
  match strings with
  | [] => []
  | s :: r =>
      (str_of "[Index=" ++ str_int idx ++ str_of "]")
      :: split_nl s ++ [[]] ++ section_lines (idx + 1) r
  end.

Definition document_lines (string_count text_count : Z) (description : str)
    (strings : list str) : list str :=
  [str_of "[Header]";
   str_of "STRING_COUNT = " ++ str_int string_count;
   str_of "TEXT_COUNT = " ++ str_int text_count;
   str_of "FILE_DESCRIPTION = " ++ description;
   []]
  ++ section_lines 1 strings.

(** The line-accumulation rule of [parse_txt]: the lines of a section are
    joined by newlines onto the string collected so far. *)
Definition accumulate (old : str) (lines : list str) : str :=
  fold_left (fun acc l => match acc with
                          | [] => l
                          | _ => acc ++ NL ++ l
                          end) lines old.

(** ** Containers that extract *)

(** The description the extractor puts in the header block. *)
Definition description `{Runtime} (data : bytes) : str :=
  match decode cp932_decode_step Ignore
          (until_nul (take 256 (drop 196 data))) with
  | Ok dtext => strip dtext
  | Raise _ => []
  end.

(** The strings of all string-group entries. *)
Definition decoded_strings `{Runtime} (data : bytes) : list str :=
  map (string_of_entry data) (seqZ 0 (string_count data)).

(** What the extractor checks before it reads strings: the header is
    there, the magic is right, the text count is not zero and the index
    table is complete. *)
Definition extractable (data : bytes) : Prop :=
  (68 <= length data)%nat
  /\ decode ascii_decode_step Strict (rstrip_nul (take 16 data)) = Ok MAGIC
  /\ text_count data <> 0
  /\ index_table_size data <= len (content_region data).

(** The data model of a container as far as the two scripts depend on it:
    counts and command size are not negative, and the content area
    [process_scw] reads holds the index table and the command region. *)
Definition valid_container (scw : bytes) : Prop :=
  0 <= command_count scw /\ 0 <= string_count scw /\ 0 <= addon_count scw
  /\ 0 <= command_size scw
  /\ - 1 <= content_length scw
  /\ index_table_size scw + command_size scw <= len (content_read scw).

(** The round trip of a container: it extracts to as many strings as its
    string count says, the document written rebuilds it, and the rebuilt
    container extracts to the same strings. *)
Definition round_trip_fixed_point `{Runtime} (scw : bytes) : Prop :=
  forall doc ss,
    Extractor.extract_scw_file scw = Extractor.Extracted doc ss ->
    len ss = string_count scw
    /\ exists out doc',
         Writer.process_scw scw doc = Writer.Written out
         /\ Extractor.extract_scw_file out = Extractor.Extracted doc' ss.

(** The length of the content area a rebuild with strings [ss] writes. *)
Definition rebuilt_size `{Runtime} (scw : bytes) (ss : list str) : Z :=
  len (index_region scw) + len (command_region scw)
  + len (concat (map encoded ss)) + len (addon_region scw).

(** ** The loop of [parse_txt] *)

(** The number of lines of a document that open an index section. *)
Definition index_headers (lines : list str) : nat :=
  length (List.filter (fun l => startswith INDEX_TAG (strip l)) lines).

(** What [parse_txt] keeps true of its locals from line to line:
    [current_index], once set, is the number of strings collected; before
    that there are no strings; and it is set whenever the index section is
    open. *)
Definition index_in_step (st : Writer.locals) : Prop :=
  match Writer.current_index st with
  | Some n => n = len (Writer.strings st) /\ Writer.strings st <> []
  | None => Writer.strings st = []
  end
  /\ (Writer.current_section st = Some Writer.index_section ->
      is_Some (Writer.current_index st)).

(** The list [b] continues the list [a]: it is at least as long, every
    string of [a] before the last is in [b] unchanged, and the last is in
    [b] with text added at its end, if any. *)
Definition continues (a b : list str) : Prop :=
  (length a <= length b)%nat
  /\ forall (i : nat) (s : str),
       a !! i = Some s ->
       exists t, b !! i = Some (s ++ t) /\ ((S i < length a)%nat -> t = []).

(** ** Rebuilt containers *)

(** What the extractor reads back from the octets [process_scw] makes of
    a string. *)
Definition recoded `{Runtime} (s : str) : str :=
  match Extractor.decode_string (encoded s) with
  | Ok t => t
  | Raise _ => []
  end.

(** ** What the scripts read of a container *)

(** What the extractor takes from a file: its length, the magic, the
    three counts with the command size, the text count, and everything
    from the description on. *)
Definition extractor_reads (data : bytes)
    : nat * bytes * bytes * bytes * bytes :=
  (length data, take 16 data, take 16 (drop 36 data),
   take 4 (drop 64 data), drop 196 data).

(** ** The files [main] selects *)

(** The files of a walk that [main] of the extractor takes for scripts,
    and those that [main] of the writer takes for text documents. *)
Definition script_names (walk : list (str * list str)) : list str :=
  flat_map (fun d => List.filter (fun f => negb (has_dot f)) d.2) walk.

Definition text_names (walk : list (str * list str)) : list str :=
  flat_map (fun d => List.filter (endswith TXT_SUFFIX) d.2) walk.

(** The files counted by the extractor, and by the writer. *)
Definition extract_tally (c : ExtractorMain.counts) : Z :=
  ExtractorMain.processed_count c + ExtractorMain.error_count c.

Definition rebuild_tally (c : WriterMain.counts) : Z :=
  WriterMain.success c + WriterMain.failed c + WriterMain.warnings c.

(* ================================================================== *)
(** * Facts about the runtime *)
(* ================================================================== *)

Section result_facts.
Context {A B : Type}.

Lemma bind_Ok (a : A) (k : A -> result B) : (Ok a ≫= k) = k a.
Proof. reflexivity. Qed.

Lemma bind_Raise (e : exn) (k : A -> result B) : (Raise e ≫= k) = Raise e.
Proof. reflexivity. Qed.

Lemma bind_Ok_inv (m : result A) (k : A -> result B) (b : B) :
  (m ≫= k) = Ok b -> exists a, m = Ok a /\ k a = Ok b.
Proof. destruct m as [a|e]; [eauto | discriminate]. Qed.

End result_facts.

(** Inverts a successful bind in hypothesis [H]. *)
Ltac ok_inv H :=
  let a := fresh "a" in
  let Ha := fresh "Ha" in
  apply bind_Ok_inv in H; destruct H as (a & Ha & H).

Lemma len_nonneg {A} (l : list A) : 0 <= len l.
Proof. unfold len. lia. Qed.

Lemma len_app {A} (l k : list A) : len (l ++ k) = len l + len k.
Proof. unfold len. rewrite length_app. lia. Qed.

Lemma len_nil {A} : len (@nil A) = 0.
Proof. reflexivity. Qed.

(** ** Error handlers *)

Lemma decode_loop_replace_total step fuel bs :
  exists s, decode_loop fuel step Replace bs = Ok s.
Proof.
  revert bs. induction fuel as [|fuel IH]; intros bs.
  - exists []. reflexivity.
  - destruct bs as [|b r]; [exists []; reflexivity|].
    cbn [decode_loop].
    destruct (step (b :: r)) as [c n|n];
      destruct (IH (drop (Nat.max 1 n) (b :: r))) as [s Hs];
      rewrite Hs; eauto.
Qed.

Lemma decode_loop_ignore_total step fuel bs :
  exists s, decode_loop fuel step Ignore bs = Ok s.
Proof.
  revert bs. induction fuel as [|fuel IH]; intros bs.
  - exists []. reflexivity.
  - destruct bs as [|b r]; [exists []; reflexivity|].
    cbn [decode_loop].
    destruct (step (b :: r)) as [c n|n];
      destruct (IH (drop (Nat.max 1 n) (b :: r))) as [s Hs];
      rewrite Hs; eauto.
Qed.

Lemma decode_replace_total step bs : exists s, decode step Replace bs = Ok s.
Proof. apply decode_loop_replace_total. Qed.

Lemma decode_ignore_total step bs : exists s, decode step Ignore bs = Ok s.
Proof. apply decode_loop_ignore_total. Qed.

Lemma encode_replace_total enc s : exists b, encode enc Replace s = Ok b.
Proof.
  induction s as [|c r [b Hb]]; [exists []; reflexivity|].
  cbn [encode]. rewrite Hb. destruct (enc c); eauto.
Qed.

Lemma encode_raises enc h s e :
  encode enc h s = Raise e -> e = UnicodeEncodeError /\ h = Strict.
Proof.
  induction s as [|c r IH]; [discriminate|].
  cbn [encode]. destruct (enc c) as [b|].
  - destruct (encode enc h r); [discriminate|].
    cbn. intros [= <-]. auto.
  - destruct h.
    + intros [= <-]. auto.
    + destruct (encode enc Replace r); [discriminate|].
      cbn. intros [= <-]. destruct (IH eq_refl). discriminate.
    + auto.
Qed.

(* ================================================================== *)
(** * The text document parser *)
(* ================================================================== *)

Section parser_facts.
Context `{Runtime}.
Import Writer.

Lemma parse_lines_app pre post st st' :
  locals_after pre st = Some st' ->
  parse_lines (pre ++ post) st = parse_lines post st'.
Proof.
  revert st. induction pre as [|raw pre IH]; intros st; cbn.
  - intros [= ->]. reflexivity.
  - destruct (parse_line st raw) as [[st1|]|e]; try discriminate.
    intros Hpre. cbn. auto.
Qed.

Lemma startswith_app p s : startswith p (p ++ s) = true.
Proof.
  induction p as [|a p IH]; [reflexivity|].
  cbn. rewrite Z.eqb_refl. exact IH.
Qed.

Lemma startswith_inv p s :
  startswith p s = true -> exists r, s = p ++ r.
Proof.
  revert s. induction p as [|a p IH]; intros s; cbn.
  - eauto.
  - destruct s as [|c s]; [discriminate|].
    intros [Hac Hps]%andb_prop. apply Z.eqb_eq in Hac as ->.
    destruct (IH _ Hps) as [r ->]. eauto.
Qed.

(** A line that opens an index section. *)
Lemma parse_line_index st raw tag after n :
  startswith INDEX_TAG (strip raw) = true ->
  split_once 61 (strip raw) = Some (tag, after) ->
  int (rstrip_char 93 after) = Ok n ->
  parse_line st raw =
    if n =? len (strings st) + 1
    then Ok (Next (Locals (strings st ++ [[]]) (header st) (Some n)
                     (Some index_section)))
    else Ok ReturnNone.
Proof.
  intros Htag Hsplit Hint. unfold parse_line.
  destruct (startswith_inv _ _ Htag) as [r Hr].
  rewrite Hr in *. cbn [INDEX_TAG app] in *.
  change (startswith BRACKET (91 :: 73 :: 110 :: 100 :: 101 :: 120
            :: 61 :: r)) with true.
  cbv iota.
  replace (str_eqb _ HEADER_TAG) with false
    by (symmetry; apply bool_decide_eq_false; discriminate).
  rewrite Htag, Hsplit. cbn. rewrite Hint. cbn.
  destruct (n =? len (strings st) + 1); reflexivity.
Qed.

End parser_facts.

(** ** Documents written with ["\r\n"] line ends

    Read back with universal newlines, such a document differs from the
    text written at most by blank lines, which the loop skips: [parse_txt]
    and [process_scw] do not depend on the line separator of the
    platform. *)

Section newline_translation.
Context `{Runtime}.
Import Writer.

Lemma parse_lines_blank rest st :
  parse_lines (NL :: rest) st = parse_lines rest st.
Proof. reflexivity. Qed.

Lemma parse_lines_head l xs ys :
  (forall st, parse_lines xs st = parse_lines ys st) ->
  forall st, parse_lines (l :: xs) st = parse_lines (l :: ys) st.
Proof.
  intros Hrest st. cbn [parse_lines].
  destruct (parse_line st l) as [[st'|]|e]; cbn; auto.
Qed.

Lemma readlines_go_crlf (n : nat) :
  forall s cur st,
    (length s <= n)%nat ->
    parse_lines (readlines_go cur (crlf s)) st =
      parse_lines (readlines_go cur s) st.
Proof.
  induction n as [|n IH]; intros s cur st Hn.
  - destruct s; [reflexivity|cbn in Hn; lia].
  - destruct s as [|c r]; [reflexivity|]. cbn [length] in Hn.
    cbn [crlf flat_map]. fold (crlf r).
    destruct (Z.eqb_spec c 10) as [->|Hc10].
    + cbn [app readlines_go Z.eqb Pos.eqb].
      apply parse_lines_head. intros st'. apply IH. lia.
    + cbn [app readlines_go]. apply Z.eqb_neq in Hc10. rewrite Hc10.
      destruct (Z.eqb_spec c 13) as [->|Hc13].
      * destruct r as [|c' r']; [reflexivity|].
        cbn [crlf flat_map]. fold (crlf r').
        destruct (Z.eqb_spec c' 10) as [->|Hc'].
        -- cbn [app Z.eqb Pos.eqb readlines_go rev].
           apply parse_lines_head. intros st'.
           rewrite parse_lines_blank. apply IH. cbn [length] in Hn. lia.
        -- cbn [app]. apply Z.eqb_neq in Hc'. rewrite Hc'.
           apply parse_lines_head. intros st'.
           specialize (IH (c' :: r') [] st' ltac:(lia)).
           cbn [crlf flat_map] in IH. fold (crlf r') in IH.
           rewrite Hc' in IH. exact IH.
      * apply IH. lia.
Qed.

Lemma parse_txt_crlf text : parse_txt (crlf text) = parse_txt text.
Proof. apply (readlines_go_crlf (length text)). lia. Qed.

Lemma process_scw_crlf scw txt :
  process_scw scw (crlf txt) = process_scw scw txt.
Proof.
  unfold process_scw, process_scw_try.
  destruct (read FileHeadLen (open_rb scw)) as [[header_data f]|e];
    [|reflexivity].
  cbn [mbind result_bind].
  destruct (unpack HEADER_FMT header_data) as [fields|e]; [|reflexivity].
  cbn [mbind result_bind].
  do 17 (try (destruct fields as [|[?|?] fields]; try reflexivity)).
  destruct (seek FileHeadLen f) as [f'|e]; [|reflexivity].
  cbn [mbind result_bind].
  destruct (read _ f') as [[content f'']|e]; [|reflexivity].
  cbn [mbind result_bind].
  unfold process_content. rewrite parse_txt_crlf. reflexivity.
Qed.

End newline_translation.

(* ================================================================== *)
(** * Whitespace stripping *)
(* ================================================================== *)

Lemma rstrip_cons c r :
  rstrip (c :: r) =
    match rstrip r with
    | [] => if isspace c then [] else [c]
    | _ => c :: rstrip r
    end.
Proof. reflexivity. Qed.

Lemma rstrip_idem s : rstrip (rstrip s) = rstrip s.
Proof.
  induction s as [|c r IH]; [reflexivity|].
  rewrite rstrip_cons. destruct (rstrip r) as [|x y] eqn:Hr.
  - destruct (isspace c) eqn:Hc; [reflexivity|].
    cbn. rewrite Hc. reflexivity.
  - rewrite rstrip_cons, IH. reflexivity.
Qed.

Lemma lstrip_idem s : lstrip (lstrip s) = lstrip s.
Proof.
  induction s as [|c r IH]; [reflexivity|].
  cbn. destruct (isspace c) eqn:Hc; [exact IH|].
  cbn. rewrite Hc. reflexivity.
Qed.

Lemma rstrip_lstrip s : rstrip (lstrip s) = lstrip (rstrip s).
Proof.
  induction s as [|c r IH]; [reflexivity|].
  rewrite rstrip_cons. cbn [lstrip].
  destruct (isspace c) eqn:Hc.
  - rewrite IH. destruct (rstrip r); [reflexivity|].
    cbn [lstrip]. rewrite Hc. reflexivity.
  - rewrite rstrip_cons. destruct (rstrip r); rewrite ?Hc; cbn; rewrite Hc;
      reflexivity.
Qed.

Lemma strip_idem s : strip (strip s) = strip s.
Proof.
  unfold strip.
  rewrite rstrip_lstrip, rstrip_idem, lstrip_idem. reflexivity.
Qed.

(* ================================================================== *)
(** * Reading a container file *)
(* ================================================================== *)

Lemma take_drop_take {A} (l : list A) (a n i m : nat) :
  (i + m <= n)%nat ->
  take m (drop i (take n (drop a l))) = take m (drop (a + i) l).
Proof.
  intros Hle. rewrite skipn_firstn_comm, take_take, drop_drop.
  f_equal. lia.
Qed.

Lemma read_spec (n : Z) data p :
  0 <= n ->
  read n (File data p) =
    Ok (take (Z.to_nat n) (drop p data),
        File data (p + length (take (Z.to_nat n) (drop p data)))).
Proof.
  intros Hn. unfold read.
  destruct (n <? -1) eqn:E1; [lia|].
  destruct (n =? -1) eqn:E2; [lia|]. reflexivity.
Qed.

Lemma unpack_int bs :
  length bs = 4%nat -> unpack [i_] bs = Ok [VInt (signed32 (le_decode bs))].
Proof.
  intros Hlen. unfold unpack. cbn [calcsize item_size].
  rewrite bool_decide_eq_true_2 by (rewrite Hlen; reflexivity).
  cbn [unpack_items unpack_item item_size].
  rewrite firstn_all2 by lia. reflexivity.
Qed.

Lemma unpack_short fmt bs :
  length bs <> calcsize fmt -> unpack fmt bs = Raise StructError.
Proof.
  intros Hlen. unfold unpack.
  rewrite bool_decide_eq_false_2 by exact Hlen. reflexivity.
Qed.

Section reading.
Context `{Runtime}.
Import Extractor.

Lemma read_int_at data p :
  (p + 4 <= length data)%nat ->
  read_int (File data p) = Ok (int_at data p, File data (p + 4)).
Proof.
  intros Hp. unfold read_int. rewrite read_spec by lia. cbn [mbind result_bind].
  assert (Hlen : length (take (Z.to_nat 4) (drop p data)) = 4%nat).
  { rewrite length_take, length_drop. lia. }
  rewrite Hlen, unpack_int by exact Hlen. reflexivity.
Qed.

Lemma read_int_short data p :
  ~ (p + 4 <= length data)%nat ->
  read_int (File data p) = Raise StructError.
Proof.
  intros Hp. unfold read_int. rewrite read_spec by lia. cbn [mbind result_bind].
  rewrite unpack_short; [reflexivity|].
  rewrite length_take, length_drop. cbn [calcsize item_size]. lia.
Qed.

Lemma drop_past_padding (data : bytes) :
  (68 <= length data)%nat ->
  drop (68 + length (take 128 (drop 68 data))) data = drop 196 data.
Proof.
  intros Hlen. rewrite length_take, length_drop.
  destruct (decide (196 <= length data)%nat) as [Hge|Hlt].
  - f_equal. lia.
  - rewrite !drop_ge by lia. reflexivity.
Qed.

Lemma extract_try_long data :
  (68 <= length data)%nat ->
  extract_scw_file_try (open_rb data) = after_header data.
Proof.
  intros Hlen. unfold extract_scw_file_try, after_header, open_rb.
  rewrite read_spec by lia. cbn [mbind result_bind].
  change (Z.to_nat 16) with 16%nat. rewrite drop_0.
  destruct (decode ascii_decode_step Strict (rstrip_nul (take 16 data)))
    as [magic|e]; [|reflexivity].
  cbn [mbind result_bind].
  destruct (negb (str_eqb magic MAGIC)); [reflexivity|].
  assert (Hpos : (0 + length (take 16 data) = 16)%nat)
    by (rewrite length_take; lia).
  rewrite Hpos.
  do 13 (rewrite read_int_at by lia; cbn [mbind result_bind]).
  cbn [Nat.add].
  unfold Pad2Len. rewrite read_spec by lia. cbn [mbind result_bind].
  rewrite read_spec by lia. cbn [mbind result_bind].
  change (Z.to_nat 128) with 128%nat. change (Z.to_nat 256) with 256%nat.
  rewrite drop_past_padding by exact Hlen.
  destruct (decode cp932_decode_step Ignore
              (until_nul (take 256 (drop 196 data)))) as [dtext|e];
    [|reflexivity].
  cbn [mbind result_bind].
  fold (text_count data).
  destruct (text_count data =? 0); [reflexivity|].
  unfold seek, FileHeadLen. cbn [Z.ltb Z.compare mbind result_bind f_data].
  reflexivity.
Qed.

Lemma extract_try_short data :
  ~ (68 <= length data)%nat ->
  (exists e, extract_scw_file_try (open_rb data) = Raise e)
  \/ extract_scw_file_try (open_rb data) = Ok InvalidMagic.
Proof.
  intros Hlen. unfold extract_scw_file_try, open_rb.
  rewrite read_spec by lia. cbn [mbind result_bind].
  change (Z.to_nat 16) with 16%nat. rewrite drop_0.
  destruct (decode ascii_decode_step Strict (rstrip_nul (take 16 data)))
    as [magic|e]; [|left; eexists; reflexivity].
  cbn [mbind result_bind].
  destruct (negb (str_eqb magic MAGIC)); [right; reflexivity|].
  left. eexists.
  destruct (decide (16 <= length data)%nat) as [H16|H16].
  2: { rewrite read_int_short; [reflexivity|].
       rewrite length_take. lia. }
  assert (Hpos : (0 + length (take 16 data) = 16)%nat)
    by (rewrite length_take; lia).
  rewrite Hpos.
  do 13 (match goal with
         | |- context [read_int (File data ?p)] =>
             destruct (decide (p + 4 <= length data)%nat);
             [rewrite read_int_at by assumption; cbn [mbind result_bind]
             |rewrite read_int_short by assumption; reflexivity]
         end).
  lia.
Qed.

End reading.

(* ================================================================== *)
(** * The extraction loop *)
(* ================================================================== *)

Lemma b2z_range b : 0 <= b2z b < 256.
Proof.
  unfold b2z. pose proof (Byte.to_N_bounded b). lia.
Qed.

Lemma le_decode_nonneg bs : 0 <= le_decode bs.
Proof.
  induction bs as [|b r IH]; cbn [le_decode]; [lia|].
  pose proof (b2z_range b). lia.
Qed.

Lemma slice_in_range {A} (l : list A) (a b : Z) :
  0 <= a -> a <= b -> b <= len l ->
  slice l a b = take (Z.to_nat (b - a)) (drop (Z.to_nat a) l).
Proof.
  intros Ha Hab Hb. unfold slice, clamp_index.
  destruct (a <? 0) eqn:E1; [lia|].
  destruct (b <? 0) eqn:E2; [lia|].
  rewrite !Z.min_l by lia. reflexivity.
Qed.

Lemma unpack_II bs :
  length bs = 8%nat ->
  unpack [I_; I_] bs =
    Ok [VInt (le_decode (take 4 bs)); VInt (le_decode (take 4 (drop 4 bs)))].
Proof.
  intros Hlen. unfold unpack. cbn [calcsize item_size].
  rewrite bool_decide_eq_true_2 by (rewrite Hlen; reflexivity).
  reflexivity.
Qed.

Section extraction_loop.
Context `{Runtime}.
Import Extractor.

Lemma decode_string_total data :
  exists s,
    decode cp932_decode_step Replace (rstrip_nul data) = Ok s
    /\ decode_string data = Ok s.
Proof.
  destruct (decode_replace_total cp932_decode_step (rstrip_nul data))
    as [s Hs].
  exists s. unfold decode_string. rewrite Hs. auto.
Qed.

(** Reading entry [i] of the string group out of the index table read from
    the file. *)
Lemma entry_read data (n : nat) (i : Z) :
  0 <= command_count data + i ->
  (command_count data + i) * 8 + 8 <= len (take n (drop 452 data)) ->
  unpack [I_; I_]
    (slice (take n (drop 452 data)) ((command_count data + i) * 8)
       ((command_count data + i) * 8 + 8)) =
    Ok [VInt (entry_start data i); VInt (entry_length data i)].
Proof.
  intros Hlo Hhi.
  set (k := command_count data + i) in *.
  assert (Hn : (Z.to_nat (k * 8) + 8 <= n)%nat).
  { unfold len in Hhi. rewrite length_take in Hhi. lia. }
  rewrite slice_in_range by lia.
  replace (Z.to_nat (k * 8 + 8 - k * 8)) with 8%nat by lia.
  rewrite take_drop_take by lia.
  rewrite unpack_II.
  2: { unfold len in Hhi. rewrite length_take, length_drop in *. lia. }
  rewrite take_take. change (4 `min` 8)%nat with 4%nat.
  rewrite (skipn_firstn_comm 4 8), take_take, drop_drop.
  change (4 `min` (8 - 4))%nat with 4%nat.
  unfold entry_start, entry_length, uint_at, string_entry_offset,
    header_length. fold k.
  repeat f_equal; lia.
Qed.

Lemma extract_strings_sound data (n p : nat) range acc ss f' :
  0 <= command_count data ->
  Forall (fun i => 0 <= i) range ->
  extract_strings (command_count data) (string_region_start data)
    (take n (drop 452 data)) range acc (File data p) = Ok (ss, f') ->
  exists m, ss = acc ++ map (string_of_entry data) (take m range).
Proof.
  intros Hcc Hrange. revert acc p.
  induction Hrange as [|i range Hi _ IH]; intros acc p; cbn [extract_strings].
  - intros [= <- <-]. exists 0%nat. cbn. rewrite app_nil_r. reflexivity.
  - destruct (_ >? _) eqn:Hbreak.
    + intros [= <- <-]. exists 0%nat. cbn. rewrite app_nil_r. reflexivity.
    + rewrite entry_read by lia. cbn [mbind result_bind].
      unfold seek.
      destruct (string_region_start data + entry_start data i <? 0);
        [discriminate|].
      cbn [mbind result_bind f_data].
      rewrite read_spec by apply le_decode_nonneg.
      cbn [mbind result_bind].
      fold (octets_at data (string_region_start data + entry_start data i)
              (entry_length data i)).
      destruct (decode_string_total
                  (octets_at data
                     (string_region_start data + entry_start data i)
                     (entry_length data i))) as (s & _ & Hs).
      assert (Hs' : string_of_entry data i = s)
        by (unfold string_of_entry; rewrite Hs; reflexivity).
      rewrite Hs. cbn [mbind result_bind].
      intros Hrest. apply IH in Hrest as [m ->].
      exists (S m). cbn [take map]. rewrite Hs', <- app_assoc. reflexivity.
Qed.

End extraction_loop.

(* ================================================================== *)
(** * Little-endian integers and packed records *)
(* ================================================================== *)

Lemma z2b_b2z b : z2b (b2z b) = b.
Proof.
  unfold z2b. pose proof (b2z_range b).
  rewrite Z.mod_small by lia. unfold b2z.
  rewrite N2Z.id, Byte.of_to_N. reflexivity.
Qed.

Lemma b2z_z2b z : b2z (z2b z) = z mod 256.
Proof.
  unfold z2b, b2z.
  pose proof (Z.mod_pos_bound z 256 ltac:(lia)) as Hm.
  pose proof (Byte.to_of_N_option_map (Z.to_N (z mod 256))) as Hopt.
  destruct (Byte.of_N (Z.to_N (z mod 256))) as [y|].
  - cbn [option_map] in Hopt. destruct (_ <=? _)%N; [|discriminate].
    injection Hopt as Hy. change (default x00 (Some y)) with y.
    rewrite Hy. lia.
  - cbn [option_map] in Hopt. destruct (_ <=? _)%N eqn:E; [discriminate|].
    apply N.leb_gt in E. lia.
Qed.

Lemma z2b_add z c : z2b (z + c * 256) = z2b z.
Proof. unfold z2b. rewrite Z.mod_add by lia. reflexivity. Qed.

Lemma length_le_encode n z : length (le_encode n z) = n.
Proof.
  revert z. induction n as [|n IH]; intros z; cbn; [reflexivity|].
  rewrite IH. reflexivity.
Qed.

Lemma le_decode_bound bs : 0 <= le_decode bs < 256 ^ len bs.
Proof.
  induction bs as [|b r IH]; cbn [le_decode].
  - change (256 ^ len []) with 1. lia.
  - unfold len in *. cbn [length]. rewrite Nat2Z.inj_succ, Z.pow_succ_r by lia.
    pose proof (b2z_range b).
    set (P := 256 ^ Z.of_nat (length r)) in *. lia.
Qed.

Lemma le_encode_decode bs : le_encode (length bs) (le_decode bs) = bs.
Proof.
  induction bs as [|b r IH]; [reflexivity|].
  cbn [length le_decode le_encode].
  pose proof (b2z_range b).
  replace (b2z b + 256 * le_decode r) with (b2z b + le_decode r * 256) by lia.
  rewrite z2b_add, z2b_b2z, Z.div_add, Z.div_small by lia.
  rewrite Z.add_0_l, IH. reflexivity.
Qed.

Lemma le_decode_encode n z : le_decode (le_encode n z) = z mod 256 ^ Z.of_nat n.
Proof.
  revert z. induction n as [|n IH]; intros z.
  - cbn. rewrite Z.mod_1_r. reflexivity.
  - cbn [le_encode le_decode]. rewrite IH, b2z_z2b.
    rewrite Nat2Z.inj_succ, Z.pow_succ_r by lia.
    rewrite Z.rem_mul_r by lia. reflexivity.
Qed.

Lemma le_encode_add n z c :
  le_encode n (z + c * 256 ^ Z.of_nat n) = le_encode n z.
Proof.
  revert z c. induction n as [|n IH]; intros z c; [reflexivity|].
  cbn [le_encode]. rewrite Nat2Z.inj_succ, Z.pow_succ_r by lia.
  replace (z + c * (256 * 256 ^ Z.of_nat n))
    with (z + (c * 256 ^ Z.of_nat n) * 256) by lia.
  rewrite z2b_add, Z.div_add by lia. rewrite IH. reflexivity.
Qed.

Lemma signed32_range u :
  0 <= u < 2 ^ 32 -> - 2 ^ 31 <= signed32 u < 2 ^ 31.
Proof. unfold signed32. destruct (u <? 2 ^ 31) eqn:E; lia. Qed.

Lemma le_encode_signed32 u : le_encode 4 (signed32 u) = le_encode 4 u.
Proof.
  unfold signed32. destruct (u <? 2 ^ 31); [reflexivity|].
  change (u - 2 ^ 32) with (u + (-1) * 256 ^ Z.of_nat 4).
  apply le_encode_add.
Qed.

Lemma le_decode_encode_u32 z :
  0 <= z < 2 ^ 32 -> le_decode (le_encode 4 z) = z.
Proof.
  intros Hz. rewrite le_decode_encode.
  change (256 ^ Z.of_nat 4) with (2 ^ 32). apply Z.mod_small. exact Hz.
Qed.

Lemma signed32_encode z :
  - 2 ^ 31 <= z < 2 ^ 31 -> signed32 (le_decode (le_encode 4 z)) = z.
Proof.
  intros Hz. rewrite le_decode_encode.
  change (256 ^ Z.of_nat 4) with (2 ^ 32). unfold signed32.
  destruct (decide (0 <= z)) as [Hpos|Hneg].
  - rewrite Z.mod_small by lia.
    destruct (z <? 2 ^ 31) eqn:E; lia.
  - replace (z mod 2 ^ 32) with (z + 2 ^ 32).
    + destruct (z + 2 ^ 32 <? 2 ^ 31) eqn:E; lia.
    + symmetry. rewrite <- (Z.mod_add z 1 (2 ^ 32)) by lia.
      apply Z.mod_small. lia.
Qed.

(** ** Packing an unpacked record *)

Lemma length_pack_item it v b :
  pack_item it v = Ok b -> length b = item_size it.
Proof.
  destruct it as [n| |], v as [bs|z]; cbn [pack_item item_size];
    try discriminate.
  - intros [= <-]. rewrite length_take, length_app, length_replicate. lia.
  - destruct (_ && _); [|discriminate]. intros [= <-]. reflexivity.
  - destruct (_ && _); [|discriminate]. intros [= <-]. reflexivity.
Qed.

Lemma length_pack fmt vals b :
  pack fmt vals = Ok b -> length b = calcsize fmt.
Proof.
  revert vals b. induction fmt as [|it fr IH]; intros [|v vr] b; cbn;
    try discriminate.
  - intros [= <-]. reflexivity.
  - intros Hp. ok_inv Hp. ok_inv Hp. injection Hp as <-.
    rewrite length_app, (length_pack_item _ _ _ Ha), (IH _ _ Ha0).
    reflexivity.
Qed.

Lemma pack_unpack_item it bs :
  length bs = item_size it -> pack_item it (unpack_item it bs) = Ok bs.
Proof.
  intros Hlen.
  destruct it as [n| |]; cbn [pack_item unpack_item item_size] in *.
  - rewrite take_app_length' by congruence. reflexivity.
  - pose proof (le_decode_bound bs) as Hb. unfold len in Hb.
    rewrite Hlen in Hb. change (256 ^ Z.of_nat 4) with (2 ^ 32) in Hb.
    pose proof (signed32_range _ Hb).
    replace (_ && _) with true by (symmetry; apply andb_true_intro; lia).
    rewrite le_encode_signed32, <- Hlen, le_encode_decode. reflexivity.
  - pose proof (le_decode_bound bs) as Hb. unfold len in Hb.
    rewrite Hlen in Hb. change (256 ^ Z.of_nat 4) with (2 ^ 32) in Hb.
    replace (_ && _) with true by (symmetry; apply andb_true_intro; lia).
    rewrite <- Hlen, le_encode_decode. reflexivity.
Qed.

Lemma pack_unpack fmt data :
  length data = calcsize fmt -> pack fmt (unpack_items fmt data) = Ok data.
Proof.
  revert data. induction fmt as [|it fr IH]; intros data Hlen.
  - destruct data; [reflexivity|discriminate].
  - cbn [unpack_items pack calcsize] in *.
    rewrite pack_unpack_item by (rewrite length_take; lia).
    cbn [mbind result_bind].
    rewrite IH by (rewrite length_drop; lia).
    cbn [mbind result_bind]. rewrite take_drop. reflexivity.
Qed.

(** Replacing field [k] of the tuple replaces the octets of that field. *)
Lemma pack_insert f1 it f2 vals data v b :
  pack (f1 ++ it :: f2) vals = Ok data ->
  pack_item it v = Ok b ->
  pack (f1 ++ it :: f2) (<[length f1 := v]> vals) =
    Ok (take (calcsize f1) data ++ b
        ++ drop (calcsize f1 + item_size it) data).
Proof.
  revert vals data. induction f1 as [|it1 f1 IH]; intros [|v1 vals] data;
    cbn [app pack length calcsize]; try discriminate.
  - intros Hp Hv. ok_inv Hp. ok_inv Hp. injection Hp as <-.
    change (<[0%nat := v]> (v1 :: vals)) with (v :: vals).
    cbn [pack]. rewrite Hv, Ha0. cbn [mbind result_bind].
    rewrite <- (length_pack_item _ _ _ Ha), Nat.add_0_l, drop_app_length.
    reflexivity.
  - intros Hp Hv. ok_inv Hp. ok_inv Hp. injection Hp as <-.
    change (<[S (length f1) := v]> (v1 :: vals))
      with (v1 :: <[length f1 := v]> vals).
    cbn [pack]. rewrite Ha. cbn [mbind result_bind].
    rewrite (IH _ _ Ha0 Hv). cbn [mbind result_bind].
    rewrite <- (length_pack_item _ _ _ Ha).
    rewrite take_app_add, <- Nat.add_assoc, drop_app_add, <- app_assoc.
    reflexivity.
Qed.

(* ================================================================== *)
(** * The header as [process_scw] sees it *)
(* ================================================================== *)

Lemma take_drop_prefix {A} (l : list A) (off n m : nat) :
  (off + n <= m)%nat -> take n (drop off (take m l)) = take n (drop off l).
Proof.
  intros Hle. rewrite skipn_firstn_comm, take_take. f_equal. lia.
Qed.

Lemma header_fields_eq scw :
  header_fields scw =
    [VBytes (take 16 scw); VInt (int_at scw 16); VInt (int_at scw 20);
     VInt (content_length scw); VInt (int_at scw 28); VInt (int_at scw 32);
     VInt (command_count scw); VInt (string_count scw);
     VInt (addon_count scw); VInt (command_size scw);
     VInt (string_size scw); VInt (addon_size scw); VInt (int_at scw 60);
     VInt (text_count scw); VBytes (take 128 (drop 68 scw));
     VBytes (take 256 (drop 196 scw))].
Proof.
  unfold header_fields, Writer.HEADER_FMT, Writer.Pad2Len.
  cbn [replicate app unpack_items unpack_item item_size].
  rewrite !drop_drop. cbn [Nat.add].
  rewrite take_take. change (16 `min` 452)%nat with 16%nat.
  rewrite !take_drop_prefix by lia.
  reflexivity.
Qed.

Section writer_header.
Context `{Runtime}.
Import Writer.

Lemma process_scw_try_long scw txt :
  (452 <= length scw)%nat ->
  process_scw_try scw txt =
    ('(content, f) ← read (content_length scw) (File scw 452);
     process_content (header_fields scw) content
       (command_count scw) (string_count scw) (addon_count scw)
       (command_size scw) (string_size scw) (addon_size scw)
       (text_count scw) txt).
Proof.
  intros Hlen. unfold process_scw_try, open_rb, FileHeadLen.
  rewrite read_spec by lia. cbn [mbind result_bind].
  change (Z.to_nat 452) with 452%nat. rewrite drop_0.
  unfold unpack.
  change (calcsize HEADER_FMT) with 452%nat.
  rewrite bool_decide_eq_true_2 by (rewrite length_take; lia).
  cbn [mbind result_bind].
  fold (header_fields scw). rewrite header_fields_eq.
  unfold seek. cbn [Z.ltb Z.compare mbind result_bind f_data].
  reflexivity.
Qed.

Lemma process_scw_try_short scw txt :
  ~ (452 <= length scw)%nat ->
  process_scw_try scw txt = Raise StructError.
Proof.
  intros Hlen. unfold process_scw_try, open_rb, FileHeadLen.
  rewrite read_spec by lia. cbn [mbind result_bind].
  rewrite unpack_short; [reflexivity|].
  change (calcsize HEADER_FMT) with 452%nat.
  rewrite length_take, length_drop. lia.
Qed.

Lemma read_content scw :
  - 1 <= content_length scw ->
  read (content_length scw) (File scw 452) =
    Ok (content_read scw, File scw (452 + length (content_read scw))).
Proof.
  intros Hcl. unfold read, content_read.
  destruct (content_length scw <? -1) eqn:E; [lia|].
  destruct (content_length scw =? -1); reflexivity.
Qed.

End writer_header.

(* ================================================================== *)
(** * The patched header *)
(* ================================================================== *)

Lemma splice_take {A} (pre mid suf : list A) (o m : nat) :
  length pre = o -> length mid = m ->
  take (o + m) (pre ++ mid ++ suf) = pre ++ mid.
Proof.
  intros <- <-. rewrite app_assoc, <- length_app. apply take_app_length.
Qed.

Lemma splice_drop {A} (pre mid suf : list A) (o m j : nat) :
  length pre = o -> length mid = m ->
  drop (o + m + j) (pre ++ mid ++ suf) = drop j suf.
Proof.
  intros <- <-. rewrite app_assoc, <- length_app. apply drop_app_add.
Qed.

Lemma pack_item_of_pack fmt vals data (k : nat) it v :
  pack fmt vals = Ok data ->
  fmt !! k = Some it -> vals !! k = Some v ->
  exists b, pack_item it v = Ok b.
Proof.
  revert vals data k. induction fmt as [|it1 fr IH]; intros [|v1 vr] data k;
    cbn [pack]; try discriminate.
  intros Hp. ok_inv Hp. ok_inv Hp. destruct k as [|k]; cbn.
  - intros [= <-] [= <-]. eauto.
  - intros Hf Hv. eapply IH; eauto.
Qed.

Lemma pack_int_range z b :
  pack_item i_ (VInt z) = Ok b ->
  - 2 ^ 31 <= z < 2 ^ 31 /\ b = le_encode 4 z.
Proof.
  cbn [pack_item].
  destruct (Z.leb_spec (- 2 ^ 31) z); destruct (Z.ltb_spec z (2 ^ 31));
    cbn [andb]; try discriminate.
  intros [= <-]. split; [lia|reflexivity].
Qed.

Lemma pack_int_ok z :
  - 2 ^ 31 <= z < 2 ^ 31 -> pack_item i_ (VInt z) = Ok (le_encode 4 z).
Proof.
  intros Hz. cbn [pack_item].
  destruct (Z.leb_spec (- 2 ^ 31) z); destruct (Z.ltb_spec z (2 ^ 31));
    cbn [andb]; try reflexivity; lia.
Qed.

Lemma patched_header_inv scw a b ph :
  patched_header scw a b = Ok ph ->
  - 2 ^ 31 <= a < 2 ^ 31 /\ - 2 ^ 31 <= b < 2 ^ 31.
Proof.
  unfold patched_header. rewrite header_fields_eq. intros Hp. split.
  - destruct (pack_item_of_pack _ _ _ 3 i_ (VInt a) Hp eq_refl eq_refl)
      as [x Hx].
    apply pack_int_range in Hx. tauto.
  - destruct (pack_item_of_pack _ _ _ 10 i_ (VInt b) Hp eq_refl eq_refl)
      as [x Hx].
    apply pack_int_range in Hx. tauto.
Qed.

Lemma patched_header_ok scw a b :
  (452 <= length scw)%nat ->
  - 2 ^ 31 <= a < 2 ^ 31 -> - 2 ^ 31 <= b < 2 ^ 31 ->
  patched_header scw a b =
    Ok (take 24 scw ++ le_encode 4 a ++ take 24 (drop 28 scw)
        ++ le_encode 4 b ++ take 396 (drop 56 scw)).
Proof.
  intros Hlen Ha Hb. unfold patched_header.
  assert (Hhd : length (take 452 scw) = calcsize Writer.HEADER_FMT)
    by (rewrite length_take; change (calcsize Writer.HEADER_FMT) with 452%nat;
        lia).
  pose proof (pack_unpack _ _ Hhd) as H0. fold (header_fields scw) in H0.
  change Writer.HEADER_FMT
    with ([s_ 16; i_; i_] ++ i_ :: replicate 10 i_ ++ [s_ 128; s_ 256]) in H0.
  pose proof (pack_insert _ _ _ _ _ _ _ H0 (pack_int_ok a Ha)) as H1.
  change ([s_ 16; i_; i_] ++ i_ :: replicate 10 i_ ++ [s_ 128; s_ 256])
    with (([s_ 16] ++ replicate 9 i_) ++ i_ :: [i_; i_; i_; s_ 128; s_ 256])
    in H1.
  pose proof (pack_insert _ _ _ _ _ _ _ H1 (pack_int_ok b Hb)) as H2.
  change (pack Writer.HEADER_FMT
            (<[10%nat := VInt b]> (<[3%nat := VInt a]> (header_fields scw)))
          = Ok (take 52 (take 24 (take 452 scw) ++ le_encode 4 a
                         ++ drop (24 + 4) (take 452 scw))
                ++ le_encode 4 b
                ++ drop (52 + 4)
                     (take 24 (take 452 scw) ++ le_encode 4 a
                      ++ drop (24 + 4) (take 452 scw)))) in H2.
  rewrite H2. f_equal.
  assert (Hpre : length (take 24 (take 452 scw)) = 24%nat)
    by (rewrite !length_take; lia).
  change 52%nat with (24 + 4 + 24)%nat at 1.
  rewrite (take_app_add' _ _ 24 (4 + 24)) by (symmetry; exact Hpre).
  rewrite (take_app_add' _ _ 4 24) by (rewrite length_le_encode; reflexivity).
  change (52 + 4)%nat with (24 + 4 + 28)%nat.
  rewrite (splice_drop _ _ _ 24 4 28 Hpre (length_le_encode 4 a)).
  rewrite take_take, drop_drop, <- !app_assoc.
  change (24 `min` 452)%nat with 24%nat. cbn [Nat.add].
  rewrite take_drop_prefix by lia.
  rewrite (skipn_firstn_comm 56 452). reflexivity.
Qed.

(* ================================================================== *)
(** * Rewriting the string group of the index table *)
(* ================================================================== *)

Section index_update.
Context `{Runtime}.
Import Writer.

Lemma resolve_offset_nonneg (buflen size : nat) (off : Z) :
  0 <= off ->
  resolve_offset buflen size off =
    if decide (Z.to_nat off + size <= buflen)%nat then Ok (Z.to_nat off)
    else Raise StructError.
Proof.
  intros Hoff. unfold resolve_offset.
  destruct (Z.ltb_spec off 0) as [Hneg|_]; [lia|].
  destruct (Z.ltb_spec off 0) as [Hneg|_]; [lia|].
  destruct (Z.ltb_spec (Z.of_nat buflen - off) (Z.of_nat size));
    case_decide; try reflexivity; lia.
Qed.

(** One pass of the loop at a non-negative entry offset. *)
Lemma update_index_step cc es (k : Z) range buf off :
  0 <= cc -> 0 <= k ->
  let o := Z.to_nat ((cc + k) * 8) in
  update_index (cc * 8) es (k :: range) buf off =
    if decide (o + 8 <= length buf)%nat then
      match es !! Z.to_nat k with
      | Some e =>
          if (0 <=? off) && (off <? 2 ^ 32)
          then if (0 <=? len e) && (len e <? 2 ^ 32)
               then update_index (cc * 8) es range
                      (take o buf ++ (le_encode 4 off ++ le_encode 4 (len e))
                       ++ drop (o + 8) buf) (off + len e)
               else Raise StructError
          else Raise StructError
      | None => Raise IndexError
      end
    else Raise StructError.
Proof.
  intros Hcc Hk o. cbn [update_index].
  unfold unpack_from, pack_into. cbn [calcsize item_size Nat.add].
  replace (cc * 8 + k * 8) with ((cc + k) * 8) by lia.
  rewrite resolve_offset_nonneg by lia. fold o.
  case_decide; [|reflexivity]. cbn [mbind result_bind].
  destruct (es !! Z.to_nat k) as [e|]; [|reflexivity].
  cbn [mbind result_bind pack pack_item].
  destruct ((0 <=? off) && (off <? 2 ^ 32)); [|reflexivity].
  cbn [mbind result_bind].
  destruct ((0 <=? len e) && (len e <? 2 ^ 32)); [|reflexivity].
  cbn [mbind result_bind]. rewrite app_nil_r. reflexivity.
Qed.

Lemma seqZ_succ (k : Z) (n : nat) :
  seqZ k (Z.of_nat (S n)) = k :: seqZ (k + 1) (Z.of_nat n).
Proof.
  rewrite seqZ_cons by lia. f_equal. f_equal; lia.
Qed.

(** A successful run leaves the octets before and after the string group
    as they were and puts the entries of a contiguous region between. *)
Lemma update_index_inv cc es (n : nat) :
  0 <= cc ->
  forall (k : Z) buf off out,
    0 <= k ->
    update_index (cc * 8) es (seqZ k (Z.of_nat n)) buf off = Ok out ->
    let o := Z.to_nat ((cc + k) * 8) in
    out = take o buf
          ++ index_entries off (take n (drop (Z.to_nat k) es))
          ++ drop (o + 8 * n) buf
    /\ (n <> 0%nat ->
        (o + 8 * n <= length buf)%nat /\ (Z.to_nat k + n <= length es)%nat)
    /\ entries_in_range off (take n (drop (Z.to_nat k) es)).
Proof.
  intros Hcc. induction n as [|n IH]; intros k buf off out Hk Hrun o.
  - cbn in Hrun. injection Hrun as <-. rewrite take_0.
    split; [|split; [congruence|exact I]].
    cbn [index_entries app].
    rewrite Nat.mul_0_r, Nat.add_0_r, take_drop. reflexivity.
  - rewrite seqZ_succ, update_index_step in Hrun by lia. fold o in Hrun.
    case_decide as Hfit; [|discriminate].
    destruct (es !! Z.to_nat k) as [e|] eqn:He; [|discriminate].
    destruct (Z.leb_spec 0 off); destruct (Z.ltb_spec off (2 ^ 32));
      cbn [andb] in Hrun; try discriminate.
    destruct (Z.leb_spec 0 (len e)); destruct (Z.ltb_spec (len e) (2 ^ 32));
      cbn [andb] in Hrun; try discriminate.
    apply IH in Hrun as (Hout & Hbound & Hrange); [|lia].
    replace (Z.to_nat (k + 1)) with (S (Z.to_nat k)) in Hrange by lia.
    replace (Z.to_nat ((cc + (k + 1)) * 8)) with (o + 8)%nat in * by lia.
    assert (Hpre : length (take o buf) = o) by (rewrite length_take; lia).
    assert (Hent : length (le_encode 4 off ++ le_encode 4 (len e)) = 8%nat)
      by (rewrite length_app, !length_le_encode; reflexivity).
    split; [|split];
      [| |rewrite (drop_S _ _ _ He); cbn [firstn entries_in_range]; auto].
    + rewrite Hout. clear Hout Hbound.
      rewrite (drop_S _ _ _ He). cbn [firstn index_entries].
      replace (Z.to_nat (k + 1)) with (S (Z.to_nat k)) by lia.
      rewrite (splice_take _ _ _ o 8 Hpre Hent).
      rewrite (splice_drop _ _ _ o 8 (8 * n) Hpre Hent).
      rewrite drop_drop, <- !app_assoc.
      replace (o + 8 + 8 * n)%nat with (o + 8 * S n)%nat by lia.
      reflexivity.
    + intros _. destruct n as [|n].
      * apply lookup_lt_Some in He. lia.
      * destruct Hbound as [Hb1 Hb2]; [congruence|].
        rewrite !length_app, !length_le_encode, Hpre, length_drop in Hb1.
        lia.
Qed.

Lemma update_index_run cc es (n : nat) :
  0 <= cc ->
  forall (k : Z) buf off,
    0 <= k -> 0 <= off ->
    let o := Z.to_nat ((cc + k) * 8) in
    (o + 8 * n <= length buf)%nat ->
    (Z.to_nat k + n <= length es)%nat ->
    off + len (concat (take n (drop (Z.to_nat k) es))) < 2 ^ 32 ->
    update_index (cc * 8) es (seqZ k (Z.of_nat n)) buf off =
      Ok (take o buf
          ++ index_entries off (take n (drop (Z.to_nat k) es))
          ++ drop (o + 8 * n) buf).
Proof.
  intros Hcc. induction n as [|n IH]; intros k buf off Hk Hoff o Hfit Hes Hsum.
  - change (seqZ k (Z.of_nat 0)) with (@nil Z).
    rewrite take_0. cbn [update_index index_entries app].
    rewrite Nat.mul_0_r, Nat.add_0_r, take_drop. reflexivity.
  - rewrite seqZ_succ, update_index_step by lia. fold o.
    rewrite decide_True by lia.
    destruct (lookup_lt_is_Some_2 es (Z.to_nat k) ltac:(lia)) as [e He].
    rewrite He. rewrite (drop_S _ _ _ He) in Hsum |- *.
    cbn [firstn concat index_entries] in Hsum |- *.
    rewrite len_app in Hsum.
    pose proof (len_nonneg e).
    pose proof (len_nonneg (concat (take n (drop (S (Z.to_nat k)) es)))).
    replace ((0 <=? off) && (off <? 2 ^ 32)) with true
      by (symmetry; apply andb_true_intro; lia).
    replace ((0 <=? len e) && (len e <? 2 ^ 32)) with true
      by (symmetry; apply andb_true_intro; lia).
    assert (Hpre : length (take o buf) = o) by (rewrite length_take; lia).
    assert (Hent : length (le_encode 4 off ++ le_encode 4 (len e)) = 8%nat)
      by (rewrite length_app, !length_le_encode; reflexivity).
    rewrite IH.
    + replace (Z.to_nat ((cc + (k + 1)) * 8)) with (o + 8)%nat by lia.
      replace (Z.to_nat (k + 1)) with (S (Z.to_nat k)) by lia.
      rewrite (splice_take _ _ _ o 8 Hpre Hent).
      rewrite (splice_drop _ _ _ o 8 (8 * n) Hpre Hent).
      rewrite drop_drop, <- !app_assoc.
      replace (o + 8 + 8 * n)%nat with (o + 8 * S n)%nat by lia.
      reflexivity.
    + lia.
    + lia.
    + rewrite !length_app, !length_le_encode, Hpre, length_drop.
      lia.
    + lia.
    + replace (Z.to_nat (k + 1)) with (S (Z.to_nat k)) by lia. lia.
Qed.

(** ** Encoding the strings *)

Lemma encode_string_ok s :
  exists b flag, encode_string s = Ok (b ++ [x00], flag).
Proof.
  unfold encode_string.
  destruct (encode cp932_encode_char Strict s) as [b|e] eqn:Hs; [eauto|].
  apply encode_raises in Hs as [-> _].
  destruct (encode_replace_total cp932_encode_char s) as [b ->].
  cbn. eauto.
Qed.

Lemma length_encode_strings ss es :
  encode_strings ss = Ok es -> length es = length ss.
Proof.
  revert es. induction ss as [|s r IH]; intros es; cbn [encode_strings].
  - intros [= <-]. reflexivity.
  - intros Hes. ok_inv Hes. destruct a as [encoded flag].
    ok_inv Hes. injection Hes as <-. cbn [length]. f_equal. auto.
Qed.

End index_update.

(* ================================================================== *)
(** * Successful runs of [process_scw] *)
(* ================================================================== *)

Section rebuild_runs.
Context `{Runtime}.
Import Writer.

Lemma process_content_regions scw txt :
  process_content (header_fields scw) (content_read scw)
    (command_count scw) (string_count scw) (addon_count scw)
    (command_size scw) (string_size scw) (addon_size scw)
    (text_count scw) txt =
  (p ← parse_txt txt;
   match p with
   | None => Ok ParseFailed
   | Some (header_txt, new_strings) =>
       if bool_decide (header_txt = ∅) || bool_decide (new_strings = [])
       then Ok ParseFailed
       else
         str_count_txt ← declared header_txt STRING_COUNT;
         text_count_txt ← declared header_txt TEXT_COUNT;
         if negb (str_count_txt =? string_count scw)
            || negb (text_count_txt =? text_count scw)
         then Ok CountMismatch
         else
           new_str_list ← encode_strings new_strings;
           new_index ← update_index (command_count scw * 8) new_str_list
                         (seqZ 0 (string_count scw)) (index_region scw) 0;
           packed_header ←
             patched_header scw
               (len (new_index ++ command_region scw ++ concat new_str_list
                     ++ addon_region scw))
               (len (concat new_str_list));
           Ok (Written (packed_header ++ new_index ++ command_region scw
                        ++ concat new_str_list ++ addon_region scw))
   end).
Proof. reflexivity. Qed.

(** Every run that writes a container went through all the checks. *)
Lemma process_scw_written scw txt out :
  process_scw scw txt = Written out -> rebuild scw txt out.
Proof.
  unfold process_scw. intros Hrun.
  destruct (decide (452 <= length scw)%nat) as [Hlen|Hlen].
  2: { rewrite process_scw_try_short in Hrun by exact Hlen. discriminate. }
  rewrite process_scw_try_long in Hrun by exact Hlen.
  destruct (decide (- 1 <= content_length scw)) as [Hcl|Hcl].
  2: { unfold read in Hrun.
       destruct (content_length scw <? -1) eqn:E; [discriminate|lia]. }
  rewrite read_content in Hrun by exact Hcl. cbn [mbind result_bind] in Hrun.
  rewrite process_content_regions in Hrun.
  destruct (parse_txt txt) as [[[header_txt new_strings]|]|e] eqn:Hparse;
    try discriminate.
  cbn [mbind result_bind] in Hrun.
  destruct (bool_decide (header_txt = ∅)) eqn:Hh; [discriminate|].
  destruct (bool_decide (new_strings = [])) eqn:Hs; [discriminate|].
  cbn [orb] in Hrun.
  destruct (declared header_txt STRING_COUNT) as [sc|e] eqn:Hsc;
    [|discriminate].
  destruct (declared header_txt TEXT_COUNT) as [tc|e] eqn:Htc;
    [|discriminate].
  cbn [mbind result_bind] in Hrun.
  destruct (Z.eqb_spec sc (string_count scw)) as [->|]; [|discriminate].
  destruct (Z.eqb_spec tc (text_count scw)) as [->|]; [|discriminate].
  cbn [negb orb] in Hrun.
  destruct (encode_strings new_strings) as [new_str_list|e] eqn:Henc;
    [|discriminate].
  cbn [mbind result_bind] in Hrun.
  destruct (update_index _ _ _ _ _) as [new_index|e] eqn:Hidx;
    [|discriminate].
  cbn [mbind result_bind] in Hrun.
  destruct (patched_header _ _ _) as [packed_header|e] eqn:Hpack;
    [|discriminate].
  cbn [mbind result_bind] in Hrun. injection Hrun as <-.
  apply bool_decide_eq_false in Hh. apply bool_decide_eq_false in Hs.
  exact (Rebuild _ scw txt _ header_txt new_strings new_str_list new_index
           packed_header Hlen Hcl Hparse Hh Hs Hsc Htc Henc Hidx Hpack
           eq_refl).
Qed.

(** And a run with those values writes the container. *)
Lemma rebuild_process_scw scw txt out :
  rebuild scw txt out -> process_scw scw txt = Written out.
Proof.
  intros [header_txt new_strings new_str_list new_index packed_header
            Hlen Hcl Hparse Hh Hs Hsc Htc Henc Hidx Hpack ->].
  unfold process_scw.
  rewrite process_scw_try_long by exact Hlen.
  rewrite read_content by exact Hcl. cbn [mbind result_bind].
  rewrite process_content_regions, Hparse. cbn [mbind result_bind].
  rewrite (bool_decide_eq_false_2 _ Hh), (bool_decide_eq_false_2 _ Hs).
  cbn [orb]. rewrite Hsc, Htc. cbn [mbind result_bind].
  rewrite !Z.eqb_refl. cbn [negb orb].
  rewrite Henc. cbn [mbind result_bind].
  rewrite Hidx. cbn [mbind result_bind].
  rewrite Hpack. reflexivity.
Qed.

End rebuild_runs.

(* ================================================================== *)
(** * Slices of the content area *)
(* ================================================================== *)

Lemma slice_nonneg {A} (l : list A) (a b : Z) :
  0 <= a -> a <= b ->
  slice l a b = take (Z.to_nat (b - a)) (drop (Z.to_nat a) l).
Proof.
  intros Ha Hab. unfold slice, clamp_index.
  destruct (Z.ltb_spec a 0); [lia|]. destruct (Z.ltb_spec b 0); [lia|].
  pose proof (len_nonneg l) as Hn. unfold len in *.
  destruct (decide (a <= Z.of_nat (length l))) as [Hin|Hout].
  - rewrite (Z.min_l a) by lia.
    destruct (decide (b <= Z.of_nat (length l))) as [Hb|Hb].
    + rewrite Z.min_l by lia. reflexivity.
    + rewrite Z.min_r by lia.
      rewrite !take_ge by (rewrite length_drop; lia). reflexivity.
  - rewrite !Z.min_r by lia. rewrite Z.sub_diag. cbn [Z.to_nat take].
    rewrite take_0, (drop_ge l (Z.to_nat a)) by lia.
    rewrite take_nil. reflexivity.
Qed.

Lemma index_update_needs_strings `{Runtime} start es range buf off out :
  Writer.update_index start es range buf off = Ok out ->
  Forall (fun i => is_Some (es !! Z.to_nat i)) range.
Proof.
  revert buf off. induction range as [|i range IH]; intros buf off.
  - constructor.
  - cbn [Writer.update_index]. intros Hrun.
    ok_inv Hrun.
    destruct (es !! Z.to_nat i) as [e|] eqn:He; [|discriminate].
    cbn [mbind result_bind] in Hrun. ok_inv Hrun.
    constructor; [eauto|]. eapply IH. exact Hrun.
Qed.

Lemma resolve_offset_fits buflen size offset off :
  resolve_offset buflen size offset = Ok off -> (off + size <= buflen)%nat.
Proof.
  unfold resolve_offset.
  generalize (if offset <? 0 then offset + Z.of_nat buflen else offset).
  intros o. cbv zeta.
  destruct (Z.ltb_spec o 0); [discriminate|].
  destruct (Z.ltb_spec (Z.of_nat buflen - o) (Z.of_nat size));
    [discriminate|].
  intros [= <-]. lia.
Qed.

(** The index table keeps its length, wherever the entries are written. *)
Lemma update_index_length `{Runtime} start es range buf off out :
  Writer.update_index start es range buf off = Ok out ->
  length out = length buf.
Proof.
  revert buf off. induction range as [|i range IH]; intros buf off.
  - cbn. intros [= <-]. reflexivity.
  - cbn [Writer.update_index]. intros Hrun.
    ok_inv Hrun. ok_inv Hrun. ok_inv Hrun.
    apply IH in Hrun. rewrite Hrun.
    unfold pack_into in Ha1. ok_inv Ha1. ok_inv Ha1. injection Ha1 as <-.
    apply resolve_offset_fits in Ha2. apply length_pack in Ha3.
    rewrite !length_app, length_take, length_drop, Ha3.
    cbn [calcsize item_size] in *. lia.
Qed.

(* ================================================================== *)
(** * The layout of a rebuilt container *)
(* ================================================================== *)

Lemma length_index_entries off es :
  length (index_entries off es) = (8 * length es)%nat.
Proof.
  revert off. induction es as [|e r IH]; intros off; [reflexivity|].
  cbn [index_entries length].
  rewrite !length_app, !length_le_encode, IH. lia.
Qed.

Lemma index_entries_at off es (j : nat) e :
  es !! j = Some e ->
  take 8 (drop (8 * j) (index_entries off es)) =
    le_encode 4 (off + len (concat (take j es))) ++ le_encode 4 (len e).
Proof.
  revert off j. induction es as [|e1 r IH]; intros off j; [discriminate|].
  assert (Hent : length (le_encode 4 off ++ le_encode 4 (len e1)) = 8%nat)
    by (rewrite length_app, !length_le_encode; reflexivity).
  cbn [index_entries]. rewrite app_assoc.
  destruct j as [|j]; cbn [lookup list_lookup].
  - intros [= ->]. rewrite Nat.mul_0_r, drop_0.
    rewrite take_app_length' by (symmetry; exact Hent).
    rewrite take_0, Z.add_0_r. reflexivity.
  - intros Hj. replace (8 * S j)%nat with (8 + 8 * j)%nat by lia.
    rewrite drop_app_add' by (symmetry; exact Hent).
    rewrite (IH _ _ Hj). cbn [firstn concat]. rewrite len_app.
    do 2 f_equal. lia.
Qed.

Lemma entries_in_range_at off es (j : nat) e :
  entries_in_range off es -> es !! j = Some e ->
  0 <= off + len (concat (take j es)) < 2 ^ 32 /\ 0 <= len e < 2 ^ 32.
Proof.
  revert off j. induction es as [|e1 r IH]; intros off j; [discriminate|].
  cbn [entries_in_range]. intros (Hoff & He1 & Hr).
  destruct j as [|j]; cbn [lookup list_lookup].
  - intros [= ->]. rewrite take_0.
    change (len (concat [])) with 0.
    pose proof (len_nonneg e). lia.
  - intros Hj. destruct (IH _ _ Hr Hj) as [H1 H2].
    cbn [firstn concat]. rewrite len_app. lia.
Qed.

(** Octets at a position inside the middle of three parts. *)
Lemma take_drop_middle_part {A} (pre mid suf : list A) (j m : nat) :
  (j + m <= length mid)%nat ->
  take m (drop (length pre + j) (pre ++ mid ++ suf)) = take m (drop j mid).
Proof.
  intros Hfit. rewrite drop_app_add, drop_app_le by lia.
  rewrite take_app_le by (rewrite length_drop; lia). reflexivity.
Qed.

(** The header written by a rebuild, from its five parts. *)
Lemma five_parts {A} (p1 a p2 b p3 rest : list A) :
  length p1 = 24%nat -> length a = 4%nat -> length p2 = 24%nat ->
  length b = 4%nat -> length p3 = 396%nat ->
  let out := (p1 ++ a ++ p2 ++ b ++ p3) ++ rest in
  take 24 out = p1
  /\ take 24 (drop 28 out) = p2
  /\ take 396 (drop 56 out) = p3
  /\ take 4 (drop 24 out) = a
  /\ take 4 (drop 52 out) = b
  /\ take 452 out = p1 ++ a ++ p2 ++ b ++ p3
  /\ drop 452 out = rest.
Proof.
  intros H1 Ha H2 Hb H3 out. subst out.
  rewrite <- !app_assoc.
  split; [|split; [|split; [|split; [|split; [|split]]]]].
  - rewrite take_app_length' by (symmetry; exact H1). reflexivity.
  - change 28%nat with (24 + 4)%nat.
    rewrite drop_app_add' by (symmetry; exact H1).
    rewrite drop_app_length' by (symmetry; exact Ha).
    rewrite take_app_length' by (symmetry; exact H2). reflexivity.
  - change 56%nat with (24 + (4 + (24 + 4)))%nat.
    rewrite drop_app_add' by (symmetry; exact H1).
    rewrite drop_app_add' by (symmetry; exact Ha).
    rewrite drop_app_add' by (symmetry; exact H2).
    rewrite drop_app_length' by (symmetry; exact Hb).
    rewrite take_app_length' by (symmetry; exact H3). reflexivity.
  - rewrite drop_app_length' by (symmetry; exact H1).
    rewrite take_app_length' by (symmetry; exact Ha). reflexivity.
  - change 52%nat with (24 + (4 + 24))%nat.
    rewrite drop_app_add' by (symmetry; exact H1).
    rewrite drop_app_add' by (symmetry; exact Ha).
    rewrite drop_app_length' by (symmetry; exact H2).
    rewrite take_app_length' by (symmetry; exact Hb). reflexivity.
  - rewrite !app_assoc. rewrite <- (app_assoc _ b).
    rewrite <- !app_assoc. rewrite !app_assoc.
    apply take_app_length'.
    rewrite !length_app, H1, H2, H3, Ha, Hb. reflexivity.
  - rewrite !app_assoc. apply drop_app_length'.
    rewrite !length_app, H1, H2, H3, Ha, Hb. reflexivity.
Qed.

Lemma header_parts (scw out a4 b4 rest : bytes) :
  (452 <= length scw)%nat ->
  length a4 = 4%nat -> length b4 = 4%nat ->
  out = (take 24 scw ++ a4 ++ take 24 (drop 28 scw) ++ b4
         ++ take 396 (drop 56 scw)) ++ rest ->
  same_header_frame scw out
  /\ take 4 (drop 24 out) = a4
  /\ take 4 (drop 52 out) = b4
  /\ take 452 out = take 24 scw ++ a4 ++ take 24 (drop 28 scw) ++ b4
                    ++ take 396 (drop 56 scw)
  /\ drop 452 out = rest.
Proof.
  intros Hlen Ha Hb ->.
  assert (H1 : length (take 24 scw) = 24%nat) by (rewrite length_take; lia).
  assert (H2 : length (take 24 (drop 28 scw)) = 24%nat)
    by (rewrite length_take, length_drop; lia).
  assert (H3 : length (take 396 (drop 56 scw)) = 396%nat)
    by (rewrite length_take, length_drop; lia).
  destruct (five_parts _ _ _ _ _ rest H1 Ha H2 Hb H3)
    as (F1 & F2 & F3 & F4 & F5 & F6 & F7).
  unfold same_header_frame. auto 10.
Qed.

(** Header fields outside the two patched ones read the same. *)
Lemma frame_int_at (scw out : bytes) (off : nat) :
  same_header_frame scw out ->
  (off + 4 <= 24 \/ 28 <= off /\ off + 4 <= 52
   \/ 56 <= off /\ off + 4 <= 452)%nat ->
  take 4 (drop off out) = take 4 (drop off scw).
Proof.
  intros (H1 & H2 & H3) [Hoff|[[Hlo Hhi]|[Hlo Hhi]]].
  - rewrite <- (take_drop_prefix out off 4 24) by lia.
    rewrite <- (take_drop_prefix scw off 4 24) by lia.
    rewrite H1. reflexivity.
  - replace off with (28 + (off - 28))%nat by lia.
    rewrite <- !drop_drop.
    rewrite <- (take_drop_prefix (drop 28 out) (off - 28) 4 24) by lia.
    rewrite <- (take_drop_prefix (drop 28 scw) (off - 28) 4 24) by lia.
    rewrite H2. reflexivity.
  - replace off with (56 + (off - 56))%nat by lia.
    rewrite <- !drop_drop.
    rewrite <- (take_drop_prefix (drop 56 out) (off - 56) 4 396) by lia.
    rewrite <- (take_drop_prefix (drop 56 scw) (off - 56) 4 396) by lia.
    rewrite H3. reflexivity.
Qed.

Lemma index_entry_fields off es (j : nat) e :
  es !! j = Some e -> entries_in_range off es ->
  le_decode (take 4 (drop (8 * j) (index_entries off es)))
    = off + len (concat (take j es))
  /\ le_decode (take 4 (drop (8 * j + 4) (index_entries off es))) = len e.
Proof.
  intros Hj Hrange.
  pose proof (index_entries_at off es j e Hj) as Hat.
  destruct (entries_in_range_at off es j e Hrange Hj) as [Ho He].
  split.
  - replace (take 4 (drop (8 * j) (index_entries off es)))
      with (take 4 (take 8 (drop (8 * j) (index_entries off es))))
      by (rewrite take_take; reflexivity).
    rewrite Hat, take_app_length' by (rewrite length_le_encode; reflexivity).
    apply le_decode_encode_u32. exact Ho.
  - replace (take 4 (drop (8 * j + 4) (index_entries off es)))
      with (take 4 (drop 4 (take 8 (drop (8 * j) (index_entries off es))))).
    + rewrite Hat, drop_app_length' by (rewrite length_le_encode; reflexivity).
      rewrite firstn_all2 by (rewrite length_le_encode; lia).
      apply le_decode_encode_u32. exact He.
    + rewrite (skipn_firstn_comm 4 8), take_take, drop_drop. reflexivity.
Qed.

Section layout.
Context `{Runtime}.
Import Writer.

Lemma encoded_shape s :
  exists b,
    encoded s = b ++ [x00]
    /\ (encode cp932_encode_char Strict s = Ok b
        \/ encode cp932_encode_char Replace s = Ok b).
Proof.
  unfold encoded, encode_string.
  destruct (encode cp932_encode_char Strict s) as [b|e] eqn:Hs; [eauto|].
  apply encode_raises in Hs as [-> _].
  destruct (encode_replace_total cp932_encode_char s) as [b Hb].
  rewrite Hb. cbn. eauto.
Qed.

Lemma encode_strings_eq ss : encode_strings ss = Ok (map encoded ss).
Proof.
  induction ss as [|s r IH]; [reflexivity|].
  cbn [encode_strings map]. rewrite IH. unfold encoded.
  destruct (encode_string_ok s) as (b & flag & ->). reflexivity.
Qed.

(** The values of a run that writes [out], in closed form. *)
Lemma rebuild_closed scw txt out :
  process_scw scw txt = Written out ->
  0 <= command_count scw ->
  exists header_txt new_strings new_index,
    let es := map encoded new_strings in
    let n := Z.to_nat (string_count scw) in
    let o := Z.to_nat (command_count scw * 8) in
    let new_content :=
      new_index ++ command_region scw ++ concat es ++ addon_region scw in
    parse_txt txt = Ok (Some (header_txt, new_strings))
    /\ (452 <= length scw)%nat
    /\ new_index = take o (index_region scw)
                   ++ index_entries 0 (take n es)
                   ++ drop (o + 8 * n) (index_region scw)
    /\ (n <> 0%nat ->
        (o + 8 * n <= length (index_region scw))%nat
        /\ (n <= length es)%nat)
    /\ entries_in_range 0 (take n es)
    /\ - 2 ^ 31 <= len new_content < 2 ^ 31
    /\ out = (take 24 scw ++ le_encode 4 (len new_content)
              ++ take 24 (drop 28 scw) ++ le_encode 4 (len (concat es))
              ++ take 396 (drop 56 scw)) ++ new_content.
Proof.
  intros Hrun Hcc. apply process_scw_written in Hrun.
  destruct Hrun as [header_txt new_strings new_str_list new_index
    packed_header Hlen _ Hparse _ _ _ _ Henc Hidx Hpack ->].
  rewrite encode_strings_eq in Henc. injection Henc as <-.
  exists header_txt, new_strings, new_index. cbv zeta.
  replace (seqZ 0 (string_count scw))
    with (seqZ 0 (Z.of_nat (Z.to_nat (string_count scw)))) in Hidx
    by (unfold seqZ; rewrite Nat2Z.id; reflexivity).
  apply update_index_inv in Hidx; [|exact Hcc|lia].
  cbv zeta in Hidx. rewrite Z.add_0_r in Hidx.
  change (Z.to_nat 0) with 0%nat in Hidx. rewrite drop_0 in Hidx.
  destruct Hidx as (Hnew & Hbound & Hrange).
  destruct (patched_header_inv _ _ _ _ Hpack) as [Ha Hb].
  rewrite patched_header_ok in Hpack by assumption.
  injection Hpack as <-.
  repeat split; try assumption; try lia; try (apply Hbound; assumption).
Qed.

(** The string-group entries of a container laid out as a rebuild lays
    it out. *)
Lemma closed_entries scw out (es : list bytes) (a4 b4 rest : bytes) :
  let n := Z.to_nat (string_count scw) in
  let o := Z.to_nat (command_count scw * 8) in
  (452 <= length scw)%nat -> 0 <= command_count scw ->
  length a4 = 4%nat -> length b4 = 4%nat ->
  (o + 8 * n <= length (index_region scw))%nat ->
  (n <= length es)%nat ->
  entries_in_range 0 (take n es) ->
  out = (take 24 scw ++ a4 ++ take 24 (drop 28 scw) ++ b4
         ++ take 396 (drop 56 scw))
        ++ (take o (index_region scw) ++ index_entries 0 (take n es)
            ++ drop (o + 8 * n) (index_region scw)) ++ rest ->
  forall (i : nat) (e : bytes),
    (i < n)%nat -> es !! i = Some e ->
    entry_start out (Z.of_nat i) = len (concat (take i es))
    /\ entry_length out (Z.of_nat i) = len e.
Proof.
  intros n o Hlen Hcc Ha Hb Hfit Hes Hrange Hout i e Hi He.
  destruct (header_parts scw out a4 b4 _ Hlen Ha Hb Hout)
    as (Hframe & _ & _ & Hhead & Hrest).
  assert (Hpre : length (take o (index_region scw)) = o)
    by (rewrite length_take; lia).
  assert (Hcc' : command_count out = command_count scw).
  { unfold command_count, int_at. change (Z.to_nat 0x24) with 36%nat.
    rewrite (frame_int_at scw out 36 Hframe) by lia. reflexivity. }
  assert (Hlook : take n es !! i = Some e)
    by (rewrite lookup_take_lt by lia; exact He).
  destruct (index_entry_fields 0 (take n es) i e Hlook Hrange)
    as [Hstart Hlength].
  rewrite take_take in Hstart. replace (i `min` n)%nat with i in Hstart by lia.
  rewrite Z.add_0_l in Hstart.
  assert (Hsplit : out = (take 452 out ++ take o (index_region scw))
                         ++ index_entries 0 (take n es)
                         ++ (drop (o + 8 * n) (index_region scw) ++ rest)).
  { rewrite <- (take_drop 452 out) at 1. rewrite Hrest.
    rewrite <- !app_assoc. reflexivity. }
  assert (Hprelen : length (take 452 out ++ take o (index_region scw))
                    = (452 + o)%nat).
  { rewrite length_app, Hpre, Hhead.
    rewrite !length_app, !length_take, !length_drop, Ha, Hb. lia. }
  assert (Hent : length (index_entries 0 (take n es)) = (8 * n)%nat)
    by (rewrite length_index_entries, length_take; lia).
  unfold entry_start, entry_length, uint_at, string_entry_offset,
    header_length.
  rewrite Hcc'.
  replace (Z.to_nat (452 + (command_count scw + Z.of_nat i) * 8))
    with (452 + o + 8 * i)%nat by lia.
  remember (take 452 out ++ take o (index_region scw)) as pre eqn:Epre.
  clear Epre. rewrite Hsplit.
  replace (452 + o + 8 * i)%nat with (length pre + 8 * i)%nat by lia.
  replace (length pre + 8 * i + 4)%nat with (length pre + (8 * i + 4))%nat
    by lia.
  rewrite !take_drop_middle_part by lia.
  rewrite Hstart, Hlength. auto.
Qed.

End layout.

(* ================================================================== *)
(** * The text document, written and read back *)
(* ================================================================== *)

(** ** Lines *)

Lemma text_of_lines_cons l ls :
  text_of_lines (l :: ls) = l ++ NL ++ text_of_lines ls.
Proof. unfold text_of_lines. cbn. rewrite <- app_assoc. reflexivity. Qed.

Lemma text_of_lines_app ls ks :
  text_of_lines (ls ++ ks) = text_of_lines ls ++ text_of_lines ks.
Proof. unfold text_of_lines. rewrite map_app, concat_app. reflexivity. Qed.

Lemma split_nl_text s : text_of_lines (split_nl s) = s ++ NL.
Proof.
  induction s as [|c r IH]; [reflexivity|].
  cbn [split_nl]. destruct (Z.eqb_spec c 10) as [->|Hc].
  - rewrite text_of_lines_cons, IH. reflexivity.
  - destruct (split_nl r) as [|l ls].
    + destruct r; discriminate.
    + rewrite text_of_lines_cons in *. cbn [app]. rewrite IH. reflexivity.
Qed.

Lemma split_nl_single_line s :
  Forall (fun l => Forall (fun c => c <> 10) l) (split_nl s).
Proof.
  induction s as [|c r IH]; cbn [split_nl].
  - repeat constructor.
  - destruct (Z.eqb_spec c 10) as [->|Hc];
      [constructor; [constructor|exact IH]|].
    destruct (split_nl r) as [|l ls]; [repeat constructor; exact Hc|].
    inversion IH; subst. constructor; [constructor; assumption|assumption].
Qed.

Lemma readlines_go_line cur l rest :
  single_line l = true ->
  readlines_go cur (l ++ NL ++ rest) =
    (rev cur ++ l ++ NL) :: readlines_go [] rest.
Proof.
  revert cur. induction l as [|c r IH]; intros cur Hl.
  - reflexivity.
  - cbn [single_line forallb] in Hl.
    apply andb_prop in Hl as [Hc Hr]. apply andb_prop in Hc as [Hc1 Hc2].
    cbn [app readlines_go].
    apply negb_true_iff in Hc1. apply negb_true_iff in Hc2.
    rewrite Hc1, Hc2. rewrite (IH (c :: cur) Hr).
    cbn [rev]. rewrite <- app_assoc. reflexivity.
Qed.

Lemma readlines_text_of_lines ls :
  Forall (fun l => single_line l = true) ls ->
  readlines (text_of_lines ls) = map (fun l => l ++ NL) ls.
Proof.
  unfold readlines. induction 1 as [|l ls Hl _ IH]; [reflexivity|].
  rewrite text_of_lines_cons, readlines_go_line by exact Hl.
  cbn [map rev app]. rewrite IH. reflexivity.
Qed.

(** ** Stripping *)

Lemma rstrip_app p q :
  rstrip (p ++ q) =
    match rstrip q with
    | [] => rstrip p
    | _ => p ++ rstrip q
    end.
Proof.
  induction p as [|c p IH]; cbn [app].
  - destruct (rstrip q); reflexivity.
  - rewrite !rstrip_cons, IH. destruct (rstrip q) as [|x y]; [reflexivity|].
    destruct (p ++ x :: y) eqn:E; [destruct p; discriminate|reflexivity].
Qed.

Lemma rstrip_nospace s :
  Forall (fun c => isspace c = false) s -> rstrip s = s.
Proof.
  induction 1 as [|c r Hc _ IH]; [reflexivity|].
  rewrite rstrip_cons, IH, Hc. destruct r; reflexivity.
Qed.

Lemma strip_nospace s :
  Forall (fun c => isspace c = false) s -> strip s = s.
Proof.
  intros Hs. unfold strip. rewrite rstrip_nospace by exact Hs.
  destruct Hs as [|c r Hc _]; [reflexivity|]. cbn. rewrite Hc. reflexivity.
Qed.

Lemma strip_line l : strip (l ++ NL) = strip l.
Proof.
  unfold strip. rewrite rstrip_app. change (rstrip NL) with (@nil Z).
  reflexivity.
Qed.

(** A non-space head and a stripped tail. *)
Lemma strip_head c p q :
  isspace c = false ->
  strip (c :: p ++ q) = c :: rstrip (p ++ q).
Proof.
  intros Hc. unfold strip. rewrite rstrip_cons, Hc.
  destruct (rstrip (p ++ q)); cbn [lstrip]; rewrite Hc; reflexivity.
Qed.

Lemma digits_nospace u : Forall (fun c => isspace c = false) (digits u).
Proof. induction u; cbn [digits]; constructor; auto. Qed.

Lemma str_int_nospace n : Forall (fun c => isspace c = false) (str_int n).
Proof.
  unfold str_int. destruct (Z.to_int n); [|constructor; [reflexivity|]];
    apply digits_nospace.
Qed.

Lemma digits_single_line u : single_line (digits u) = true.
Proof. induction u; cbn; auto. Qed.

Lemma str_int_single_line n : single_line (str_int n) = true.
Proof.
  unfold str_int. destruct (Z.to_int n); cbn; apply digits_single_line.
Qed.

Lemma digits_plain u :
  Forall (fun c => c <> 61 /\ c <> 93) (digits u).
Proof. induction u; cbn [digits]; constructor; auto; lia. Qed.

Lemma str_int_plain n : Forall (fun c => c <> 61 /\ c <> 93) (str_int n).
Proof.
  unfold str_int. destruct (Z.to_int n); [|constructor; [lia|]];
    apply digits_plain.
Qed.

Lemma single_line_app a b :
  single_line (a ++ b) = single_line a && single_line b.
Proof. unfold single_line. apply forallb_app. Qed.

(** ** Splitting at a character *)

Lemma split_once_app x a b :
  Forall (fun c => c <> x) a ->
  split_once x (a ++ x :: b) = Some (a, b).
Proof.
  induction 1 as [|c a Hc _ IH]; cbn [app split_once].
  - rewrite Z.eqb_refl. reflexivity.
  - apply Z.eqb_neq in Hc. rewrite Hc, IH. reflexivity.
Qed.

Lemma rstrip_char_app x a :
  Forall (fun c => c <> x) a -> rstrip_char x (a ++ [x]) = a.
Proof.
  induction 1 as [|c a Hc Ha IH].
  - cbn. rewrite Z.eqb_refl. reflexivity.
  - unfold rstrip_char in *. cbn [app foldr]. rewrite IH.
    apply Z.eqb_neq in Hc. rewrite Hc. destruct a; reflexivity.
Qed.

Lemma strip_rstrip s : strip (rstrip s) = strip s.
Proof. unfold strip. rewrite rstrip_idem. reflexivity. Qed.

Lemma strip_cons_space c s : isspace c = true -> strip (c :: s) = strip s.
Proof.
  intros Hc. unfold strip. rewrite rstrip_cons, Hc.
  destruct (rstrip s); [reflexivity|]. cbn [lstrip]. rewrite Hc. reflexivity.
Qed.

(** ** The loop body on the lines of a written document *)

Section written_lines.
Context `{Runtime}.
Import Writer.

Lemma parse_line_blank st : parse_line st ([] ++ NL) = Ok (Next st).
Proof. reflexivity. Qed.

(** A [KEY = value] line of the header block. *)
Lemma parse_line_assign st (k0 : Z) (krest v : str) :
  isspace k0 = false -> k0 <> 91 ->
  Forall (fun c => c <> 61) (k0 :: krest) ->
  current_section st = Some header_section ->
  parse_line st ((k0 :: krest) ++ str_of " = " ++ v ++ NL) =
    Ok (Next (Locals (strings st)
                (<[strip ((k0 :: krest) ++ [32]) := strip v]> (header st))
                (current_index st) (current_section st))).
Proof.
  intros Hk0 Hopen Hkey Hsec. unfold parse_line.
  replace (strip ((k0 :: krest) ++ str_of " = " ++ v ++ NL))
    with (((k0 :: krest) ++ [32]) ++ 61 :: rstrip (32 :: v)).
  - cbn [app]. cbn [startswith BRACKET].
    replace (91 =? k0) with false by (symmetry; apply Z.eqb_neq; lia).
    cbn [andb]. rewrite Hsec.
    change (k0 :: (krest ++ [32]) ++ 61 :: rstrip (32 :: v))
      with (((k0 :: krest) ++ [32]) ++ 61 :: rstrip (32 :: v)).
    rewrite split_once_app.
    2: { apply Forall_app. split; [exact Hkey|]. repeat constructor. lia. }
    rewrite strip_rstrip, strip_cons_space by reflexivity. reflexivity.
  - symmetry.
    replace ((k0 :: krest) ++ str_of " = " ++ v ++ NL)
      with ((k0 :: (krest ++ [32; 61]) ++ (32 :: v)) ++ NL)
      by (cbn; rewrite <- !app_assoc; reflexivity).
    rewrite strip_line, strip_head by exact Hk0.
    rewrite rstrip_app.
    assert (Hp : rstrip (krest ++ [32; 61]) = krest ++ [32; 61])
      by (rewrite rstrip_app; reflexivity).
    destruct (rstrip (32 :: v)) as [|x y].
    + rewrite Hp. cbn. rewrite <- !app_assoc. reflexivity.
    + cbn. rewrite <- !app_assoc. reflexivity.
Qed.

(** The [[Index=N]] line the extractor writes. *)
Lemma parse_line_index_written st (idx : Z) :
  int (str_int idx) = Ok idx ->
  idx = len (strings st) + 1 ->
  parse_line st ((str_of "[Index=" ++ str_int idx ++ str_of "]") ++ NL) =
    Ok (Next (Locals (strings st ++ [[]]) (header st) (Some idx)
                (Some index_section))).
Proof.
  intros Hint Hidx.
  assert (Hstrip : strip ((str_of "[Index=" ++ str_int idx ++ str_of "]")
                          ++ NL)
                   = INDEX_TAG ++ str_int idx ++ [93]).
  { rewrite strip_line. apply strip_nospace.
    apply Forall_app. split; [repeat constructor|].
    apply Forall_app. split; [apply str_int_nospace|repeat constructor]. }
  rewrite (parse_line_index st _ (str_of "[Index") (str_int idx ++ [93]) idx).
  - rewrite Hidx, Z.eqb_refl. reflexivity.
  - rewrite Hstrip. apply startswith_app.
  - rewrite Hstrip.
    apply (split_once_app 61 (str_of "[Index") (str_int idx ++ [93])).
    cbv [str_of]. cbn. repeat (constructor; [lia|]). constructor.
  - rewrite rstrip_char_app; [exact Hint|].
    eapply Forall_impl; [apply str_int_plain|]. cbn. tauto.
Qed.

(** A clean line inside the section of the last string. *)
Lemma parse_line_content (done : list str) (old : str) (h : gmap str str)
    (idx : Z) (l : str) :
  clean_line l = true ->
  idx = len done + 1 ->
  parse_line (Locals (done ++ [old]) h (Some idx) (Some index_section))
    (l ++ NL) =
    Ok (Next (Locals (done ++ [match old with
                               | [] => l
                               | _ => old ++ NL ++ l
                               end])
                h (Some idx) (Some index_section))).
Proof.
  intros Hclean Hidx. unfold clean_line in Hclean.
  apply andb_prop in Hclean as [Hclean _].
  apply andb_prop in Hclean as [Hclean Hopen].
  apply andb_prop in Hclean as [Hne Hstrip].
  apply negb_true_iff, bool_decide_eq_false in Hne.
  apply bool_decide_eq_true in Hstrip. apply negb_true_iff in Hopen.
  unfold parse_line. rewrite strip_line, Hstrip.
  destruct l as [|c r]; [congruence|].
  rewrite Hopen. cbn [current_section current_index strings header].
  pose proof (len_nonneg done).
  rewrite len_app. change (len [old]) with 1.
  replace ((1 <=? idx) && (idx <=? len done + 1)) with true
    by (symmetry; apply andb_true_intro; lia).
  replace (Z.to_nat (idx - 1)) with (length done + 0)%nat
    by (unfold len in *; lia).
  rewrite lookup_app_r, Nat.add_comm, Nat.add_sub by lia.
  cbn [lookup list_lookup].
  replace (<[(0 + length done)%nat := c :: r]> (done ++ [old]))
    with (done ++ [c :: r])
    by (symmetry; rewrite Nat.add_0_l, insert_app_r_alt, Nat.sub_diag by lia;
        reflexivity).
  replace (<[(0 + length done)%nat := old ++ NL ++ c :: r]> (done ++ [old]))
    with (done ++ [old ++ NL ++ c :: r])
    by (symmetry; rewrite Nat.add_0_l, insert_app_r_alt, Nat.sub_diag by lia;
        reflexivity).
  destruct old; reflexivity.
Qed.

End written_lines.

(** ** Sections and documents *)

Lemma accumulate_text old l ls :
  Forall (fun x => x <> []) (l :: ls) ->
  accumulate old (l :: ls) ++ NL =
    match old with [] => [] | _ => old ++ NL end ++ text_of_lines (l :: ls).
Proof.
  revert old l. induction ls as [|l' ls IH]; intros old l Hne.
  - cbn [accumulate fold_left]. rewrite text_of_lines_cons.
    destruct old; cbn; rewrite <- ?app_assoc; reflexivity.
  - inversion Hne as [|? ? Hl Hrest]; subst.
    change (accumulate old (l :: l' :: ls))
      with (accumulate (match old with [] => l | _ => old ++ NL ++ l end)
              (l' :: ls)).
    rewrite (IH _ _ Hrest), (text_of_lines_cons l).
    destruct old as [|c r].
    + destruct l; [congruence|]. cbn. rewrite <- !app_assoc. reflexivity.
    + cbn. rewrite <- !app_assoc. reflexivity.
Qed.

Lemma forallb_Forall {A} (f : A -> bool) (l : list A) :
  forallb f l = true -> Forall (fun x => f x = true) l.
Proof.
  induction l as [|x l IH]; cbn [forallb]; [constructor|].
  intros [Hx Hl]%andb_prop. constructor; auto.
Qed.

Lemma clean_line_nonempty l : clean_line l = true -> l <> [].
Proof.
  unfold clean_line. intros Hl.
  repeat (apply andb_prop in Hl as [Hl _]).
  apply negb_true_iff, bool_decide_eq_false in Hl. exact Hl.
Qed.

Lemma clean_line_single l : clean_line l = true -> single_line l = true.
Proof.
  unfold clean_line. intros Hl. apply andb_prop in Hl as [_ Hl]. exact Hl.
Qed.

Lemma split_nl_cons s : exists l ls, split_nl s = l :: ls.
Proof.
  destruct s as [|c r]; cbn [split_nl]; [eauto|].
  destruct (c =? 10); [eauto|]. destruct (split_nl r); eauto.
Qed.

(** The accumulation rule gives back a string made of clean lines. *)
Lemma accumulate_split s :
  forallb clean_line (split_nl s) = true -> accumulate [] (split_nl s) = s.
Proof.
  intros Hclean. apply forallb_Forall in Hclean.
  destruct (split_nl_cons s) as (l & ls & Hs).
  apply (app_inv_tail NL). rewrite <- (split_nl_text s), Hs.
  rewrite accumulate_text; [reflexivity|].
  rewrite <- Hs. eapply Forall_impl; [exact Hclean|].
  intros x Hx. apply clean_line_nonempty, Hx.
Qed.

Lemma section_lines_cons idx s r :
  section_lines idx (s :: r) =
    ((str_of "[Index=" ++ str_int idx ++ str_of "]") :: split_nl s ++ [[]])
    ++ section_lines (idx + 1) r.
Proof.
  cbn [section_lines app]. f_equal.
  apply (app_assoc (split_nl s) [[]]).
Qed.

Section written_document.
Context `{Runtime}.
Import Writer.

Lemma locals_after_app pre post st st' :
  locals_after pre st = Some st' ->
  locals_after (pre ++ post) st = locals_after post st'.
Proof.
  revert st. induction pre as [|raw pre IH]; intros st; cbn.
  - intros [= ->]. reflexivity.
  - destruct (parse_line st raw) as [[st1|]|e]; try discriminate. auto.
Qed.

Lemma locals_after_content (done : list str) (old : str) (h : gmap str str)
    (idx : Z) (ls : list str) :
  Forall (fun l => clean_line l = true) ls ->
  idx = len done + 1 ->
  locals_after (map (fun l => l ++ NL) ls)
    (Locals (done ++ [old]) h (Some idx) (Some index_section)) =
    Some (Locals (done ++ [accumulate old ls]) h (Some idx)
            (Some index_section)).
Proof.
  intros Hls Hidx. revert old.
  induction Hls as [|l ls Hl _ IH]; intros old; [reflexivity|].
  cbn [map locals_after].
  rewrite parse_line_content by assumption. apply IH.
Qed.

(** The section of one string. *)
Lemma locals_after_section st (idx : Z) (s : str) :
  document_safe s = true ->
  int (str_int idx) = Ok idx ->
  idx = len (strings st) + 1 ->
  locals_after
    (map (fun l => l ++ NL)
       ((str_of "[Index=" ++ str_int idx ++ str_of "]")
        :: split_nl s ++ [[]])) st =
    Some (Locals (strings st ++ [s]) (header st) (Some idx)
            (Some index_section)).
Proof.
  intros Hsafe Hint Hidx. cbn [map locals_after].
  rewrite parse_line_index_written by assumption.
  rewrite map_app. unfold document_safe in Hsafe.
  destruct (decide (s = [])) as [->|Hs].
  - reflexivity.
  - rewrite bool_decide_eq_false_2 in Hsafe by exact Hs. cbn [orb] in Hsafe.
    erewrite locals_after_app.
    2: { apply locals_after_content; [|exact Hidx].
         apply forallb_Forall, Hsafe. }
    rewrite accumulate_split by exact Hsafe. reflexivity.
Qed.

(** The sections of all strings, numbered from [idx]. *)
Lemma locals_after_sections (ss : list str) :
  forall st (idx : Z),
    Forall (fun s => document_safe s = true) ss ->
    (forall i, idx <= i < idx + len ss -> int (str_int i) = Ok i) ->
    idx = len (strings st) + 1 ->
    exists ci sec,
      locals_after (map (fun l => l ++ NL) (section_lines idx ss)) st =
        Some (Locals (strings st ++ ss) (header st) ci sec).
Proof.
  induction ss as [|s r IH]; intros st idx Hsafe Hint Hidx.
  - exists (current_index st), (current_section st). cbn.
    rewrite app_nil_r. destruct st; reflexivity.
  - inversion Hsafe as [|? ? Hs Hr]; subst.
    pose proof (len_nonneg r) as Hlen.
    assert (Hlen' : len (s :: r) = 1 + len r) by (unfold len; cbn; lia).
    rewrite section_lines_cons, map_app.
    erewrite locals_after_app.
    2: { apply (locals_after_section st _ s Hs); [|reflexivity].
         apply Hint. lia. }
    edestruct (IH (Locals (strings st ++ [s]) (header st)
                     (Some (len (strings st) + 1)) (Some index_section))
                 (len (strings st) + 1 + 1) Hr) as (ci & sec & Hrest).
    + intros i Hi. apply Hint. lia.
    + cbn [strings]. rewrite len_app. reflexivity.
    + exists ci, sec. rewrite Hrest. cbn [strings header].
      rewrite <- app_assoc. reflexivity.
Qed.

End written_document.

Lemma sections_text idx ss :
  Extractor.sections idx ss = text_of_lines (section_lines idx ss).
Proof.
  revert idx. induction ss as [|s r IH]; intros idx; [reflexivity|].
  rewrite section_lines_cons, text_of_lines_app, text_of_lines_cons,
    text_of_lines_app, split_nl_text.
  cbn [Extractor.sections]. rewrite IH.
  change (text_of_lines [[]]) with NL.
  rewrite <- !app_assoc. reflexivity.
Qed.

Lemma document_text sc tc desc ss :
  Extractor.document sc tc desc ss =
    text_of_lines (document_lines sc tc desc ss).
Proof.
  unfold Extractor.document, document_lines.
  rewrite text_of_lines_app, <- sections_text.
  rewrite !text_of_lines_cons. change (text_of_lines []) with (@nil Z).
  rewrite <- !app_assoc. reflexivity.
Qed.

Lemma document_safe_lines s :
  document_safe s = true ->
  Forall (fun l => single_line l = true) (split_nl s).
Proof.
  unfold document_safe. destruct (decide (s = [])) as [->|Hs].
  - intros _. repeat constructor.
  - rewrite bool_decide_eq_false_2 by exact Hs. cbn [orb].
    intros Hclean%forallb_Forall.
    eapply Forall_impl; [exact Hclean|]. apply clean_line_single.
Qed.

Lemma section_lines_single idx ss :
  Forall (fun s => document_safe s = true) ss ->
  Forall (fun l => single_line l = true) (section_lines idx ss).
Proof.
  intros Hss. revert idx. induction Hss as [|s r Hs _ IH]; intros idx.
  - constructor.
  - rewrite section_lines_cons. apply Forall_app. split; [|apply IH].
    constructor.
    + rewrite !single_line_app, str_int_single_line. reflexivity.
    + apply Forall_app. split; [apply document_safe_lines, Hs|].
      repeat constructor.
Qed.

Lemma document_lines_single sc tc desc ss :
  single_line desc = true ->
  Forall (fun s => document_safe s = true) ss ->
  Forall (fun l => single_line l = true) (document_lines sc tc desc ss).
Proof.
  intros Hdesc Hss. unfold document_lines. apply Forall_app. split.
  - repeat constructor;
      rewrite ?single_line_app, ?str_int_single_line, ?Hdesc; reflexivity.
  - apply section_lines_single, Hss.
Qed.

Section parse_written.
Context `{Runtime}.
Import Writer.

(** The header block the extractor writes, read back. *)
Lemma locals_after_header_block sc tc desc :
  exists h : gmap str str,
    locals_after
      (map (fun l => l ++ NL)
         [str_of "[Header]";
          str_of "STRING_COUNT = " ++ str_int sc;
          str_of "TEXT_COUNT = " ++ str_int tc;
          str_of "FILE_DESCRIPTION = " ++ desc;
          []]) initial = Some (Locals [] h None (Some header_section))
    /\ h !! STRING_COUNT = Some (str_int sc)
    /\ h !! TEXT_COUNT = Some (str_int tc).
Proof.
  eexists. cbn [map locals_after].
  change (parse_line initial (str_of "[Header]" ++ NL))
    with (Ok (Next (Locals [] ∅ None (Some header_section)))).
  cbv iota.
  change ((str_of "STRING_COUNT = " ++ str_int sc) ++ NL)
    with ((83 :: str_of "TRING_COUNT") ++ str_of " = " ++ str_int sc ++ NL).
  rewrite parse_line_assign;
    [|reflexivity|lia|cbv [str_of]; cbn; repeat (constructor; [lia|]);
                      constructor|reflexivity].
  cbv iota. cbn [strings header current_index current_section].
  change ((str_of "TEXT_COUNT = " ++ str_int tc) ++ NL)
    with ((84 :: str_of "EXT_COUNT") ++ str_of " = " ++ str_int tc ++ NL).
  rewrite parse_line_assign;
    [|reflexivity|lia|cbv [str_of]; cbn; repeat (constructor; [lia|]);
                      constructor|reflexivity].
  cbv iota. cbn [strings header current_index current_section].
  change ((str_of "FILE_DESCRIPTION = " ++ desc) ++ NL)
    with ((70 :: str_of "ILE_DESCRIPTION") ++ str_of " = " ++ desc ++ NL).
  rewrite parse_line_assign;
    [|reflexivity|lia|cbv [str_of]; cbn; repeat (constructor; [lia|]);
                      constructor|reflexivity].
  cbv iota. cbn [strings header current_index current_section].
  rewrite parse_line_blank.
  change (strip ((83 :: str_of "TRING_COUNT") ++ [32])) with STRING_COUNT.
  change (strip ((84 :: str_of "EXT_COUNT") ++ [32])) with TEXT_COUNT.
  change (strip ((70 :: str_of "ILE_DESCRIPTION") ++ [32]))
    with (str_of "FILE_DESCRIPTION").
  rewrite (strip_nospace (str_int sc)), (strip_nospace (str_int tc))
    by apply str_int_nospace.
  split; [reflexivity|]. split.
  - rewrite lookup_insert_ne by discriminate.
    rewrite lookup_insert_ne by discriminate.
    apply lookup_insert_eq.
  - rewrite lookup_insert_ne by discriminate.
    apply lookup_insert_eq.
Qed.

(** [parse_txt] gives back the strings of a document written from
    strings it holds faithfully. *)
Lemma parse_written_document sc tc desc ss :
  single_line desc = true ->
  Forall (fun s => document_safe s = true) ss ->
  (forall i, 1 <= i <= len ss -> int (str_int i) = Ok i) ->
  exists h : gmap str str,
    parse_txt (Extractor.document sc tc desc ss) = Ok (Some (h, ss))
    /\ h !! STRING_COUNT = Some (str_int sc)
    /\ h !! TEXT_COUNT = Some (str_int tc).
Proof.
  intros Hdesc Hss Hint.
  destruct (locals_after_header_block sc tc desc) as (h & Hblock & Hsc & Htc).
  destruct (locals_after_sections ss
              (Locals [] h None (Some header_section)) 1 Hss)
    as (ci & sec & Hsec).
  { intros i Hi. apply Hint. lia. }
  { reflexivity. }
  exists h. split; [|auto].
  unfold parse_txt.
  rewrite document_text, readlines_text_of_lines
    by (apply document_lines_single; assumption).
  unfold document_lines. rewrite map_app.
  rewrite <- (app_nil_r (map _ (section_lines 1 ss))), app_assoc.
  erewrite parse_lines_app.
  2: { erewrite locals_after_app by exact Hblock. exact Hsec. }
  reflexivity.
Qed.

End parse_written.

(* ================================================================== *)
(** * Extraction of a valid container *)
(* ================================================================== *)

Section extraction_runs.
Context `{Runtime}.
Import Extractor.

Lemma extract_strings_run data (n : nat) range :
  Forall (fun i =>
            0 <= command_count data + i
            /\ (command_count data + i) * 8 + 8
               <= len (take n (drop 452 data))
            /\ 0 <= string_region_start data + entry_start data i) range ->
  forall acc (p : nat),
  exists p' : nat,
    extract_strings (command_count data) (string_region_start data)
      (take n (drop 452 data)) range acc (File data p) =
      Ok (acc ++ map (string_of_entry data) range, File data p').
Proof.
  induction 1 as [|i range (Hlo & Hhi & Hpos) _ IH]; intros acc p.
  - exists p. cbn. rewrite app_nil_r. reflexivity.
  - cbn [extract_strings].
    destruct (Z.gtb_spec ((command_count data + i) * 8 + 8)
                (len (take n (drop 452 data)))) as [Hgt|_]; [lia|].
    rewrite entry_read by lia. cbn [mbind result_bind].
    unfold seek.
    destruct (Z.ltb_spec (string_region_start data + entry_start data i) 0)
      as [Hneg|_]; [lia|].
    cbn [mbind result_bind f_data].
    rewrite read_spec by apply le_decode_nonneg.
    cbn [mbind result_bind].
    fold (octets_at data (string_region_start data + entry_start data i)
            (entry_length data i)).
    destruct (decode_string_total
                (octets_at data
                   (string_region_start data + entry_start data i)
                   (entry_length data i))) as (s & _ & Hs).
    assert (Hs' : string_of_entry data i = s)
      by (unfold string_of_entry; rewrite Hs; reflexivity).
    rewrite Hs. cbn [mbind result_bind].
    edestruct IH as [p' Hrest]. rewrite Hrest.
    exists p'. cbn [map]. rewrite Hs', <- app_assoc. reflexivity.
Qed.

Lemma description_eq data :
  exists dtext,
    decode cp932_decode_step Ignore (until_nul (take 256 (drop 196 data)))
      = Ok dtext
    /\ description data = strip dtext.
Proof.
  unfold description.
  destruct (decode_ignore_total cp932_decode_step
              (until_nul (take 256 (drop 196 data)))) as [dtext ->].
  eauto.
Qed.

Lemma extracted_inv data doc ss :
  extract_scw_file data = Extracted doc ss -> extractable data.
Proof.
  unfold extract_scw_file. intros Hex.
  destruct (decide (68 <= length data)%nat) as [Hlong|Hlt].
  2: { destruct (extract_try_short data Hlt) as [[e He]|He];
         rewrite He in Hex; discriminate. }
  rewrite extract_try_long in Hex by exact Hlong.
  unfold after_header in Hex.
  destruct (decode ascii_decode_step Strict _) as [magic|e] eqn:Hmagic;
    [|discriminate].
  cbn [mbind result_bind] in Hex. unfold str_eqb in Hex.
  destruct (decide (magic = MAGIC)) as [->|Hne].
  2: { rewrite bool_decide_eq_false_2 in Hex by exact Hne. discriminate. }
  rewrite bool_decide_eq_true_2 in Hex by reflexivity. cbn [negb] in Hex.
  destruct (decode cp932_decode_step Ignore _) as [dtext|e];
    [|discriminate].
  cbn [mbind result_bind] in Hex.
  destruct (Z.eqb_spec (text_count data) 0) as [|Htc]; [discriminate|].
  unfold read in Hex.
  destruct (Z.ltb_spec (index_table_size data) (-1)); [discriminate|].
  cbn [mbind result_bind f_data f_pos] in Hex.
  destruct (Z.eqb_spec (len (if index_table_size data =? -1
                             then drop 452 data
                             else take (Z.to_nat (index_table_size data))
                                    (drop 452 data)))
              (index_table_size data)) as [Hlen|]; [|discriminate].
  repeat split; try assumption.
  unfold content_region.
  destruct (Z.eqb_spec (index_table_size data) (-1)) as [Heq|_].
  - pose proof (len_nonneg (drop 452 data)). lia.
  - unfold len in *. rewrite length_take in Hlen. lia.
Qed.

Lemma extract_valid data :
  0 <= command_count data -> 0 <= string_count data ->
  0 <= addon_count data -> 0 <= command_size data ->
  extractable data ->
  extract_scw_file data =
    Extracted (document (string_count data) (text_count data)
                 (description data) (decoded_strings data))
      (decoded_strings data).
Proof.
  intros Hcc Hsc Hac Hcs (Hlong & Hmagic & Htc & Hidx).
  unfold extract_scw_file. rewrite extract_try_long by exact Hlong.
  unfold after_header. rewrite Hmagic. cbn [mbind result_bind].
  change (negb (str_eqb MAGIC MAGIC)) with false. cbv iota.
  destruct (description_eq data) as (dtext & -> & Hdesc).
  cbn [mbind result_bind].
  apply Z.eqb_neq in Htc. rewrite Htc.
  assert (Hisz : 0 <= index_table_size data)
    by (unfold index_table_size; lia).
  rewrite read_spec by exact Hisz. cbn [mbind result_bind].
  assert (Hlen : len (take (Z.to_nat (index_table_size data))
                        (drop 452 data)) = index_table_size data).
  { unfold len, content_region in *. rewrite length_take. lia. }
  rewrite Hlen, Z.eqb_refl. cbn [negb].
  edestruct (extract_strings_run data
               (Z.to_nat (index_table_size data))
               (seqZ 0 (string_count data))) as [p' Hrun].
  - apply Forall_forall. intros i Hi%elem_of_seqZ.
    rewrite Hlen.
    pose proof (le_decode_nonneg
                  (take 4 (drop (Z.to_nat (string_entry_offset data i))
                             data))) as Hstart.
    fold (uint_at data (Z.to_nat (string_entry_offset data i))) in Hstart.
    fold (entry_start data i) in Hstart.
    unfold string_region_start, index_table_size, header_length in *.
    lia.
  - rewrite Hrun. cbn [mbind result_bind app].
    rewrite <- Hdesc. reflexivity.
Qed.

End extraction_runs.

(* ================================================================== *)
(** * The round trip of a valid container *)
(* ================================================================== *)

Lemma concat_slice {A} (es : list (list A)) (i : nat) (e rest : list A) :
  es !! i = Some e ->
  take (length e) (drop (length (concat (take i es))) (concat es ++ rest))
    = e.
Proof.
  intros He. rewrite <- (take_drop_middle es i e He) at 2.
  rewrite concat_app. cbn [concat]. rewrite <- !app_assoc.
  rewrite drop_app_length. apply take_app_length.
Qed.

Lemma map_seqZ_lookup {A} (f : Z -> A) (l : list A) :
  (forall (i : nat) x, l !! i = Some x -> f (Z.of_nat i) = x) ->
  map f (seqZ 0 (len l)) = l.
Proof.
  intros Hf. apply list_eq. intros i. rewrite list_lookup_fmap.
  destruct (l !! i) as [x|] eqn:Hx.
  - assert (Hi : seqZ 0 (len l) !! i = Some (Z.of_nat i)).
    { apply lookup_seqZ. apply lookup_lt_Some in Hx. unfold len. lia. }
    rewrite Hi. cbn. f_equal. apply Hf, Hx.
  - assert (Hi : seqZ 0 (len l) !! i = None).
    { apply lookup_ge_None. apply lookup_ge_None in Hx.
      rewrite length_seqZ. unfold len. lia. }
    rewrite Hi. reflexivity.
Qed.

Lemma entries_in_range_bound off es :
  0 <= off -> off + len (concat es) < 2 ^ 32 -> entries_in_range off es.
Proof.
  revert off. induction es as [|e r IH]; intros off Hoff Hsum; [exact I|].
  cbn [concat entries_in_range] in *. rewrite len_app in Hsum.
  pose proof (len_nonneg e). pose proof (len_nonneg (concat r)).
  split; [lia|]. split; [lia|]. apply IH; lia.
Qed.

(** The regions of a valid container are whole. *)
Lemma regions_valid scw :
  valid_container scw ->
  length (index_region scw) = Z.to_nat (index_table_size scw)
  /\ length (command_region scw) = Z.to_nat (command_size scw).
Proof.
  intros (Hcc & Hsc & Hac & Hcs & Hcl & Hcontent).
  assert (Hisz : 0 <= index_table_size scw)
    by (unfold index_table_size; lia).
  unfold index_region, command_region, regions, Writer.split_content,
    slice_to.
  cbn [fst snd]. fold (index_table_size scw).
  rewrite !slice_nonneg by lia.
  rewrite !length_take, !length_drop. unfold len in Hcontent.
  change (Z.to_nat 0) with 0%nat. lia.
Qed.

(** Header fields and header texts outside the two patched fields. *)
Lemma frame_fields scw out :
  same_header_frame scw out ->
  command_count out = command_count scw
  /\ string_count out = string_count scw
  /\ addon_count out = addon_count scw
  /\ command_size out = command_size scw
  /\ text_count out = text_count scw
  /\ take 16 out = take 16 scw
  /\ take 256 (drop 196 out) = take 256 (drop 196 scw).
Proof.
  intros Hframe.
  unfold command_count, string_count, addon_count, command_size, text_count,
    int_at.
  rewrite !(frame_int_at scw out _ Hframe) by (cbn; lia).
  destruct Hframe as (H1 & _ & H3).
  repeat split.
  - change 16%nat with (16 `min` 24)%nat.
    rewrite <- !take_take, H1. reflexivity.
  - replace (drop 196 out) with (drop 140 (drop 56 out))
      by (rewrite drop_drop; reflexivity).
    replace (drop 196 scw) with (drop 140 (drop 56 scw))
      by (rewrite drop_drop; reflexivity).
    rewrite <- (take_drop_prefix (drop 56 out) 140 256 396) by lia.
    rewrite <- (take_drop_prefix (drop 56 scw) 140 256 396) by lia.
    rewrite H3. reflexivity.
Qed.

(* ================================================================== *)
(** * The loop of [parse_txt], line by line *)
(* ================================================================== *)

Section parser_invariants.
Context `{Runtime}.
Import Writer.


Lemma bracket_of_index_tag (line : str) :
  startswith BRACKET line = false -> startswith INDEX_TAG line = false.
Proof.
  destruct line as [|c l]; [reflexivity|].
  unfold BRACKET, INDEX_TAG. cbn [startswith].
  destruct (91 =? c); [discriminate|reflexivity].
Qed.



Lemma parse_lines_some lines st h ss :
  parse_lines lines st = Ok (Some (h, ss)) ->
  exists st', locals_after lines st = Some st'
              /\ h = header st' /\ ss = strings st'.
Proof.
  revert st. induction lines as [|raw rest IH]; intros st; cbn.
  - intros [= <- <-]. eauto.
  - destruct (parse_line st raw) as [[st1|]|e1]; cbn; try discriminate.
    apply IH.
Qed.

Lemma locals_after_parse_lines lines st st' :
  locals_after lines st = Some st' ->
  parse_lines lines st = Ok (Some (header st', strings st')).
Proof.
  intros Hl. rewrite <- (app_nil_r lines).
  rewrite (parse_lines_app _ _ _ _ Hl). reflexivity.
Qed.

(** One pass of the loop, on the number of strings. *)
Lemma parse_line_count st raw st' :
  parse_line st raw = Ok (Next st') ->
  length (strings st') =
    (length (strings st)
     + if startswith INDEX_TAG (strip raw) then 1 else 0)%nat.
Proof.
  unfold parse_line.
  destruct (strip raw) as [|c l] eqn:Hline.
  { intros [= <-]. cbn. lia. }
  destruct (startswith BRACKET (c :: l)) eqn:Hb.
  - unfold str_eqb. destruct (decide (c :: l = HEADER_TAG)) as [Heq|Hne].
    + rewrite bool_decide_eq_true_2 by exact Heq. rewrite Heq.
      intros [= <-]. cbn. lia.
    + rewrite bool_decide_eq_false_2 by exact Hne.
      destruct (startswith INDEX_TAG (c :: l)) eqn:Htag.
      * destruct (split_once 61 (c :: l)) as [[tag after]|];
          cbn [mbind result_bind]; [|discriminate].
        destruct (int _) as [n|e]; cbn [mbind result_bind]; [|discriminate].
        destruct (negb _); [discriminate|].
        intros [= <-]. cbn [strings]. rewrite length_app. reflexivity.
      * intros [= <-]. cbn. lia.
  - rewrite (bracket_of_index_tag _ Hb).
    destruct (current_section st) as [[|]|].
    + destruct (split_once 61 (c :: l)) as [[k v]|]; intros [= <-]; cbn; lia.
    + destruct (current_index st) as [ci|]; [|intros [= <-]; lia].
      destruct ((1 <=? ci) && (ci <=? len (strings st)));
        [|intros [= <-]; lia].
      destruct (strings st !! Z.to_nat (ci - 1)) as [[|o old]|];
        try discriminate; intros [= <-]; cbn [strings];
        rewrite length_insert; lia.
    + intros [= <-]. lia.
Qed.

Lemma locals_after_count lines st st' :
  locals_after lines st = Some st' ->
  length (strings st') = (length (strings st) + index_headers lines)%nat.
Proof.
  revert st. induction lines as [|raw rest IH]; intros st; cbn [locals_after].
  - intros [= <-]. cbn. lia.
  - destruct (parse_line st raw) as [[st1|]|e1] eqn:Hline; try discriminate.
    intros Hrest. rewrite (IH _ Hrest), (parse_line_count _ _ _ Hline).
    unfold index_headers. cbn [List.filter].
    destruct (startswith INDEX_TAG (strip raw)); cbn [length]; lia.
Qed.

End parser_invariants.

(** ** Lists of strings that continue one another *)

Lemma continues_refl (a : list str) : continues a a.
Proof.
  split; [lia|]. intros i s Hs. exists []. rewrite app_nil_r. auto.
Qed.

Lemma continues_trans (a b c : list str) :
  continues a b -> continues b c -> continues a c.
Proof.
  intros [Hab Ha] [Hbc Hb]. split; [lia|].
  intros i s Hs. destruct (Ha i s Hs) as (t1 & Hb1 & Ht1).
  destruct (Hb i _ Hb1) as (t2 & Hc2 & Ht2).
  exists (t1 ++ t2). rewrite app_assoc. split; [exact Hc2|].
  intros Hi. rewrite Ht1, Ht2 by lia. reflexivity.
Qed.

Lemma continues_snoc (a : list str) (s : str) : continues a (a ++ [s]).
Proof.
  split; [rewrite length_app; lia|].
  intros i x Hx. exists []. rewrite app_nil_r.
  rewrite lookup_app_l by (eapply lookup_lt_Some; exact Hx). auto.
Qed.

Lemma continues_last (a : list str) (k : nat) (old t : str) :
  a !! k = Some old -> S k = length a ->
  continues a (<[k := old ++ t]> a).
Proof.
  intros Hold Hk. split; [rewrite length_insert; lia|].
  intros i s Hs. destruct (decide (i = k)) as [->|Hne].
  - exists t. rewrite list_lookup_insert_eq by (eapply lookup_lt_Some; eauto).
    rewrite Hold in Hs. injection Hs as <-. split; [reflexivity|lia].
  - exists []. rewrite app_nil_r, list_lookup_insert_ne by auto. auto.
Qed.

(** ** Lines *)

Lemma split_nl_one (l : str) : single_line l = true -> split_nl l = [l].
Proof.
  induction l as [|c r IH]; [reflexivity|].
  cbn [single_line forallb]. intros [Hc Hr]%andb_prop.
  apply andb_prop in Hc as [Hc _]. apply negb_true_iff in Hc.
  cbn [split_nl]. rewrite Hc. fold (single_line r) in Hr.
  rewrite (IH Hr). reflexivity.
Qed.

Lemma split_nl_app (a b : str) :
  split_nl (a ++ NL ++ b) = split_nl a ++ split_nl b.
Proof.
  induction a as [|c r IH]; [reflexivity|].
  cbn [app split_nl]. destruct (c =? 10).
  - cbn [app] in IH. rewrite IH. reflexivity.
  - cbn [app] in IH. rewrite IH.
    destruct (split_nl_cons r) as (l & ls & ->). reflexivity.
Qed.

Lemma single_line_lstrip (s : str) :
  single_line s = true -> single_line (lstrip s) = true.
Proof.
  induction s as [|c r IH]; [reflexivity|].
  intros Hs. cbn [lstrip]. destruct (isspace c); [|exact Hs].
  apply IH. cbn [single_line forallb] in Hs.
  apply andb_prop in Hs as [_ Hr]. exact Hr.
Qed.

Lemma single_line_rstrip (s : str) :
  single_line s = true -> single_line (rstrip s) = true.
Proof.
  induction s as [|c r IH]; [reflexivity|].
  cbn [single_line forallb]. intros [Hc Hr]%andb_prop.
  rewrite rstrip_cons. specialize (IH Hr).
  destruct (rstrip r) as [|x y].
  - destruct (isspace c); [reflexivity|].
    cbn [single_line forallb]. rewrite Hc. reflexivity.
  - cbn [single_line forallb] in *. rewrite Hc. exact IH.
Qed.

Lemma single_line_strip (s : str) :
  single_line s = true -> single_line (strip s) = true.
Proof. intros Hs. apply single_line_lstrip, single_line_rstrip, Hs. Qed.

Lemma single_line_rev (s : str) :
  single_line s = true -> single_line (rev s) = true.
Proof.
  induction s as [|c r IH]; [reflexivity|].
  cbn [single_line forallb rev]. intros [Hc Hr]%andb_prop.
  fold (single_line r) in Hr. rewrite single_line_app, IH by exact Hr.
  cbn [single_line forallb]. rewrite Hc. reflexivity.
Qed.

(** Every line a text file yields is, stripped, free of line breaks. *)
Lemma readlines_go_lines (n : nat) :
  forall (s cur : str),
    (length s <= n)%nat -> single_line cur = true ->
    Forall (fun l => single_line (strip l) = true) (readlines_go cur s).
Proof.
  assert (Hend : forall cur : str,
             single_line cur = true ->
             single_line (strip (rev (10 :: cur))) = true).
  { intros cur Hcur. cbn [rev]. change [10] with NL. rewrite strip_line.
    apply single_line_strip, single_line_rev, Hcur. }
  induction n as [|n IH]; intros s cur Hn Hcur.
  - destruct s; [|cbn in Hn; lia]. cbn [readlines_go].
    destruct cur as [|c cur']; [constructor|].
    constructor; [|constructor].
    apply single_line_strip, single_line_rev, Hcur.
  - destruct s as [|c r].
    { cbn [readlines_go]. destruct cur as [|c cur']; [constructor|].
      constructor; [|constructor].
      apply single_line_strip, single_line_rev, Hcur. }
    cbn [length] in Hn. cbn [readlines_go].
    destruct (Z.eqb_spec c 10) as [->|Hc10].
    { constructor; [apply Hend, Hcur|]. apply IH; [lia|reflexivity]. }
    destruct (Z.eqb_spec c 13) as [->|Hc13].
    + destruct r as [|c' r']; [constructor; [apply Hend, Hcur|constructor]|].
      cbn [length] in Hn.
      destruct (c' =? 10);
        (constructor; [apply Hend, Hcur|]); apply IH;
        cbn [length]; try lia; reflexivity.
    + apply IH; [lia|]. cbn [single_line forallb].
      apply Z.eqb_neq in Hc10, Hc13. rewrite Hc10, Hc13. exact Hcur.
Qed.

Lemma readlines_lines (text : str) :
  Forall (fun l => single_line (strip l) = true) (readlines text).
Proof. apply (readlines_go_lines (length text)); [lia|reflexivity]. Qed.

Section parser_steps.
Context `{Runtime}.
Import Writer.

(** One pass of the loop keeps [current_index] in step and continues the
    strings. *)
Lemma parse_line_step st raw st' :
  index_in_step st -> parse_line st raw = Ok (Next st') ->
  index_in_step st' /\ continues (strings st) (strings st').
Proof.
  intros Hst. pose proof Hst as [Hci Hsec]. unfold parse_line.
  destruct (strip raw) as [|c l] eqn:Hline.
  { intros [= <-]. split; [exact Hst|apply continues_refl]. }
  destruct (startswith BRACKET (c :: l)) eqn:Hb.
  - destruct (str_eqb (c :: l) HEADER_TAG).
    { intros [= <-]. cbn [strings]. split; [|apply continues_refl].
      split; [exact Hci|discriminate]. }
    destruct (startswith INDEX_TAG (c :: l)).
    + destruct (split_once 61 (c :: l)) as [[tag after]|];
        cbn [mbind result_bind]; [|discriminate].
      destruct (int _) as [n|e]; cbn [mbind result_bind]; [|discriminate].
      destruct (Z.eqb_spec n (len (strings st) + 1)) as [->|];
        [|discriminate].
      intros [= <-]. cbn [strings]. split; [|apply continues_snoc].
      split; cbn [current_index current_section strings]; [|eauto].
      split; [unfold len; rewrite length_app; cbn [length]; lia|].
      destruct (strings st); discriminate.
    + intros [= <-]. cbn [strings]. split; [|apply continues_refl].
      split; [exact Hci|discriminate].
  - destruct (current_section st) as [[|]|] eqn:Hcs.
    + destruct (split_once 61 (c :: l)) as [[k v]|]; intros [= <-];
        (split; [|apply continues_refl]); [|exact Hst].
      split; cbn [current_index current_section strings];
        [exact Hci|discriminate].
    + destruct (current_index st) as [ci|] eqn:Hcur.
      2: { intros [= <-]. split; [exact Hst|apply continues_refl]. }
      destruct Hci as [-> Hne].
      destruct ((1 <=? len (strings st))
                && (len (strings st) <=? len (strings st))).
      2: { intros [= <-]. split; [exact Hst|apply continues_refl]. }
      assert (Hk : S (Z.to_nat (len (strings st) - 1)) = length (strings st)).
      { unfold len. destruct (strings st); [congruence|cbn [length]; lia]. }
      destruct (strings st !! Z.to_nat (len (strings st) - 1))
        as [old|] eqn:Hold; [|discriminate].
      assert (Hstep : forall t,
                 index_in_step
                   (Locals (<[Z.to_nat (len (strings st) - 1) := old ++ t]>
                              (strings st)) (header st)
                      (Some (len (strings st))) (Some index_section))).
      { intros t. split; cbn [current_index current_section strings];
          [|eauto].
        split; [unfold len; rewrite length_insert; reflexivity|].
        intros Hnil. apply (f_equal length) in Hnil.
        rewrite length_insert in Hnil. cbn in Hnil. lia. }
      destruct old as [|o old'].
      * intros [= <-]. cbn [strings]. split; [apply (Hstep (c :: l))|].
        apply (continues_last _ _ [] (c :: l) Hold Hk).
      * intros [= <-]. cbn [strings].
        split; [apply (Hstep (NL ++ c :: l))|].
        apply (continues_last _ _ (o :: old') (NL ++ c :: l) Hold Hk).
    + intros [= <-]. split; [exact Hst|apply continues_refl].
Qed.

Lemma locals_after_step lines st st' :
  index_in_step st -> locals_after lines st = Some st' ->
  index_in_step st' /\ continues (strings st) (strings st').
Proof.
  revert st. induction lines as [|raw rest IH]; intros st Hst;
    cbn [locals_after].
  - intros [= <-]. split; [exact Hst|apply continues_refl].
  - destruct (parse_line st raw) as [[st1|]|e1] eqn:Hline; try discriminate.
    intros Hrest.
    destruct (parse_line_step _ _ _ Hst Hline) as [Hst1 Hc1].
    destruct (IH _ Hst1 Hrest) as [Hst' Hc'].
    split; [exact Hst'|]. eapply continues_trans; eassumption.
Qed.

Lemma index_in_step_initial : index_in_step initial.
Proof. split; [reflexivity|discriminate]. Qed.

(** One pass of the loop keeps the strings in the form the document
    holds faithfully. *)
Lemma parse_line_safe st raw st' :
  single_line (strip raw) = true ->
  Forall (fun s => document_safe s = true) (strings st) ->
  parse_line st raw = Ok (Next st') ->
  Forall (fun s => document_safe s = true) (strings st').
Proof.
  intros Hraw Hsafe. unfold parse_line.
  destruct (strip raw) as [|c l] eqn:Hline.
  { intros [= <-]. exact Hsafe. }
  destruct (startswith BRACKET (c :: l)) eqn:Hb.
  - destruct (str_eqb (c :: l) HEADER_TAG).
    { intros [= <-]. exact Hsafe. }
    destruct (startswith INDEX_TAG (c :: l)).
    + destruct (split_once 61 (c :: l)) as [[tag after]|];
        cbn [mbind result_bind]; [|discriminate].
      destruct (int _) as [n|e]; cbn [mbind result_bind]; [|discriminate].
      destruct (negb _); [discriminate|].
      intros [= <-]. cbn [strings]. apply Forall_app. split; [exact Hsafe|].
      constructor; [reflexivity|constructor].
    + intros [= <-]. exact Hsafe.
  - assert (Hclean : clean_line (c :: l) = true).
    { unfold clean_line. rewrite Hb, Hraw.
      rewrite bool_decide_eq_false_2 by discriminate.
      rewrite bool_decide_eq_true_2; [reflexivity|].
      rewrite <- Hline. apply strip_idem. }
    destruct (current_section st) as [[|]|].
    + destruct (split_once 61 (c :: l)) as [[k v]|]; intros [= <-];
        exact Hsafe.
    + destruct (current_index st) as [ci|]; [|intros [= <-]; exact Hsafe].
      destruct ((1 <=? ci) && (ci <=? len (strings st)));
        [|intros [= <-]; exact Hsafe].
      destruct (strings st !! Z.to_nat (ci - 1)) as [old|] eqn:Hold;
        [|discriminate].
      destruct old as [|o old'].
      * intros [= <-]. cbn [strings]. apply Forall_insert; [exact Hsafe|].
        unfold document_safe. rewrite (split_nl_one _ Hraw).
        cbn [forallb]. rewrite Hclean. apply orb_true_r.
      * intros [= <-]. cbn [strings]. apply Forall_insert; [exact Hsafe|].
        pose proof (Forall_lookup_1 _ _ _ _ Hsafe Hold) as Hso.
        cbv beta in Hso. unfold document_safe in Hso |- *.
        rewrite bool_decide_eq_false_2 in Hso by discriminate.
        change (o :: old' ++ 10 :: c :: l)
          with ((o :: old') ++ NL ++ c :: l).
        rewrite split_nl_app, forallb_app, (split_nl_one _ Hraw).
        cbn [orb] in Hso. rewrite Hso. cbn [forallb]. rewrite Hclean.
        apply orb_true_r.
    + intros [= <-]. exact Hsafe.
Qed.

Lemma locals_after_safe lines st st' :
  Forall (fun l => single_line (strip l) = true) lines ->
  Forall (fun s => document_safe s = true) (strings st) ->
  locals_after lines st = Some st' ->
  Forall (fun s => document_safe s = true) (strings st').
Proof.
  intros Hlines. revert st.
  induction Hlines as [|raw rest Hraw _ IH]; intros st Hst;
    cbn [locals_after].
  - intros [= <-]. exact Hst.
  - destruct (parse_line st raw) as [[st1|]|e1] eqn:Hline; try discriminate.
    apply IH. eapply parse_line_safe; eassumption.
Qed.

(** Lines outside every section leave the locals alone. *)
Lemma locals_after_no_section lines st :
  current_section st = None ->
  Forall (fun l => startswith BRACKET (strip l) = false) lines ->
  locals_after lines st = Some st.
Proof.
  intros Hcs. induction 1 as [|raw rest Hraw _ IH]; [reflexivity|].
  cbn [locals_after]. unfold parse_line.
  destruct (strip raw) as [|c l]; [exact IH|].
  rewrite Hraw, Hcs. exact IH.
Qed.

End parser_steps.

Section parsed_strings.
Context `{Runtime}.

Lemma parse_txt_safe (text : str) (h : gmap str str) (ss : list str) :
  Writer.parse_txt text = Ok (Some (h, ss)) ->
  Forall (fun s => document_safe s = true) ss.
Proof.
  unfold Writer.parse_txt. intros Hp.
  destruct (parse_lines_some _ _ _ _ Hp) as (st & Hst & _ & ->).
  eapply locals_after_safe; [apply readlines_lines| |exact Hst].
  constructor.
Qed.

End parsed_strings.

(* ================================================================== *)
(** * Early exits of the extractor *)
(* ================================================================== *)

Lemma decode_loop_raises step h fuel bs e :
  decode_loop fuel step h bs = Raise e -> e = UnicodeDecodeError /\ h = Strict.
Proof.
  revert bs. induction fuel as [|fuel IH]; intros bs; [discriminate|].
  destruct bs as [|b r]; [discriminate|]. cbn [decode_loop].
  destruct (step (b :: r)) as [c n|n].
  - destruct (decode_loop fuel step h _) eqn:Hrest; [discriminate|].
    cbn. intros [= <-]. eapply IH, Hrest.
  - destruct h.
    + intros [= <-]. auto.
    + destruct (decode_loop fuel step Replace _) eqn:Hrest; [discriminate|].
      cbn. intros [= <-]. eapply IH, Hrest.
    + apply IH.
Qed.

Lemma decode_raises step h bs e :
  decode step h bs = Raise e -> e = UnicodeDecodeError /\ h = Strict.
Proof. apply decode_loop_raises. Qed.

Section extraction_edges.
Context `{Runtime}.
Import Extractor.

(** Before the magic is accepted nothing but the first sixteen octets is
    looked at. *)
Lemma extract_try_magic data :
  extract_scw_file_try (open_rb data) =
    (magic ← decode ascii_decode_step Strict (rstrip_nul (take 16 data));
     if negb (str_eqb magic MAGIC) then Ok InvalidMagic
     else extract_scw_file_try (open_rb data)).
Proof.
  unfold extract_scw_file_try at 1. unfold open_rb.
  rewrite read_spec by lia. cbn [mbind result_bind].
  change (Z.to_nat 16) with 16%nat. rewrite drop_0.
  destruct (decode ascii_decode_step Strict (rstrip_nul (take 16 data)))
    as [magic|e] eqn:Hmagic; [|reflexivity].
  cbn [mbind result_bind].
  destruct (negb (str_eqb magic MAGIC)) eqn:Hm; [reflexivity|].
  unfold extract_scw_file_try, open_rb.
  rewrite read_spec by lia. cbn [mbind result_bind].
  change (Z.to_nat 16) with 16%nat. rewrite drop_0, Hmagic.
  cbn [mbind result_bind]. rewrite Hm. reflexivity.
Qed.

(** With the magic accepted, a file that ends inside the thirteen integer
    fields fails in [struct.unpack]. *)
Lemma extract_try_short_header data :
  ~ (68 <= length data)%nat ->
  decode ascii_decode_step Strict (rstrip_nul (take 16 data)) = Ok MAGIC ->
  extract_scw_file_try (open_rb data) = Raise StructError.
Proof.
  intros Hlen Hmagic. unfold extract_scw_file_try, open_rb.
  rewrite read_spec by lia. cbn [mbind result_bind].
  change (Z.to_nat 16) with 16%nat. rewrite drop_0, Hmagic.
  cbn [mbind result_bind].
  change (negb (str_eqb MAGIC MAGIC)) with false. cbv iota.
  destruct (decide (16 <= length data)%nat) as [H16|H16].
  2: { rewrite read_int_short; [reflexivity|].
       rewrite length_take. lia. }
  assert (Hpos : (0 + length (take 16 data) = 16)%nat)
    by (rewrite length_take; lia).
  rewrite Hpos.
  do 13 (match goal with
         | |- context [read_int (File data ?p)] =>
             destruct (decide (p + 4 <= length data)%nat);
             [rewrite read_int_at by assumption; cbn [mbind result_bind]
             |rewrite read_int_short by assumption; reflexivity]
         end).
  lia.
Qed.

(** The strings of a document written are those of the leading entries of
    the string group. *)
Lemma extracted_strings data doc ss :
  extract_scw_file data = Extracted doc ss ->
  0 <= command_count data ->
  exists m : nat,
    ss = map (string_of_entry data) (take m (seqZ 0 (string_count data))).
Proof.
  intros Hex Hcc. unfold extract_scw_file in Hex.
  destruct (decide (68 <= length data)%nat) as [Hlong|Hlt].
  2: { destruct (extract_try_short data Hlt) as [[e He]|He];
         rewrite He in Hex; discriminate. }
  rewrite extract_try_long in Hex by exact Hlong.
  unfold after_header in Hex.
  destruct (decode ascii_decode_step Strict _) as [magic|e];
    [|discriminate].
  cbn [mbind result_bind] in Hex.
  destruct (negb (str_eqb magic MAGIC)); [discriminate|].
  destruct (decode cp932_decode_step Ignore _) as [dtext|e];
    [|discriminate].
  cbn [mbind result_bind] in Hex.
  destruct (text_count data =? 0); [discriminate|].
  unfold read in Hex.
  destruct (index_table_size data <? -1); [discriminate|].
  cbn [mbind result_bind f_data f_pos] in Hex.
  destruct (negb _); [discriminate|].
  destruct (extract_strings _ _ _ _ _ _) as [[ss' f']|e] eqn:Hloop;
    [|discriminate].
  cbn [mbind result_bind] in Hex. injection Hex as _ ->.
  assert (Hidx : exists n : nat,
    (if index_table_size data =? -1 then drop 452 data
     else take (Z.to_nat (index_table_size data)) (drop 452 data))
    = take n (drop 452 data)).
  { destruct (_ =? -1).
    - exists (length (drop 452 data)). rewrite firstn_all. reflexivity.
    - eauto. }
  destruct Hidx as [n Hn]. rewrite Hn in Hloop.
  apply extract_strings_sound in Hloop as [m Hm]; [|exact Hcc|].
  2: { apply Forall_forall. intros x Hx.
       apply elem_of_seqZ in Hx. lia. }
  exists m. exact Hm.
Qed.

(** Nothing is read where the file has ended. *)
Lemma octets_at_end (data : bytes) (pos n : Z) :
  len data <= pos -> octets_at data pos n = [].
Proof.
  intros Hpos. unfold octets_at, len in *.
  rewrite drop_ge by lia. apply take_nil.
Qed.

End extraction_edges.

(* ================================================================== *)
(** * Rebuilt containers, extracted and rebuilt again *)
(* ================================================================== *)

Lemma slice_length_le {A} (l : list A) (a b : Z) :
  a <= b -> (length (slice l a b) <= Z.to_nat (b - a))%nat.
Proof.
  intros Hab. unfold slice, clamp_index. rewrite length_take, length_drop.
  unfold len.
  destruct (Z.ltb_spec a 0); destruct (Z.ltb_spec b 0); lia.
Qed.

Lemma len_concat_take {A} (es : list (list A)) (n : nat) :
  len (concat (take n es)) <= len (concat es).
Proof.
  rewrite <- (take_drop n es) at 2. rewrite concat_app, len_app.
  pose proof (len_nonneg (concat (drop n es))). lia.
Qed.

(** The regions of a container laid out as a rebuild lays it out. *)
Lemma regions_of_layout (scw out idx cmd strs addon : bytes) :
  (452 <= length scw)%nat ->
  0 <= command_count scw + string_count scw + addon_count scw ->
  0 <= command_size scw -> 0 <= addon_size scw ->
  len (idx ++ cmd ++ strs ++ addon) < 2 ^ 31 ->
  length idx = Z.to_nat (index_table_size scw) ->
  length cmd = Z.to_nat (command_size scw) ->
  (length addon <= Z.to_nat (addon_size scw))%nat ->
  out = (take 24 scw ++ le_encode 4 (len (idx ++ cmd ++ strs ++ addon))
         ++ take 24 (drop 28 scw) ++ le_encode 4 (len strs)
         ++ take 396 (drop 56 scw)) ++ idx ++ cmd ++ strs ++ addon ->
  content_length out = len (idx ++ cmd ++ strs ++ addon)
  /\ content_read out = idx ++ cmd ++ strs ++ addon
  /\ regions out = (idx, cmd, strs, addon).
Proof.
  intros Hlen Hcount Hcs Has Hsize Hidx Hcmd Haddon Hout.
  set (content := idx ++ cmd ++ strs ++ addon) in *.
  destruct (header_parts scw out _ _ content Hlen
              (length_le_encode 4 _) (length_le_encode 4 _) Hout)
    as (Hframe & Ha & Hb & Hhead & Hrest).
  destruct (frame_fields scw out Hframe)
    as (Fcc & Fsc & Fac & Fcs & Ftc & Fmagic & Fdesc).
  pose proof (len_nonneg content) as Hnn.
  pose proof (len_nonneg strs) as Hnns.
  assert (Hstrs : len strs <= len content).
  { unfold content. rewrite !len_app.
    pose proof (len_nonneg idx). pose proof (len_nonneg cmd).
    pose proof (len_nonneg addon). lia. }
  assert (Hcl : content_length out = len content).
  { unfold content_length, int_at. change (Z.to_nat 0x18) with 24%nat.
    rewrite Ha. apply signed32_encode. lia. }
  assert (Hss : string_size out = len strs).
  { unfold string_size, int_at. change (Z.to_nat 0x34) with 52%nat.
    rewrite Hb. apply signed32_encode. lia. }
  assert (Fas : addon_size out = addon_size scw).
  { unfold addon_size, int_at. change (Z.to_nat 0x38) with 56%nat.
    rewrite (frame_int_at scw out 56 Hframe) by lia. reflexivity. }
  assert (Hread : content_read out = content).
  { unfold content_read. rewrite Hcl, Hrest.
    destruct (Z.eqb_spec (len content) (-1)); [lia|].
    apply firstn_all2. unfold len. lia. }
  split; [exact Hcl|]. split; [exact Hread|].
  unfold regions. rewrite Hread, Fcc, Fsc, Fac, Fcs, Hss, Fas.
  unfold Writer.split_content, slice_to.
  fold (index_table_size scw).
  assert (Hisz : 0 <= index_table_size scw)
    by (unfold index_table_size; lia).
  rewrite !slice_nonneg by lia.
  change (Z.to_nat 0) with 0%nat. rewrite drop_0.
  replace (Z.to_nat (index_table_size scw - 0)) with (length idx) by lia.
  replace (Z.to_nat (index_table_size scw + command_size scw
                     - index_table_size scw)) with (length cmd) by lia.
  replace (Z.to_nat (index_table_size scw)) with (length idx) by lia.
  replace (Z.to_nat (index_table_size scw + command_size scw + len strs
                     - (index_table_size scw + command_size scw)))
    with (length strs) by (unfold len; lia).
  replace (Z.to_nat (index_table_size scw + command_size scw))
    with (length idx + length cmd)%nat by lia.
  replace (Z.to_nat (index_table_size scw + command_size scw + len strs
                     + addon_size scw
                     - (index_table_size scw + command_size scw + len strs)))
    with (Z.to_nat (addon_size scw)) by lia.
  replace (Z.to_nat (index_table_size scw + command_size scw + len strs))
    with (length idx + (length cmd + length strs))%nat by (unfold len; lia).
  unfold content.
  rewrite take_app_length, drop_app_length, take_app_length.
  rewrite <- !drop_drop, !drop_app_length, take_app_length.
  rewrite firstn_all2 by exact Haddon. reflexivity.
Qed.

Section rebuilt.
Context `{Runtime}.
Import Writer.

Lemma recoded_stable s : codec_stable s -> recoded s = s.
Proof.
  unfold codec_stable, recoded, Extractor.decode_string. intros ->.
  reflexivity.
Qed.

(** The container a rebuild writes, extracted. *)
Lemma extract_rebuilt scw txt out h ss :
  valid_container scw ->
  decode ascii_decode_step Strict (rstrip_nul (take 16 scw)) = Ok MAGIC ->
  text_count scw <> 0 ->
  process_scw scw txt = Written out ->
  parse_txt txt = Ok (Some (h, ss)) ->
  let strs := map recoded (take (Z.to_nat (string_count scw)) ss) in
  Extractor.extract_scw_file out =
    Extractor.Extracted
      (Extractor.document (string_count scw) (text_count scw)
         (description scw) strs) strs.
Proof.
  intros Hvalid Hmagic Htc Hrun Hparse strs.
  destruct (regions_valid scw Hvalid) as [Hidxlen Hcmdlen].
  destruct Hvalid as (Hcc & Hsc & Hac & Hcs & Hcl & Hcontent).
  destruct (rebuild_closed scw txt out Hrun Hcc)
    as (h' & ss' & new_index & Hparse' & Hlen & Hnew & Hbound & Hrange
        & Hsize & Hout).
  rewrite Hparse in Hparse'. injection Hparse' as <- <-.
  set (es := map encoded ss) in *.
  set (n := Z.to_nat (string_count scw)) in *.
  set (o := Z.to_nat (command_count scw * 8)) in *.
  set (new_content := new_index ++ command_region scw ++ concat es
                      ++ addon_region scw) in *.
  assert (Hisz : index_table_size scw
                 = (command_count scw + string_count scw + addon_count scw)
                   * 8) by reflexivity.
  assert (Hfit : (o + 8 * n <= length (index_region scw))%nat) by lia.
  assert (Hes : (n <= length es)%nat).
  { destruct (decide (n = 0%nat)) as [->|Hn]; [lia|]. apply Hbound, Hn. }
  assert (Hnewlen : length new_index = length (index_region scw)).
  { rewrite Hnew.
    rewrite !length_app, length_index_entries, !length_take, length_drop.
    lia. }
  destruct (header_parts scw out _ _ new_content Hlen
              (length_le_encode 4 _) (length_le_encode 4 _) Hout)
    as (Hframe & _ & _ & Hhead & Hrest).
  destruct (frame_fields scw out Hframe)
    as (Fcc & Fsc & Fac & Fcs & Ftc & Fmagic & Fdesc).
  assert (Hout_len : (452 <= length out)%nat).
  { rewrite <- (take_drop 452 out), length_app, Hhead.
    rewrite !length_app, !length_take, !length_drop, !length_le_encode. lia. }
  assert (Hable' : extractable out).
  { unfold extractable, index_table_size, content_region.
    rewrite Fmagic, Ftc, Fcc, Fsc, Fac, Hrest.
    repeat split; try assumption; try lia.
    rewrite <- Hisz. unfold new_content. rewrite len_app.
    pose proof (len_nonneg (command_region scw ++ concat es
                            ++ addon_region scw)).
    unfold len at 1. rewrite Hnewlen. lia. }
  rewrite (extract_valid out) by (rewrite ?Fcc, ?Fsc, ?Fac, ?Fcs; assumption).
  assert (Hdesc' : description out = description scw)
    by (unfold description; rewrite Fdesc; reflexivity).
  assert (Hlenstrs : len strs = string_count scw).
  { unfold strs, len. rewrite length_map, length_take.
    unfold es in Hes. rewrite length_map in Hes. lia. }
  assert (Hstrings : decoded_strings out = strs).
  { unfold decoded_strings. rewrite Fsc, <- Hlenstrs.
    apply map_seqZ_lookup. intros i x Hx.
    unfold strs in Hx. rewrite list_lookup_fmap in Hx.
    destruct (take n ss !! i) as [s|] eqn:Hs; [|discriminate].
    injection Hx as <-.
    apply lookup_take_Some in Hs as [Hs Hi].
    assert (Hlook : es !! i = Some (encoded s))
      by (unfold es; rewrite list_lookup_fmap, Hs; reflexivity).
    pose proof Hout as Hout'. unfold new_content in Hout'.
    rewrite Hnew in Hout' at 2.
    destruct (closed_entries scw out es _ _ _ Hlen Hcc
                (length_le_encode 4 _) (length_le_encode 4 _)
                Hfit Hes Hrange Hout' i (encoded s) Hi Hlook)
      as [Hstart Hlength].
    unfold string_of_entry, string_region_start, index_table_size,
      header_length.
    rewrite Hstart, Hlength, Fcc, Fsc, Fac, Fcs, <- Hisz.
    unfold octets_at.
    replace (Z.to_nat (452 + index_table_size scw + command_size scw
                       + len (concat (take i es))))
      with (452 + (length new_index + length (command_region scw)
                   + length (concat (take i es))))%nat
      by (unfold len; lia).
    rewrite <- drop_drop, Hrest. unfold new_content.
    rewrite <- drop_drop, app_assoc, <- length_app, drop_app_length.
    unfold len. rewrite Nat2Z.id, concat_slice by exact Hlook.
    reflexivity. }
  rewrite Fsc, Ftc, Hdesc', Hstrings. reflexivity.
Qed.

End rebuilt.

Section rebuilt_again.
Context `{Runtime}.
Import Writer.

(** Rebuilding a rebuilt container from the same document. *)
Lemma rebuild_again scw txt out :
  valid_container scw -> 0 <= addon_size scw ->
  process_scw scw txt = Written out ->
  process_scw out txt = Written out.
Proof.
  intros Hvalid Has Hrun.
  destruct (regions_valid scw Hvalid) as [Hidxlen Hcmdlen].
  pose proof Hvalid as (Hcc & Hsc & Hac & Hcs & Hcl & Hcontent).
  pose proof (process_scw_written _ _ _ Hrun)
    as [header_txt new_strings es0 ni0 ph0 _ _ Hparse Hh Hs Hdsc Hdtc
          _ _ _ _].
  destruct (rebuild_closed scw txt out Hrun Hcc)
    as (h' & ss' & new_index & Hparse' & Hlen & Hnew & Hbound & Hrange
        & Hsize & Hout).
  rewrite Hparse in Hparse'. injection Hparse' as <- <-.
  set (es := map encoded new_strings) in *.
  set (n := Z.to_nat (string_count scw)) in *.
  set (o := Z.to_nat (command_count scw * 8)) in *.
  set (new_content := new_index ++ command_region scw ++ concat es
                      ++ addon_region scw) in *.
  assert (Hisz : index_table_size scw
                 = (command_count scw + string_count scw + addon_count scw)
                   * 8) by reflexivity.
  assert (Hfit : (o + 8 * n <= length (index_region scw))%nat) by lia.
  assert (Hes : (n <= length es)%nat).
  { destruct (decide (n = 0%nat)) as [->|Hn]; [lia|]. apply Hbound, Hn. }
  assert (Hpre : length (take o (index_region scw)) = o)
    by (rewrite length_take; lia).
  assert (Hent : length (index_entries 0 (take n es)) = (8 * n)%nat)
    by (rewrite length_index_entries, length_take; lia).
  assert (Hnewlen : length new_index = length (index_region scw)).
  { rewrite Hnew. rewrite !length_app, Hpre, Hent, length_drop. lia. }
  assert (Haddon : (length (addon_region scw)
                    <= Z.to_nat (addon_size scw))%nat).
  { unfold addon_region, regions, split_content. cbn [snd].
    etransitivity; [apply slice_length_le; lia|]. lia. }
  destruct (regions_of_layout scw out new_index (command_region scw)
              (concat es) (addon_region scw) Hlen ltac:(lia) Hcs Has
              ltac:(fold new_content; lia) ltac:(lia) Hcmdlen Haddon Hout)
    as (Hcl' & Hread' & Hreg').
  fold new_content in Hcl', Hread'.
  destruct (header_parts scw out _ _ new_content Hlen
              (length_le_encode 4 _) (length_le_encode 4 _) Hout)
    as (Hframe & _ & _ & Hhead & Hrest).
  destruct (frame_fields scw out Hframe)
    as (Fcc & Fsc & Fac & Fcs & Ftc & Fmagic & Fdesc).
  assert (Hout_len : (452 <= length out)%nat).
  { rewrite <- (take_drop 452 out), length_app, Hhead.
    rewrite !length_app, !length_take, !length_drop, !length_le_encode. lia. }
  pose proof (len_nonneg new_content) as Hnn.
  assert (Hstrs : 0 <= len (concat es) <= len new_content).
  { unfold new_content. rewrite !len_app.
    pose proof (len_nonneg new_index).
    pose proof (len_nonneg (command_region scw)).
    pose proof (len_nonneg (concat es)).
    pose proof (len_nonneg (addon_region scw)). lia. }
  apply rebuild_process_scw.
  refine (Rebuild _ out txt out header_txt new_strings es new_index
            (take 452 out) Hout_len _ Hparse Hh Hs _ _ _ _ _ _).
  - rewrite Hcl'. lia.
  - rewrite Fsc. exact Hdsc.
  - rewrite Ftc. exact Hdtc.
  - apply encode_strings_eq.
  - unfold index_region. rewrite Hreg'. cbn [fst snd]. rewrite Fcc, Fsc.
    replace (seqZ 0 (string_count scw)) with (seqZ 0 (Z.of_nat n))
      by (unfold n; rewrite Z2Nat.id by lia; reflexivity).
    pose proof (update_index_run (command_count scw) es n Hcc 0
                  new_index 0 ltac:(lia) ltac:(lia)) as Hupd.
    cbv zeta in Hupd. rewrite Z.add_0_r in Hupd.
    change (Z.to_nat 0) with 0%nat in Hupd. rewrite drop_0 in Hupd.
    fold o in Hupd.
    rewrite Hupd.
    + f_equal. rewrite Hnew at 3.
      rewrite Hnew at 1. rewrite take_app_length' by (symmetry; exact Hpre).
      rewrite Hnew at 1.
      rewrite <- (Nat.add_0_r (o + 8 * n)) at 1.
      rewrite (splice_drop _ _ _ o (8 * n) 0 Hpre Hent), drop_0.
      reflexivity.
    + lia.
    + lia.
    + pose proof (len_concat_take es n). lia.
  - unfold command_region, addon_region. rewrite Hreg'. cbn [fst snd].
    fold (command_region scw). fold (addon_region scw). fold new_content.
    rewrite patched_header_ok by (assumption || lia).
    destruct Hframe as (H1 & H2 & H3). rewrite H1, H2, H3, Hhead.
    reflexivity.
  - unfold command_region, addon_region. rewrite Hreg'. cbn [fst snd].
    fold (command_region scw). fold (addon_region scw). fold new_content.
    rewrite <- Hrest. symmetry. apply take_drop.
Qed.

End rebuilt_again.

Section refusals.
Context `{Runtime}.
Import Writer.

(** [process_scw] once header and content area have been read. *)
Lemma process_scw_read scw txt :
  (452 <= length scw)%nat -> - 1 <= content_length scw ->
  process_scw scw txt =
    match process_content (header_fields scw) (content_read scw)
            (command_count scw) (string_count scw) (addon_count scw)
            (command_size scw) (string_size scw) (addon_size scw)
            (text_count scw) txt with
    | Ok o => o
    | Raise e => Failed e
    end.
Proof.
  intros Hlen Hcl. unfold process_scw.
  rewrite process_scw_try_long by exact Hlen.
  rewrite read_content by exact Hcl. reflexivity.
Qed.

Lemma parse_failed_iff scw txt :
  (452 <= length scw)%nat -> - 1 <= content_length scw ->
  process_scw scw txt = ParseFailed <->
  parse_txt txt = Ok None
  \/ (exists ss, parse_txt txt = Ok (Some (∅, ss)))
  \/ (exists h, parse_txt txt = Ok (Some (h, []))).
Proof.
  intros Hlen Hcl. rewrite process_scw_read by assumption.
  rewrite process_content_regions.
  destruct (parse_txt txt) as [[[h ss]|]|e]; cbn [mbind result_bind].
  2: { split; auto. }
  2: { split; [discriminate|]. intros [|[[? ?]|[? ?]]]; discriminate. }
  destruct (decide (h = ∅)) as [->|Hh].
  { rewrite bool_decide_eq_true_2 by reflexivity. cbn [orb].
    split; eauto. }
  rewrite (bool_decide_eq_false_2 _ Hh). cbn [orb].
  destruct (decide (ss = [])) as [->|Hs].
  { rewrite bool_decide_eq_true_2 by reflexivity. split; eauto. }
  rewrite (bool_decide_eq_false_2 _ Hs).
  split.
  - destruct (declared h STRING_COUNT); cbn [mbind result_bind];
      [|discriminate].
    destruct (declared h TEXT_COUNT); cbn [mbind result_bind];
      [|discriminate].
    destruct (_ || _); [discriminate|].
    destruct (encode_strings ss); cbn [mbind result_bind]; [|discriminate].
    destruct (update_index _ _ _ _ _); cbn [mbind result_bind];
      [|discriminate].
    destruct (patched_header _ _ _); cbn [mbind result_bind]; discriminate.
  - intros [|[[? ?]|[? ?]]]; congruence.
Qed.

End refusals.

Section counts.
Context `{Runtime}.
Import Writer.

(** [process_scw] takes from the header block of the document the two
    declared counts and whether the block is empty. *)
Lemma process_scw_counts (scw : bytes) (txt1 txt2 : str)
    (h1 h2 : gmap str str) (ss : list str) :
  parse_txt txt1 = Ok (Some (h1, ss)) ->
  parse_txt txt2 = Ok (Some (h2, ss)) ->
  h1 <> ∅ -> h2 <> ∅ ->
  declared h1 STRING_COUNT = declared h2 STRING_COUNT ->
  declared h1 TEXT_COUNT = declared h2 TEXT_COUNT ->
  process_scw scw txt1 = process_scw scw txt2.
Proof.
  intros Hp1 Hp2 Hh1 Hh2 Hsc Htc.
  unfold process_scw, process_scw_try.
  destruct (read FileHeadLen (open_rb scw)) as [[header_data f]|e];
    [|reflexivity].
  cbn [mbind result_bind].
  destruct (unpack HEADER_FMT header_data) as [fields|e];
    [|reflexivity].
  cbn [mbind result_bind].
  do 17 (try (destruct fields as [|[?|?] fields]; try reflexivity)).
  destruct (seek FileHeadLen f) as [f'|e]; [|reflexivity].
  cbn [mbind result_bind].
  destruct (read _ f') as [[content f'']|e]; [|reflexivity].
  cbn [mbind result_bind].
  unfold process_content.
  destruct (split_content _ _ _ _ _ _ _) as [[[idx cmd] strs] addon].
  rewrite Hp1, Hp2. cbn [mbind result_bind].
  rewrite (bool_decide_eq_false_2 _ Hh1), (bool_decide_eq_false_2 _ Hh2).
  rewrite Hsc, Htc. reflexivity.
Qed.

(** The container a rebuild writes is of the same kind as the original. *)
Lemma rebuilt_valid scw txt out :
  valid_container scw -> 0 <= addon_size scw ->
  process_scw scw txt = Written out ->
  valid_container out /\ 0 <= addon_size out
  /\ same_header_frame scw out.
Proof.
  intros Hvalid Has Hrun.
  destruct (regions_valid scw Hvalid) as [Hidxlen Hcmdlen].
  pose proof Hvalid as (Hcc & Hsc & Hac & Hcs & Hcl & Hcontent).
  destruct (rebuild_closed scw txt out Hrun Hcc)
    as (h' & ss' & new_index & Hparse' & Hlen & Hnew & Hbound & Hrange
        & Hsize & Hout).
  set (es := map encoded ss') in *.
  set (n := Z.to_nat (string_count scw)) in *.
  set (o := Z.to_nat (command_count scw * 8)) in *.
  set (new_content := new_index ++ command_region scw ++ concat es
                      ++ addon_region scw) in *.
  assert (Hisz : index_table_size scw
                 = (command_count scw + string_count scw + addon_count scw)
                   * 8) by reflexivity.
  assert (Hes : (n <= length es)%nat).
  { destruct (decide (n = 0%nat)) as [->|Hn]; [lia|]. apply Hbound, Hn. }
  assert (Hnewlen : length new_index = length (index_region scw)).
  { rewrite Hnew.
    rewrite !length_app, length_index_entries, !length_take, length_drop.
    lia. }
  assert (Haddon : (length (addon_region scw)
                    <= Z.to_nat (addon_size scw))%nat).
  { unfold addon_region, regions, split_content. cbn [snd].
    etransitivity; [apply slice_length_le; lia|]. lia. }
  destruct (regions_of_layout scw out new_index (command_region scw)
              (concat es) (addon_region scw) Hlen ltac:(lia) Hcs Has
              ltac:(fold new_content; lia) ltac:(lia) Hcmdlen Haddon Hout)
    as (Hcl' & Hread' & Hreg').
  fold new_content in Hcl', Hread'.
  destruct (header_parts scw out _ _ new_content Hlen
              (length_le_encode 4 _) (length_le_encode 4 _) Hout)
    as (Hframe & _ & _ & Hhead & Hrest).
  destruct (frame_fields scw out Hframe)
    as (Fcc & Fsc & Fac & Fcs & Ftc & Fmagic & Fdesc).
  assert (Fas : addon_size out = addon_size scw).
  { unfold addon_size, int_at. change (Z.to_nat 0x38) with 56%nat.
    rewrite (frame_int_at scw out 56 Hframe) by lia. reflexivity. }
  split; [|split; [lia|exact Hframe]].
  unfold valid_container, index_table_size.
  rewrite Fcc, Fsc, Fac, Fcs, Hcl', Hread'.
  pose proof (len_nonneg new_content).
  repeat split; try assumption; try lia.
  rewrite <- Hisz. unfold new_content. rewrite !len_app.
  pose proof (len_nonneg (concat es)).
  pose proof (len_nonneg (addon_region scw)).
  unfold len at 1 2. lia.
Qed.

(** Extracting a rebuilt container and rebuilding it from the document
    extracted writes the same container. *)
Lemma rebuilt_fixed_point (scw : bytes) (txt : str) (out : bytes)
    (h : gmap str str) (ss : list str) :
  valid_container scw -> 0 <= addon_size scw ->
  decode ascii_decode_step Strict (rstrip_nul (take 16 scw)) = Ok MAGIC ->
  text_count scw <> 0 ->
  single_line (description scw) = true ->
  (forall i, 1 <= i <= string_count scw \/ i = text_count scw ->
             int (str_int i) = Ok i) ->
  process_scw scw txt = Written out ->
  parse_txt txt = Ok (Some (h, ss)) ->
  len ss = string_count scw ->
  Forall codec_stable ss ->
  let doc := Extractor.document (string_count scw) (text_count scw)
               (description scw) ss in
  Extractor.extract_scw_file out = Extractor.Extracted doc ss
  /\ process_scw out doc = Written out.
Proof.
  intros Hvalid Has Hmagic Htc Hdesc Hint Hrun Hparse Hlenss Hstable doc.
  pose proof (extract_rebuilt scw txt out h ss Hvalid Hmagic Htc Hrun Hparse)
    as Hex.
  cbv zeta in Hex.
  assert (Hall : take (Z.to_nat (string_count scw)) ss = ss)
    by (apply firstn_all2; unfold len in Hlenss; lia).
  assert (Hstrs : map recoded (take (Z.to_nat (string_count scw)) ss) = ss).
  { rewrite Hall. rewrite <- (map_id ss) at 2.
    apply map_ext_Forall.
    eapply Forall_impl; [exact Hstable|].
    intros s Hs. apply recoded_stable, Hs. }
  rewrite Hstrs in Hex. split; [exact Hex|].
  pose proof (process_scw_written _ _ _ Hrun)
    as [h0 ss0 es0 ni0 ph0 _ _ Hparse0 Hh Hs Hdsc Hdtc _ _ _ _].
  rewrite Hparse in Hparse0. injection Hparse0 as <- <-.
  destruct (parse_written_document (string_count scw) (text_count scw)
              (description scw) ss Hdesc (parse_txt_safe _ _ _ Hparse))
    as (h' & Hparse' & Hh_sc & Hh_tc).
  { intros i Hi. apply Hint. lia. }
  assert (Hsc1 : 1 <= string_count scw).
  { destruct ss; [congruence|]. unfold len in Hlenss.
    cbn [length] in Hlenss. lia. }
  rewrite (process_scw_counts out doc txt h' h ss Hparse' Hparse).
  - apply (rebuild_again scw txt out Hvalid Has Hrun).
  - intros ->. rewrite lookup_empty in Hh_sc. discriminate.
  - exact Hh.
  - unfold declared at 1. rewrite Hh_sc, Hdsc. apply Hint. lia.
  - unfold declared at 1. rewrite Hh_tc, Hdtc. apply Hint. auto.
Qed.

End counts.

(* ================================================================== *)
(** * What the scripts read of a container *)
(* ================================================================== *)

Lemma int_at_from (k : nat) (a b : bytes) (off : nat) :
  drop k a = drop k b -> (k <= off)%nat -> int_at a off = int_at b off.
Proof.
  intros Hab Hk. unfold int_at.
  replace off with (k + (off - k))%nat by lia.
  rewrite <- !drop_drop, Hab. reflexivity.
Qed.

Lemma drop_from {A} (k : nat) (a b : list A) (off : nat) :
  drop k a = drop k b -> (k <= off)%nat -> drop off a = drop off b.
Proof.
  intros Hab Hk. replace off with (k + (off - k))%nat by lia.
  rewrite <- !drop_drop, Hab. reflexivity.
Qed.

Lemma int_at_take (n : nat) (a : bytes) (off : nat) :
  (off + 4 <= n)%nat -> int_at (take n a) off = int_at a off.
Proof.
  intros Hn. unfold int_at. rewrite take_drop_prefix by lia. reflexivity.
Qed.

Section writer_frame.
Context `{Runtime}.
Import Writer.

Lemma regions_from (a b : bytes) :
  drop 24 a = drop 24 b -> regions a = regions b.
Proof.
  intros Hab. unfold regions, content_read, content_length, command_count,
    string_count, addon_count, command_size, string_size, addon_size.
  rewrite !(int_at_from 24 a b _ Hab) by (cbn; lia).
  rewrite (drop_from 24 a b 452 Hab) by lia. reflexivity.
Qed.

(** The first 24 octets of the container, magic, version and compression
    flag, are copied and never looked at. *)
Lemma process_scw_prefix scw txt out (pre : bytes) :
  length pre = 24%nat ->
  process_scw scw txt = Written out ->
  process_scw (pre ++ drop 24 scw) txt = Written (pre ++ drop 24 out).
Proof.
  intros Hpre Hrun.
  destruct (process_scw_written _ _ _ Hrun)
    as [h ss es ni ph Hlen Hcl Hparse Hh Hs Hsc Htc Henc Hidx Hpack Hout].
  set (scw' := pre ++ drop 24 scw).
  assert (Hdrop : drop 24 scw' = drop 24 scw)
    by (unfold scw'; apply drop_app_length'; symmetry; exact Hpre).
  assert (Hlen' : (452 <= length scw')%nat)
    by (unfold scw'; rewrite length_app, length_drop; lia).
  pose proof (regions_from scw' scw Hdrop) as Hreg.
  assert (Hfield : forall off : nat,
             (24 <= off)%nat -> int_at scw' off = int_at scw off)
    by (intros off Hoff; apply (int_at_from 24); assumption).
  destruct (patched_header_inv _ _ _ _ Hpack) as [Ha Hb].
  rewrite patched_header_ok in Hpack by assumption.
  injection Hpack as <-.
  apply rebuild_process_scw.
  refine (Rebuild _ scw' txt _ h ss es ni
            (pre ++ drop 24 (take 24 scw ++ _))
            Hlen' _ Hparse Hh Hs _ _ Henc _ _ _).
  - unfold content_length. rewrite Hfield by (cbn; lia). exact Hcl.
  - unfold string_count. rewrite Hfield by (cbn; lia). exact Hsc.
  - unfold text_count. rewrite Hfield by (cbn; lia). exact Htc.
  - unfold command_count, string_count, index_region.
    rewrite !Hfield by (cbn; lia). rewrite Hreg. exact Hidx.
  - unfold command_region, addon_region. rewrite Hreg.
    fold (command_region scw). fold (addon_region scw).
    rewrite patched_header_ok by assumption. f_equal.
    assert (H24 : length (take 24 scw) = 24%nat)
      by (rewrite length_take; lia).
    rewrite (drop_app_length' _ _ _ (eq_sym H24)).
    unfold scw' at 1. rewrite (take_app_length' _ _ _ (eq_sym Hpre)).
    rewrite (drop_from 24 scw' scw 28 Hdrop) by lia.
    rewrite (drop_from 24 scw' scw 56 Hdrop) by lia.
    reflexivity.
  - unfold command_region, addon_region. rewrite Hreg.
    fold (command_region scw). fold (addon_region scw).
    rewrite Hout.
    assert (H24 : length (take 24 scw) = 24%nat)
      by (rewrite length_take; lia).
    rewrite <- !app_assoc.
    rewrite !(drop_app_length' _ _ _ (eq_sym H24)). reflexivity.
Qed.

(** Octets after the content area that [contentLength] declares are not
    read. *)
Lemma process_scw_limit scw txt :
  (452 <= length scw)%nat -> 0 <= content_length scw ->
  process_scw (take (452 + Z.to_nat (content_length scw)) scw) txt =
    process_scw scw txt.
Proof.
  intros Hlen Hcl.
  set (n := (452 + Z.to_nat (content_length scw))%nat).
  assert (Hf : forall off : nat,
             (off + 4 <= 452)%nat -> int_at (take n scw) off = int_at scw off)
    by (intros off Hoff; apply int_at_take; unfold n; lia).
  assert (Hcl' : content_length (take n scw) = content_length scw)
    by (apply Hf; cbn; lia).
  rewrite (process_scw_read (take n scw))
    by (rewrite ?length_take, ?Hcl'; unfold n; lia).
  rewrite (process_scw_read scw) by (assumption || lia).
  assert (Hhead : header_fields (take n scw) = header_fields scw).
  { unfold header_fields. rewrite take_take.
    replace (452 `min` n)%nat with 452%nat by (unfold n; lia).
    reflexivity. }
  assert (Hread : content_read (take n scw) = content_read scw).
  { unfold content_read. rewrite Hcl'.
    destruct (content_length scw =? -1) eqn:E; [lia|].
    apply take_drop_prefix. unfold n. lia. }
  unfold command_count, string_count, addon_count, command_size,
    string_size, addon_size, text_count.
  rewrite Hhead, Hread, !Hf by (cbn; lia). reflexivity.
Qed.

End writer_frame.

Lemma int_at_block (data : bytes) (base off m : nat) :
  (off + 4 <= m)%nat ->
  int_at data (base + off) =
    signed32 (le_decode (take 4 (drop off (take m (drop base data))))).
Proof.
  intros Hm. unfold int_at.
  rewrite take_drop_prefix by lia. rewrite drop_drop. reflexivity.
Qed.

Section extractor_table.
Context `{Runtime}.
Import Extractor.

Lemma extract_incomplete data :
  (68 <= length data)%nat ->
  decode ascii_decode_step Strict (rstrip_nul (take 16 data)) = Ok MAGIC ->
  text_count data <> 0 ->
  0 <= index_table_size data ->
  len (content_region data) < index_table_size data ->
  extract_scw_file data = IncompleteIndex.
Proof.
  intros Hlen Hmagic Htc Hisz Hshort. unfold extract_scw_file.
  rewrite extract_try_long by exact Hlen. unfold after_header.
  rewrite Hmagic. cbn [mbind result_bind].
  change (negb (str_eqb MAGIC MAGIC)) with false. cbv iota.
  destruct (description_eq data) as (dtext & -> & _).
  cbn [mbind result_bind].
  apply Z.eqb_neq in Htc. rewrite Htc.
  rewrite read_spec by exact Hisz. cbn [mbind result_bind].
  replace (len _ =? index_table_size data) with false; [reflexivity|].
  symmetry. apply Z.eqb_neq.
  unfold len, content_region in *. rewrite length_take. lia.
Qed.

(** The outcome of an extraction, case by case, for counts and command
    size that are not negative. *)
Lemma extract_cases data :
  0 <= command_count data -> 0 <= string_count data ->
  0 <= addon_count data -> 0 <= command_size data ->
  extract_scw_file data =
    match decode ascii_decode_step Strict (rstrip_nul (take 16 data)) with
    | Raise e => Failed e
    | Ok magic =>
        if negb (str_eqb magic MAGIC) then InvalidMagic
        else if bool_decide (length data < 68)%nat then Failed StructError
        else if text_count data =? 0 then TextCountZero
        else if len (content_region data) <? index_table_size data
        then IncompleteIndex
        else Extracted
               (document (string_count data) (text_count data)
                  (description data) (decoded_strings data))
               (decoded_strings data)
    end.
Proof.
  intros Hcc Hsc Hac Hcs.
  destruct (decode ascii_decode_step Strict (rstrip_nul (take 16 data)))
    as [magic|e] eqn:Hdec.
  2: { unfold extract_scw_file. rewrite extract_try_magic, Hdec.
       reflexivity. }
  unfold str_eqb. destruct (decide (magic = MAGIC)) as [->|Hne].
  2: { rewrite bool_decide_eq_false_2 by exact Hne. cbn [negb].
       unfold extract_scw_file. rewrite extract_try_magic, Hdec.
       cbn [mbind result_bind]. unfold str_eqb.
       rewrite bool_decide_eq_false_2 by exact Hne. reflexivity. }
  rewrite bool_decide_eq_true_2 by reflexivity. cbn [negb].
  destruct (decide (length data < 68)%nat) as [Hshort|Hlong].
  { rewrite bool_decide_eq_true_2 by exact Hshort.
    unfold extract_scw_file.
    rewrite extract_try_short_header by (assumption || lia). reflexivity. }
  rewrite bool_decide_eq_false_2 by exact Hlong.
  assert (Hisz : 0 <= index_table_size data)
    by (unfold index_table_size; lia).
  destruct (Z.eqb_spec (text_count data) 0) as [Htc|Htc].
  { unfold extract_scw_file.
    rewrite extract_try_long by lia. unfold after_header.
    rewrite Hdec. cbn [mbind result_bind].
    change (negb (str_eqb MAGIC MAGIC)) with false. cbv iota.
    destruct (description_eq data) as (dtext & -> & _).
    cbn [mbind result_bind]. rewrite Htc. reflexivity. }
  destruct (Z.ltb_spec (len (content_region data)) (index_table_size data))
    as [Hinc|Hfull].
  { apply extract_incomplete; assumption || lia. }
  apply extract_valid; try assumption.
  unfold extractable. repeat split; try assumption; lia.
Qed.

(** The extractor takes nothing from a file but what [extractor_reads]
    holds. *)
Lemma extract_reads a b :
  extractor_reads a = extractor_reads b ->
  0 <= command_count a -> 0 <= string_count a ->
  0 <= addon_count a -> 0 <= command_size a ->
  extract_scw_file a = extract_scw_file b.
Proof.
  unfold extractor_reads. intros [= Hlen Hmagic Hcounts Htc Hrest]
    Hcc Hsc Hac Hcs.
  assert (Fcc : command_count b = command_count a).
  { unfold command_count. change (Z.to_nat 0x24) with (36 + 0)%nat.
    rewrite !(int_at_block _ 36 0 16) by lia. rewrite Hcounts.
    reflexivity. }
  assert (Fsc : string_count b = string_count a).
  { unfold string_count. change (Z.to_nat 0x28) with (36 + 4)%nat.
    rewrite !(int_at_block _ 36 4 16) by lia. rewrite Hcounts.
    reflexivity. }
  assert (Fac : addon_count b = addon_count a).
  { unfold addon_count. change (Z.to_nat 0x2C) with (36 + 8)%nat.
    rewrite !(int_at_block _ 36 8 16) by lia. rewrite Hcounts.
    reflexivity. }
  assert (Fcs : command_size b = command_size a).
  { unfold command_size. change (Z.to_nat 0x30) with (36 + 12)%nat.
    rewrite !(int_at_block _ 36 12 16) by lia. rewrite Hcounts.
    reflexivity. }
  assert (Ftc : text_count b = text_count a).
  { unfold text_count, int_at. change (Z.to_nat 0x40) with 64%nat.
    rewrite Htc. reflexivity. }
  assert (Fisz : index_table_size b = index_table_size a)
    by (unfold index_table_size; rewrite Fcc, Fsc, Fac; reflexivity).
  assert (Fdesc : description b = description a).
  { unfold description. rewrite Hrest. reflexivity. }
  assert (Fcontent : content_region b = content_region a).
  { unfold content_region. symmetry. apply (drop_from 196); [exact Hrest|].
    lia. }
  assert (Fstrings : decoded_strings b = decoded_strings a).
  { unfold decoded_strings. rewrite Fsc.
    apply map_ext_Forall, Forall_forall. intros i Hi%elem_of_seqZ.
    unfold string_of_entry, string_region_start, entry_start, entry_length,
      uint_at, string_entry_offset, header_length, octets_at.
    rewrite Fisz, Fcs, Fcc.
    assert (Hoff : (196 <= Z.to_nat (452 + (command_count a + i) * 8))%nat)
      by lia.
    rewrite (drop_from 196 b a _ (eq_sym Hrest) Hoff).
    rewrite (drop_from 196 b a
               (Z.to_nat (452 + (command_count a + i) * 8) + 4)
               (eq_sym Hrest)) by lia.
    pose proof (le_decode_nonneg
                  (take 4 (drop (Z.to_nat (452 + (command_count a + i) * 8))
                             a))) as Hstart.
    assert (Hisz : 0 <= index_table_size a)
      by (unfold index_table_size; lia).
    rewrite (drop_from 196 b a _ (eq_sym Hrest)) by lia.
    reflexivity. }
  rewrite (extract_cases a) by assumption.
  rewrite (extract_cases b) by (rewrite ?Fcc, ?Fsc, ?Fac, ?Fcs; assumption).
  rewrite Hlen, Hmagic, Ftc, Fisz, Fcontent, Fsc, Fdesc, Fstrings.
  reflexivity.
Qed.

End extractor_table.

(* ================================================================== *)
(** * The loops of the [main] functions *)
(* ================================================================== *)

Section extractor_main.
Context {world path : Type}.
Variable scw_path : str -> str -> path.
Variable with_suffix_txt : path -> path.
Variable exists_ : path -> world -> bool.
Variable output_path : path -> path -> option path.
Variable mkdir_parent : path -> world -> attempt world.
Variable rename : path -> path -> world -> attempt world.
Variable extract_scw_file : path -> world -> world.
Import ExtractorMain.

Local Abbreviation step :=
  (extract_one scw_path with_suffix_txt exists_ output_path mkdir_parent
     rename extract_scw_file).

Lemma extract_one_tally root file st :
  extract_tally (step root file st).1 =
    extract_tally st.1 + (if negb (has_dot file) then 1 else 0).
Proof.
  destruct st as [c w]. unfold extract_one, extract_tally.
  destruct (negb (has_dot file)); [|cbn; lia].
  destruct (exists_ _ _); [|cbn; lia].
  destruct (output_path _ _); [|cbn; lia].
  destruct (mkdir_parent _ _); [|cbn; lia].
  destruct (rename _ _ _); cbn; lia.
Qed.

Lemma extract_dir_tally root files st :
  extract_tally (fold_left (fun st file => step root file st) files st).1 =
    extract_tally st.1
    + len (List.filter (fun f => negb (has_dot f)) files).
Proof.
  revert st. induction files as [|file files IH]; intros st.
  - unfold len. cbn. lia.
  - cbn [fold_left List.filter]. rewrite IH, extract_one_tally.
    destruct (negb (has_dot file)); unfold len; cbn [length]; lia.
Qed.

Lemma extract_walk_tally walk st :
  extract_tally (fold_left (fun st '(root, files) =>
                        fold_left (fun st file => step root file st)
                          files st) walk st).1 =
    extract_tally st.1 + len (script_names walk).
Proof.
  revert st. induction walk as [|[root files] walk IH]; intros st.
  - unfold len. cbn. lia.
  - cbn [fold_left script_names flat_map]. rewrite IH, extract_dir_tally.
    unfold len. rewrite length_app. cbn [snd]. fold (script_names walk). lia.
Qed.

End extractor_main.

Section writer_main.
Context {world : Type}.
Variable join : str -> str -> str.
Variable join3 : str -> str -> str -> str.
Variable relpath : str -> str -> option str.
Variable dirname : str -> str.
Variable makedirs : str -> world -> attempt world.
Variable warning : str -> world -> world.
Variable process_scw : str -> str -> str -> world -> bool * world.
Import WriterMain.

Local Abbreviation step :=
  (rebuild_one join join3 relpath dirname makedirs warning process_scw).

Lemma rebuild_one_tally txt_dir new_scr_dir files root file st st' :
  step txt_dir new_scr_dir files root file st = Some st' ->
  rebuild_tally st'.1 =
    rebuild_tally st.1 + (if endswith TXT_SUFFIX file then 1 else 0).
Proof.
  destruct st as [c w]. unfold rebuild_one, rebuild_tally.
  destruct (endswith TXT_SUFFIX file); [|intros [= <-]; cbn; lia].
  destruct (files !! slice_to file (-4)) as [[|x p]|].
  1, 3: intros [= <-]; cbn; lia.
  destruct (relpath _ _); [|discriminate].
  destruct (makedirs _ _); [|discriminate].
  destruct (process_scw _ _ _ _) as [[|] w']; intros [= <-]; cbn; lia.
Qed.

Lemma rebuild_dir_tally txt_dir new_scr_dir files root names st st' :
  foldl (fun st file =>
           st ← st; step txt_dir new_scr_dir files root file st)
    st names = Some st' ->
  exists st0, st = Some st0
    /\ rebuild_tally st'.1 =
         rebuild_tally st0.1
         + len (List.filter (endswith TXT_SUFFIX) names).
Proof.
  revert st. induction names as [|file names IH]; intros st.
  - cbn. intros ->. eexists. split; [reflexivity|]. unfold len. cbn. lia.
  - cbn [foldl List.filter]. intros Hrest.
    destruct (IH _ Hrest) as (st1 & Hst1 & Htot).
    destruct st as [st0|]; [|discriminate]. cbn in Hst1.
    exists st0. split; [reflexivity|].
    rewrite Htot, (rebuild_one_tally _ _ _ _ _ _ _ Hst1).
    destruct (endswith TXT_SUFFIX file); unfold len; cbn [length]; lia.
Qed.

Lemma rebuild_all_tally txt_dir new_scr_dir files walk st st' :
  foldl (fun st '(root, names) =>
           foldl (fun st file =>
                    st ← st; step txt_dir new_scr_dir files root file st)
             st names) st walk = Some st' ->
  exists st0, st = Some st0
    /\ rebuild_tally st'.1 = rebuild_tally st0.1 + len (text_names walk).
Proof.
  revert st. induction walk as [|[root names] walk IH]; intros st.
  - cbn. intros ->. eexists. split; [reflexivity|]. unfold len. cbn. lia.
  - cbn [foldl text_names flat_map]. intros Hrest.
    destruct (IH _ Hrest) as (st1 & Hst1 & Htot).
    destruct (rebuild_dir_tally _ _ _ _ _ _ _ Hst1)
      as (st0 & -> & Htot0).
    exists st0. split; [reflexivity|].
    rewrite Htot, Htot0. unfold len. rewrite length_app. cbn [snd].
    fold (text_names walk). lia.
Qed.

(** ** The dictionary of script files *)

Definition scan_dir (root : str) (files : list str) (m : gmap str str)
    : gmap str str :=
  fold_left (fun m file =>
               if negb (has_dot file) then <[file := join root file]> m
               else m) files m.

Lemma scan_dir_lookup root files m (name : str) :
  scan_dir root files m !! name =
    if bool_decide (name ∈ files) && negb (has_dot name)
    then Some (join root name) else m !! name.
Proof.
  revert m. induction files as [|file files IH]; intros m.
  - cbn. rewrite bool_decide_eq_false_2 by apply not_elem_of_nil.
    reflexivity.
  - change (scan_dir root (file :: files) m)
      with (scan_dir root files
              (if negb (has_dot file) then <[file := join root file]> m
               else m)).
    rewrite IH.
    destruct (decide (name ∈ files)) as [Hin|Hnot].
    + rewrite !bool_decide_eq_true_2 by (try right; exact Hin).
      destruct (negb (has_dot name)) eqn:Hdot; [reflexivity|].
      cbn [andb]. destruct (negb (has_dot file)) eqn:Hd; [|reflexivity].
      apply lookup_insert_ne. intros ->. congruence.
    + rewrite (bool_decide_eq_false_2 _ Hnot). cbn [andb].
      destruct (decide (name = file)) as [->|Hne].
      * rewrite bool_decide_eq_true_2 by left.
        destruct (negb (has_dot file)); cbn [andb];
          [apply lookup_insert_eq|reflexivity].
      * rewrite bool_decide_eq_false_2
          by (intros [?|?]%elem_of_cons; contradiction).
        cbn [andb]. destruct (negb (has_dot file)); [|reflexivity].
        apply lookup_insert_ne. congruence.
Qed.

Lemma scw_files_snoc walk root files :
  scw_files join (walk ++ [(root, files)]) =
    scan_dir root files (scw_files join walk).
Proof. unfold scw_files. rewrite fold_left_app. reflexivity. Qed.

Lemma scw_files_lookup (walk : list (str * list str)) (name p : str) :
  scw_files join walk !! name = Some p <->
  has_dot name = false
  /\ exists pre root files post,
       walk = pre ++ (root, files) :: post
       /\ name ∈ files /\ p = join root name
       /\ Forall (fun d => name ∉ d.2) post.
Proof.
  induction walk as [|[r fs] walk IH] using rev_ind.
  - cbn. rewrite lookup_empty. split; [discriminate|].
    intros (_ & pre & root & files & post & Hw & _).
    destruct pre; discriminate.
  - rewrite scw_files_snoc, scan_dir_lookup.
    destruct (decide (name ∈ fs)) as [Hin|Hnot].
    + rewrite bool_decide_eq_true_2 by exact Hin. cbn [andb].
      destruct (has_dot name) eqn:Hdot; cbn [negb].
      * rewrite IH. split; intros [Hd _]; discriminate.
      * split.
        -- intros [= <-]. split; [reflexivity|].
           exists walk, r, fs, []. auto.
        -- intros (_ & pre & root & files & post & Hw & Hf & -> & Hpost).
           destruct post as [|d post _] using rev_ind.
           ++ apply app_inj_tail in Hw as [_ Heq].
              congruence.
           ++ rewrite app_comm_cons, app_assoc in Hw.
              apply app_inj_tail in Hw as [_ <-].
              apply Forall_app in Hpost as [_ Hlast].
              inversion Hlast as [|? ? Hd _]; subst. cbn in Hd.
              contradiction.
    + rewrite bool_decide_eq_false_2 by exact Hnot. cbn [andb].
      rewrite IH. split.
      * intros (Hd & pre & root & files & post & -> & Hf & -> & Hpost).
        split; [exact Hd|].
        exists pre, root, files, (post ++ [(r, fs)]).
        rewrite <- app_assoc. repeat split; auto.
        apply Forall_app. split; [exact Hpost|].
        constructor; [exact Hnot|constructor].
      * intros (Hd & pre & root & files & post & Hw & Hf & -> & Hpost).
        split; [exact Hd|].
        destruct post as [|d post _] using rev_ind.
        -- apply app_inj_tail in Hw as [_ Heq].
           assert (fs = files) as -> by congruence. contradiction.
        -- rewrite app_comm_cons, app_assoc in Hw.
           apply app_inj_tail in Hw as [-> <-].
           apply Forall_app in Hpost as [Hpost _].
           exists pre, root, files, post. auto.
Qed.

End writer_main.

(* ================================================================== *)
(** * The content area, octet by octet *)
(* ================================================================== *)

(** The content area [process_scw] reads, as octets of the file. *)
Lemma content_read_octets (scw : bytes) (k m : nat) :
  (k + m <= length (content_read scw))%nat ->
  take m (drop k (content_read scw)) = take m (drop (452 + k) scw).
Proof.
  unfold content_read. destruct (content_length scw =? -1).
  - intros _. rewrite drop_drop. reflexivity.
  - rewrite length_take, length_drop. intros Hfit.
    rewrite take_drop_prefix by lia. rewrite drop_drop. reflexivity.
Qed.


(** The regions of a content area that holds them whole. *)
Lemma whole_regions (scw : bytes) :
  let content := content_read scw in
  let index_end := index_table_size scw in
  let cmd_end := index_end + command_size scw in
  let str_end := cmd_end + string_size scw in
  let addon_end := str_end + addon_size scw in
  0 <= index_end -> 0 <= command_size scw -> 0 <= string_size scw ->
  0 <= addon_size scw -> addon_end <= len content ->
  slice content 0 index_end = take (Z.to_nat index_end) content
  /\ slice content index_end cmd_end =
       take (Z.to_nat (command_size scw)) (drop (Z.to_nat index_end) content)
  /\ slice content str_end addon_end =
       take (Z.to_nat (addon_size scw)) (drop (Z.to_nat str_end) content)
  /\ length (slice content 0 index_end) = Z.to_nat index_end
  /\ length (slice content index_end cmd_end)
     = Z.to_nat (command_size scw)
  /\ length (slice content str_end addon_end) = Z.to_nat (addon_size scw).
Proof.
  intros content index_end cmd_end str_end addon_end Hi Hc Hs Ha Hfit.
  unfold len in Hfit.
  rewrite !slice_nonneg by (unfold cmd_end, str_end, addon_end; lia).
  change (Z.to_nat 0) with 0%nat. rewrite drop_0.
  replace (Z.to_nat (index_end - 0)) with (Z.to_nat index_end) by lia.
  replace (Z.to_nat (cmd_end - index_end))
    with (Z.to_nat (command_size scw)) by (unfold cmd_end; lia).
  replace (Z.to_nat (addon_end - str_end))
    with (Z.to_nat (addon_size scw)) by (unfold addon_end; lia).
  repeat split; rewrite ?length_take, ?length_drop;
    unfold cmd_end, str_end, addon_end in *; lia.
Qed.

(* ================================================================== *)
(** * Theorems *)
(* ================================================================== *)

Section claims.
Context `{Runtime}.

(** C1, as the code has it. A valid container with at least one string
    makes the full round trip when the text document can hold what was
    extracted: the description is one line, every extracted string is
    empty or made of lines that are not blank, have no white space at
    either end, do not open with a bracket and hold no carriage return,
    every extracted string comes back from the codec, [int] reads the
    decimal numbers the document carries, and the rebuilt content fits the
    32-bit [contentLength]. Then extraction yields [stringCount] strings,
    the document written rebuilds the container, and the rebuilt container
    extracts to the same document and strings; a string of several such
    lines is put together again by the line-accumulation rule. *)
Theorem C1_round_trip_of_safe_strings (scw : bytes) :
  valid_container scw ->
  1 <= string_count scw ->
  single_line (description scw) = true ->
  Forall (fun s => document_safe s = true) (decoded_strings scw) ->
  Forall codec_stable (decoded_strings scw) ->
  (forall i, 1 <= i <= string_count scw \/ i = text_count scw ->
             int (str_int i) = Ok i) ->
  rebuilt_size scw (decoded_strings scw) < 2 ^ 31 ->
  round_trip_fixed_point scw
  /\ (forall s, document_safe s = true -> s <> [] ->
                accumulate [] (split_nl s) = s).
Proof.
  intros Hvalid Hsc1 Hdesc Hsafe Hstable Hint Hsize.
  split.
  2: { intros s Hs Hne. apply accumulate_split.
       unfold document_safe in Hs.
       rewrite bool_decide_eq_false_2 in Hs by exact Hne. exact Hs. }
  intros doc ss0 Hex.
  destruct (regions_valid scw Hvalid) as [Hidxlen Hcmdlen].
  destruct Hvalid as (Hcc & Hsc & Hac & Hcs & Hcl & Hcontent).
  pose proof (extracted_inv _ _ _ Hex) as Hable.
  rewrite (extract_valid scw Hcc Hsc Hac Hcs Hable) in Hex.
  injection Hex as <- <-.
  set (ss := decoded_strings scw) in *.
  assert (Hlenss : len ss = string_count scw).
  { unfold ss, decoded_strings, len. rewrite length_map, length_seqZ. lia. }
  split; [exact Hlenss|].
  destruct Hable as (Hlong & Hmagic & Htc & Hidx).
  assert (Hisz : index_table_size scw
                 = (command_count scw + string_count scw + addon_count scw)
                   * 8) by reflexivity.
  assert (Hlen : (452 <= length scw)%nat).
  { unfold content_region, len in Hidx. rewrite length_drop in Hidx.
    lia. }
  set (es := map encoded ss).
  set (n := Z.to_nat (string_count scw)).
  set (o := Z.to_nat (command_count scw * 8)).
  assert (Hes : length es = n)
    by (unfold es, n; rewrite length_map; unfold len in Hlenss; lia).
  assert (Hfit : (o + 8 * n <= length (index_region scw))%nat) by lia.
  set (new_index := take o (index_region scw)
                    ++ index_entries 0 (take n es)
                    ++ drop (o + 8 * n) (index_region scw)).
  assert (Hnewlen : length new_index = length (index_region scw)).
  { unfold new_index.
    rewrite !length_app, length_index_entries, !length_take, length_drop.
    lia. }
  set (new_content := new_index ++ command_region scw ++ concat es
                      ++ addon_region scw).
  assert (Hcontent_len : len new_content = rebuilt_size scw ss).
  { unfold new_content, rebuilt_size, len. fold es.
    rewrite !length_app, Hnewlen. lia. }
  pose proof (len_nonneg new_content) as Hnn.
  pose proof (len_nonneg (concat es)) as Hnn_es.
  assert (Hes_le : len (concat es) <= len new_content).
  { unfold new_content. rewrite !len_app.
    pose proof (len_nonneg new_index).
    pose proof (len_nonneg (command_region scw)).
    pose proof (len_nonneg (addon_region scw)). lia. }
  set (out := (take 24 scw ++ le_encode 4 (len new_content)
               ++ take 24 (drop 28 scw) ++ le_encode 4 (len (concat es))
               ++ take 396 (drop 56 scw)) ++ new_content).
  destruct (parse_written_document (string_count scw) (text_count scw)
              (description scw) ss Hdesc Hsafe)
    as (h & Hparse & Hh_sc & Hh_tc).
  { intros i Hi. apply Hint. lia. }
  assert (Hrun : Writer.process_scw scw
                   (Extractor.document (string_count scw) (text_count scw)
                      (description scw) ss) = Writer.Written out).
  { apply rebuild_process_scw.
    refine (Rebuild _ scw _ out h ss es new_index _
              Hlen Hcl Hparse _ _ _ _ _ _ _ eq_refl).
    - intros ->. rewrite lookup_empty in Hh_sc. discriminate.
    - intros Hnil. rewrite Hnil in Hlenss. cbn in Hlenss.
      unfold len in Hlenss. cbn in Hlenss. lia.
    - unfold Writer.declared. rewrite Hh_sc. apply Hint. lia.
    - unfold Writer.declared. rewrite Hh_tc. apply Hint. auto.
    - apply encode_strings_eq.
    - replace (seqZ 0 (string_count scw)) with (seqZ 0 (Z.of_nat n))
        by (unfold n; rewrite Z2Nat.id by lia; reflexivity).
      pose proof (update_index_run (command_count scw) es n Hcc 0
                    (index_region scw) 0 ltac:(lia) ltac:(lia)) as Hupd.
      cbv zeta in Hupd. rewrite Z.add_0_r in Hupd.
      change (Z.to_nat 0) with 0%nat in Hupd. rewrite drop_0 in Hupd.
      fold o in Hupd.
      apply Hupd; [lia|lia|]. rewrite firstn_all2 by lia. lia.
    - fold new_content. apply patched_header_ok; [exact Hlen|lia|lia]. }
  exists out, (Extractor.document (string_count scw) (text_count scw)
                 (description scw) ss).
  split; [exact Hrun|].
  destruct (header_parts scw out _ _ new_content Hlen
              (length_le_encode 4 _) (length_le_encode 4 _) eq_refl)
    as (Hframe & _ & _ & Hhead & Hrest).
  destruct (frame_fields scw out Hframe)
    as (Fcc & Fsc & Fac & Fcs & Ftc & Fmagic & Fdesc).
  assert (Hout_len : (452 <= length out)%nat).
  { rewrite <- (take_drop 452 out), length_app, Hhead.
    rewrite !length_app, !length_take, !length_drop, !length_le_encode. lia. }
  assert (Hable' : extractable out).
  { unfold extractable, index_table_size, content_region.
    rewrite Fmagic, Ftc, Fcc, Fsc, Fac, Hrest.
    repeat split; try assumption; try lia.
    rewrite <- Hisz. unfold new_content. rewrite len_app.
    pose proof (len_nonneg (command_region scw ++ concat es
                            ++ addon_region scw)).
    unfold len at 1. rewrite Hnewlen. lia. }
  rewrite (extract_valid out) by (rewrite ?Fcc, ?Fsc, ?Fac, ?Fcs; assumption).
  assert (Hdesc' : description out = description scw)
    by (unfold description; rewrite Fdesc; reflexivity).
  assert (Hstrings : decoded_strings out = ss).
  { unfold decoded_strings. rewrite Fsc, <- Hlenss.
    apply map_seqZ_lookup. intros i s Hs.
    assert (Hi : (i < n)%nat)
      by (apply lookup_lt_Some in Hs; unfold len in Hlenss; lia).
    assert (Hlook : es !! i = Some (encoded s))
      by (unfold es; rewrite list_lookup_fmap, Hs; reflexivity).
    assert (Hrange : entries_in_range 0 (take n es)).
    { apply entries_in_range_bound; [lia|].
      rewrite firstn_all2 by lia. lia. }
    destruct (closed_entries scw out es _ _ _ Hlen Hcc
                (length_le_encode 4 _) (length_le_encode 4 _)
                Hfit ltac:(lia) Hrange eq_refl i (encoded s) Hi Hlook)
      as [Hstart Hlength].
    unfold string_of_entry, string_region_start, index_table_size,
      header_length.
    rewrite Hstart, Hlength, Fcc, Fsc, Fac, Fcs, <- Hisz.
    unfold octets_at.
    replace (Z.to_nat (452 + index_table_size scw + command_size scw
                       + len (concat (take i es))))
      with (452 + (length new_index + length (command_region scw)
                   + length (concat (take i es))))%nat
      by (unfold len; lia).
    rewrite <- drop_drop, Hrest. unfold new_content.
    rewrite <- drop_drop, app_assoc, <- length_app, drop_app_length.
    unfold len. rewrite Nat2Z.id, concat_slice by exact Hlook.
    rewrite Forall_forall in Hstable.
    specialize (Hstable s (list_elem_of_lookup_2 _ _ _ Hs)).
    unfold codec_stable in Hstable.
    unfold Extractor.decode_string. rewrite Hstable. reflexivity. }
  rewrite Fsc, Ftc, Hdesc', Hstrings. reflexivity.
Qed.

(** C2. A rebuild that writes a container keeps everything but the string
    region and the two header fields that describe it. The content of the
    output is an index table, the command region, the new string region
    and the addon region, where the command and addon regions are the
    octets of the content area of the original between the offsets its
    header gives; the header is the original's outside [contentLength] and
    [stringSize], which hold the length of the new content and of the new
    string region; the index table has the length of the original's and,
    the command count not being negative, the same octets before and after
    the string group. For an original with counts and sizes that are not
    negative and a content area that holds its four regions, the command
    and addon index entries and the command and addon regions are in the
    output, octet for octet, what they are in the original file: the first
    three at the same positions, the addon region behind the new string
    region. *)
Theorem C2_rebuild_preserves_frame (scw : bytes) (txt : str) (out : bytes) :
  Writer.process_scw scw txt = Writer.Written out ->
  let content := content_read scw in
  let index_end := index_table_size scw in
  let cmd_end := index_end + command_size scw in
  let str_end := cmd_end + string_size scw in
  let addon_end := str_end + addon_size scw in
  let o := Z.to_nat (command_count scw * 8) in
  let n := Z.to_nat (string_count scw) in
  exists new_index new_str_data : bytes,
    drop 452 out =
      new_index ++ slice content index_end cmd_end ++ new_str_data
      ++ slice content str_end addon_end
    /\ (452 <= length out)%nat
    /\ same_header_frame scw out
    /\ content_length out = len (drop 452 out)
    /\ string_size out = len new_str_data
    /\ length new_index = length (slice_to content index_end)
    /\ (0 <= command_count scw ->
        take o new_index = take o (slice_to content index_end)
        /\ drop (o + 8 * n) new_index =
             drop (o + 8 * n) (slice_to content index_end))
    /\ (0 <= command_count scw -> 0 <= string_count scw ->
        0 <= addon_count scw -> 0 <= command_size scw ->
        0 <= string_size scw -> 0 <= addon_size scw ->
        addon_end <= len content ->
        octets_at out 452 (command_count scw * 8)
          = octets_at scw 452 (command_count scw * 8)
        /\ octets_at out
             (452 + (command_count scw + string_count scw) * 8)
             (addon_count scw * 8)
           = octets_at scw
               (452 + (command_count scw + string_count scw) * 8)
               (addon_count scw * 8)
        /\ octets_at out (452 + index_end) (command_size scw)
           = octets_at scw (452 + index_end) (command_size scw)
        /\ octets_at out (452 + cmd_end + len new_str_data) (addon_size scw)
           = octets_at scw (452 + str_end) (addon_size scw)
        /\ len (drop 452 out)
           = cmd_end + len new_str_data + addon_size scw).
Proof.
  intros Hrun content index_end cmd_end str_end addon_end o n.
  unfold slice_to.
  apply process_scw_written in Hrun.
  destruct Hrun as [header_txt new_strings es new_index
    packed_header Hlen _ Hparse _ _ _ _ Henc Hidx Hpack Hout].
  change (index_region scw) with (slice content 0 index_end) in *.
  change (command_region scw) with (slice content index_end cmd_end) in *.
  change (addon_region scw) with (slice content str_end addon_end) in *.
  set (cmd := slice content index_end cmd_end) in *.
  set (addon := slice content str_end addon_end) in *.
  set (idx := slice content 0 index_end) in *.
  set (new_content := new_index ++ cmd ++ concat es ++ addon) in *.
  destruct (patched_header_inv _ _ _ _ Hpack) as [Hsize Hsize'].
  rewrite patched_header_ok in Hpack by assumption.
  injection Hpack as <-.
  destruct (header_parts scw out _ _ new_content Hlen
              (length_le_encode 4 _) (length_le_encode 4 _) Hout)
    as (Hframe & Ha & Hb & Hhead & Hrest).
  pose proof (update_index_length _ _ _ _ _ _ Hidx) as Hnewlen.
  assert (Hkeep : 0 <= command_count scw ->
            take o new_index = take o idx
            /\ drop (o + 8 * n) new_index = drop (o + 8 * n) idx).
  { intros Hcc.
    replace (seqZ 0 (string_count scw))
      with (seqZ 0 (Z.of_nat (Z.to_nat (string_count scw)))) in Hidx
      by (unfold seqZ; rewrite Nat2Z.id; reflexivity).
    apply update_index_inv in Hidx; [|exact Hcc|lia].
    cbv zeta in Hidx. rewrite Z.add_0_r in Hidx.
    change (Z.to_nat 0) with 0%nat in Hidx. rewrite drop_0 in Hidx.
    destruct Hidx as (Hnew & Hbound & _).
    fold n o in Hnew, Hbound.
    destruct (decide (n = 0%nat)) as [Hn|Hn].
    - rewrite Hn, take_0 in Hnew. cbn [index_entries app] in Hnew.
      rewrite Nat.mul_0_r, Nat.add_0_r, take_drop in Hnew.
      rewrite Hnew. auto.
    - destruct (Hbound Hn) as [Hfit Hes].
      assert (Hpre : length (take o idx) = o)
        by (rewrite length_take; lia).
      assert (Hent : length (index_entries 0 (take n es)) = (8 * n)%nat)
        by (rewrite length_index_entries, length_take; lia).
      rewrite Hnew. split.
      + rewrite take_app_length' by (symmetry; exact Hpre). reflexivity.
      + rewrite <- (Nat.add_0_r (o + 8 * n)) at 1.
        rewrite (splice_drop _ _ _ o (8 * n) 0 Hpre Hent), drop_0.
        reflexivity. }
  exists new_index, (concat es).
  split; [exact Hrest|].
  split.
  { rewrite <- (take_drop 452 out), length_app, Hhead.
    rewrite !length_app, !length_take, !length_drop, !length_le_encode. lia. }
  split; [exact Hframe|].
  split.
  { unfold content_length, int_at. change (Z.to_nat 0x18) with 24%nat.
    rewrite Ha, Hrest. apply signed32_encode. exact Hsize. }
  split.
  { unfold string_size, int_at. change (Z.to_nat 0x34) with 52%nat.
    rewrite Hb. apply signed32_encode. exact Hsize'. }
  split; [exact Hnewlen|].
  split; [exact Hkeep|].
  intros Hcc Hsc Hac Hcs Hss Has Hfit.
  assert (Hisz : index_end
                 = (command_count scw + string_count scw + addon_count scw)
                   * 8) by reflexivity.
  destruct (whole_regions scw ltac:(fold index_end; lia) Hcs Hss Has Hfit)
    as (Eidx & Ecmd & Eaddon & Lidx & Lcmd & Laddon).
  fold content index_end cmd_end str_end addon_end in
    Eidx, Ecmd, Eaddon, Lidx, Lcmd, Laddon.
  fold idx in Eidx, Lidx. fold cmd in Ecmd, Lcmd.
  fold addon in Eaddon, Laddon.
  destruct (Hkeep Hcc) as [Hbefore Hafter].
  unfold len in Hfit.
  assert (Hcontent : (Z.to_nat addon_end <= length content)%nat) by lia.
  assert (Lnew : length new_index = Z.to_nat index_end) by congruence.
  assert (Hat : forall k m : Z, 0 <= k ->
            octets_at out (452 + k) m
            = take (Z.to_nat m) (drop (Z.to_nat k) new_content)).
  { intros k m Hk. unfold octets_at.
    replace (Z.to_nat (452 + k)) with (452 + Z.to_nat k)%nat by lia.
    rewrite <- drop_drop, Hrest. reflexivity. }
  assert (Hfrom : forall k m : Z, 0 <= k -> 0 <= m -> k + m <= addon_end ->
            octets_at scw (452 + k) m
            = take (Z.to_nat m) (drop (Z.to_nat k) content)).
  { intros k m Hk Hm Hkm. unfold octets_at.
    replace (Z.to_nat (452 + k)) with (452 + Z.to_nat k)%nat by lia.
    symmetry. apply content_read_octets. fold content. lia. }
  assert (Hends : index_end <= cmd_end <= str_end /\ str_end <= addon_end)
    by (unfold cmd_end, str_end, addon_end; lia).
  split; [|split; [|split; [|split]]].
  - rewrite <- (Z.add_0_r 452).
    rewrite Hat, Hfrom by lia. change (Z.to_nat 0) with 0%nat.
    rewrite !drop_0. fold o. unfold new_content.
    rewrite take_app_le by lia.
    rewrite Hbefore, Eidx, take_take. f_equal. lia.
  - rewrite Hat, Hfrom by lia.
    replace (Z.to_nat ((command_count scw + string_count scw) * 8))
      with (o + 8 * n)%nat by lia.
    unfold new_content. rewrite drop_app_le by lia.
    rewrite Hafter.
    assert (Hlast : length (drop (o + 8 * n) idx)
                    = Z.to_nat (addon_count scw * 8))
      by (rewrite length_drop; lia).
    rewrite (take_app_length' _ _ _ (eq_sym Hlast)).
    rewrite Eidx, take_drop_commute. f_equal. f_equal. lia.
  - rewrite Hat, Hfrom by lia.
    unfold new_content.
    rewrite (drop_app_length' _ _ _ (eq_sym Lnew)).
    rewrite (take_app_length' _ _ _ (eq_sym Lcmd)). exact Ecmd.
  - replace (452 + cmd_end + len (concat es))
      with (452 + (cmd_end + len (concat es))) by lia.
    rewrite Hat, Hfrom by (unfold len; lia).
    unfold new_content. rewrite !app_assoc.
    rewrite drop_app_length'
      by (rewrite !length_app; unfold len, cmd_end; lia).
    rewrite firstn_all2 by lia. exact Eaddon.
  - rewrite Hrest. unfold new_content, len.
    rewrite !length_app. unfold cmd_end. lia.
Qed.

(** C3. A rebuild that writes a container, from an original with a
    non-negative command count, recomputes the string group of the index
    table from the encoded strings alone: each string of the document is
    encoded and ended by one NUL; the string region of the output is these
    octets one after the other; and for every [i] below the string count,
    entry [i] has as [start] the total length of the encoded strings before
    [i] (so [0] for the first) and as [length] the length of encoded string
    [i], NUL included. *)
Theorem C3_string_index_recomputed (scw : bytes) (txt : str) (out : bytes) :
  Writer.process_scw scw txt = Writer.Written out ->
  0 <= command_count scw ->
  exists header_txt new_strings,
    Writer.parse_txt txt = Ok (Some (header_txt, new_strings))
    /\ string_count scw <= len new_strings
    /\ Forall (fun s => exists b,
                 encoded s = b ++ [x00]
                 /\ (encode cp932_encode_char Strict s = Ok b
                     \/ encode cp932_encode_char Replace s = Ok b))
         new_strings
    /\ drop (452 + length (index_region scw) + length (command_region scw))
         out = concat (map encoded new_strings) ++ addon_region scw
    /\ forall (i : nat) (s : str),
         Z.of_nat i < string_count scw ->
         new_strings !! i = Some s ->
         entry_start out (Z.of_nat i)
           = len (concat (map encoded (take i new_strings)))
         /\ entry_length out (Z.of_nat i) = len (encoded s).
Proof.
  intros Hrun Hcc.
  destruct (rebuild_closed _ _ _ Hrun Hcc)
    as (header_txt & new_strings & new_index & Hparse & Hlen & Hnew & Hbound
        & Hrange & Hsize & Hout).
  cbv zeta in *.
  set (es := map encoded new_strings) in *.
  set (n := Z.to_nat (string_count scw)) in *.
  set (o := Z.to_nat (command_count scw * 8)) in *.
  set (new_content := new_index ++ command_region scw ++ concat es
                      ++ addon_region scw) in *.
  destruct (header_parts scw out _ _ new_content Hlen
              (length_le_encode 4 _) (length_le_encode 4 _) Hout)
    as (Hframe & Ha & Hb & Hhead & Hrest).
  exists header_txt, new_strings.
  assert (Hidxlen : length new_index = length (index_region scw)).
  { destruct (decide (n = 0%nat)) as [Hn|Hn].
    - rewrite Hn, take_0 in Hnew. cbn [index_entries app] in Hnew.
      rewrite Nat.mul_0_r, Nat.add_0_r, take_drop in Hnew. congruence.
    - destruct (Hbound Hn) as [Hfit Hes].
      rewrite Hnew, !length_app, length_index_entries, !length_take,
        length_drop.
      lia. }
  split; [exact Hparse|].
  split.
  { destruct (decide (n = 0%nat)) as [Hn|Hn].
    - pose proof (len_nonneg new_strings). lia.
    - destruct (Hbound Hn) as [_ Hes]. unfold es in Hes.
      rewrite length_map in Hes. unfold len. lia. }
  split.
  { apply Forall_forall. intros s _. apply encoded_shape. }
  split.
  { rewrite <- Nat.add_assoc, <- drop_drop, Hrest. unfold new_content.
    rewrite <- Hidxlen, <- length_app, app_assoc.
    apply drop_app_length. }
  intros i s Hi Hs.
  assert (Hn : n <> 0%nat) by lia.
  destruct (Hbound Hn) as [Hfit Hes].
  assert (Hlook : es !! i = Some (encoded s))
    by (unfold es; rewrite list_lookup_fmap, Hs; reflexivity).
  unfold new_content in Hout. rewrite Hnew in Hout at 2.
  destruct (closed_entries scw out es _ _ _ Hlen Hcc
              (length_le_encode 4 _) (length_le_encode 4 _)
              Hfit Hes Hrange Hout i (encoded s) ltac:(lia) Hlook)
    as [Hstart Hlength].
  rewrite Hstart, Hlength. unfold es. rewrite fmap_take. auto.
Qed.


(** C5. When the text document parses to a header block and strings, and
    its declared [STRING_COUNT] or [TEXT_COUNT] differs from the count in
    the header of the original container, or it holds fewer strings than
    the container's string count, [process_scw] writes no output file; when
    the comparison of the declared counts is reached with a difference, the
    call ends at its "Count mismatch" return. *)
Theorem C5_count_mismatch (scw : bytes) (txt : str)
    (header_txt : gmap str str) (new_strings : list str) :
  Writer.parse_txt txt = Ok (Some (header_txt, new_strings)) ->
  Writer.declared header_txt STRING_COUNT <> Ok (string_count scw)
  \/ Writer.declared header_txt TEXT_COUNT <> Ok (text_count scw)
  \/ len new_strings < string_count scw ->
  output_file (Writer.process_scw scw txt) = None
  /\ (forall sc tc,
        (452 <= length scw)%nat -> - 1 <= content_length scw ->
        header_txt <> ∅ -> new_strings <> [] ->
        Writer.declared header_txt STRING_COUNT = Ok sc ->
        Writer.declared header_txt TEXT_COUNT = Ok tc ->
        sc <> string_count scw \/ tc <> text_count scw ->
        Writer.process_scw scw txt = Writer.CountMismatch).
Proof.
  intros Hparse Hbad. split.
  - destruct (Writer.process_scw scw txt) as [| |e|out] eqn:Hrun;
      try reflexivity.
    exfalso. apply process_scw_written in Hrun.
    destruct Hrun as [header_txt' new_strings' new_str_list new_index
      packed_header _ _ Hparse' _ _ Hsc Htc Henc Hidx _ _].
    rewrite Hparse in Hparse'. injection Hparse' as <- <-.
    destruct Hbad as [Hbad|[Hbad|Hbad]]; [congruence|congruence|].
    apply index_update_needs_strings in Hidx.
    rewrite Forall_forall in Hidx.
    destruct (Hidx (len new_strings)) as [e He].
    { apply elem_of_seqZ. pose proof (len_nonneg new_strings). lia. }
    apply lookup_lt_Some in He.
    apply length_encode_strings in Henc. unfold len in He. lia.
  - intros sc tc Hlen Hcl Hh Hs Hsc Htc Hne.
    unfold Writer.process_scw.
    rewrite process_scw_try_long by exact Hlen.
    rewrite read_content by exact Hcl. cbn [mbind result_bind].
    rewrite process_content_regions, Hparse. cbn [mbind result_bind].
    rewrite (bool_decide_eq_false_2 _ Hh), (bool_decide_eq_false_2 _ Hs).
    cbn [orb]. rewrite Hsc, Htc. cbn [mbind result_bind].
    destruct (Z.eqb_spec sc (string_count scw));
      destruct (Z.eqb_spec tc (text_count scw)); try reflexivity.
    lia.
Qed.

(** C6. While [parse_txt] goes through the lines of a document, a section
    header [[Index=N]] met when [N] differs from the number of strings
    collected so far plus one makes it return [(None, None)] for the whole
    document, whatever the lines before and after: no partial string
    sequence is returned. *)
Theorem C6_index_out_of_order (text : str) (pre post : list str) (raw : str)
    (st : Writer.locals) (tag after : str) (n : Z) :
  readlines text = pre ++ raw :: post ->
  locals_after pre Writer.initial = Some st ->
  startswith INDEX_TAG (strip raw) = true ->
  split_once 61 (strip raw) = Some (tag, after) ->
  int (rstrip_char 93 after) = Ok n ->
  n <> len (Writer.strings st) + 1 ->
  Writer.parse_txt text = Ok None.
Proof.
  intros Hlines Hpre Htag Hsplit Hint Hne.
  unfold Writer.parse_txt. rewrite Hlines.
  rewrite (parse_lines_app _ _ _ _ Hpre). cbn [Writer.parse_lines].
  rewrite (parse_line_index _ _ _ _ _ Htag Hsplit Hint).
  apply Z.eqb_neq in Hne. rewrite Hne. reflexivity.
Qed.


(** C8. The extractor makes its strings from the entries of the string
    group, one for each. Every string it returns for a container with a
    non-negative command count is made from the string-group entry at its
    position: the [length] octets at absolute position
    [headerLength + indexTableSize + commandSize + start], trailing NULs
    stripped, decoded under the [replace] handler. And a container that
    passes the checks of the extractor, with counts and command size that
    are not negative, yields [stringCount] strings: the string at position
    [i] is there for every entry [i] of the string group, and is the one
    made from that entry. For the container of the scenario, entries
    [(0,6)] and [(6,6)] over ["AB\0\0\0\0CD\0\0\0\0"], the strings are
    ["AB"] and ["CD"]. *)
Theorem C8_string_location :
  (forall (data : bytes) (doc : str) (ss : list str) (i : nat) (s : str),
      Extractor.extract_scw_file data = Extractor.Extracted doc ss ->
      0 <= command_count data ->
      ss !! i = Some s ->
      decode cp932_decode_step Replace
        (rstrip_nul
           (octets_at data
              (header_length + index_table_size data + command_size data
               + entry_start data (Z.of_nat i))
              (entry_length data (Z.of_nat i)))) = Ok s)
  /\ (forall data : bytes,
        0 <= command_count data -> 0 <= string_count data ->
        0 <= addon_count data -> 0 <= command_size data ->
        extractable data ->
        exists (doc : str) (ss : list str),
          Extractor.extract_scw_file data = Extractor.Extracted doc ss
          /\ len ss = string_count data
          /\ forall i : nat,
               Z.of_nat i < string_count data ->
               exists s,
                 ss !! i = Some s
                 /\ decode cp932_decode_step Replace
                      (rstrip_nul
                         (octets_at data
                            (header_length + index_table_size data
                             + command_size data
                             + entry_start data (Z.of_nat i))
                            (entry_length data (Z.of_nat i)))) = Ok s)
  /\ (exists doc,
        Extractor.extract_scw_file (H := Sample.seven_bit) Sample.scenario =
          Extractor.Extracted doc [str_of "AB"; str_of "CD"]).
Proof.
  split; [|split].
  - intros data doc ss i s Hex Hcc Hi.
    unfold Extractor.extract_scw_file in Hex.
    destruct (decide (68 <= length data)%nat) as [Hlong|Hlt].
    2: { destruct (extract_try_short data Hlt) as [[e He]|He];
           rewrite He in Hex; discriminate. }
    rewrite extract_try_long in Hex by exact Hlong.
    unfold after_header in Hex.
    destruct (decode ascii_decode_step Strict _) as [magic|e];
      [|discriminate].
    cbn [mbind result_bind] in Hex.
    destruct (negb (str_eqb magic MAGIC)); [discriminate|].
    destruct (decode cp932_decode_step Ignore _) as [dtext|e];
      [|discriminate].
    cbn [mbind result_bind] in Hex.
    destruct (text_count data =? 0); [discriminate|].
    unfold read in Hex.
    destruct (index_table_size data <? -1); [discriminate|].
    cbn [mbind result_bind f_data f_pos] in Hex.
    destruct (negb _); [discriminate|].
    destruct (Extractor.extract_strings _ _ _ _ _ _) as [[ss' f']|e] eqn:Hloop;
      [|discriminate].
    cbn [mbind result_bind] in Hex. injection Hex as _ ->.
    assert (Hidx : exists n : nat,
      (if index_table_size data =? -1 then drop 452 data
       else take (Z.to_nat (index_table_size data)) (drop 452 data))
      = take n (drop 452 data)).
    { destruct (_ =? -1).
      - exists (length (drop 452 data)). rewrite firstn_all. reflexivity.
      - eauto. }
    destruct Hidx as [n Hn]. rewrite Hn in Hloop.
    apply extract_strings_sound in Hloop as [m Hm]; [|exact Hcc|].
    2: { apply Forall_forall. intros x Hx.
         apply elem_of_seqZ in Hx. lia. }
    cbn [app] in Hm. rewrite Hm in Hi.
    rewrite list_lookup_fmap in Hi.
    destruct (take m (seqZ 0 (string_count data)) !! i) as [j|] eqn:Hj;
      [|discriminate].
    injection Hi as <-.
    apply lookup_take_Some in Hj as [Hj _].
    apply lookup_seqZ in Hj as [-> _].
    unfold string_of_entry. rewrite Z.add_0_l.
    destruct (decode_string_total
                (octets_at data
                   (string_region_start data + entry_start data (Z.of_nat i))
                   (entry_length data (Z.of_nat i)))) as (s & Hs & ->).
    exact Hs.
  - intros data Hcc Hsc Hac Hcs Hable.
    exists (Extractor.document (string_count data) (text_count data)
              (description data) (decoded_strings data)),
           (decoded_strings data).
    split; [apply extract_valid; assumption|].
    split.
    { unfold decoded_strings, len. rewrite length_map, length_seqZ. lia. }
    intros i Hi.
    destruct (decode_string_total
                (octets_at data
                   (string_region_start data + entry_start data (Z.of_nat i))
                   (entry_length data (Z.of_nat i)))) as (s & Hs & Hdec).
    exists s. split; [|exact Hs].
    unfold decoded_strings. rewrite list_lookup_fmap.
    assert (Hj : seqZ 0 (string_count data) !! i = Some (Z.of_nat i)).
    { apply lookup_seqZ. lia. }
    rewrite Hj. cbn [fmap option_fmap option_map].
    unfold string_of_entry. rewrite Hdec. reflexivity.
  - eexists. vm_compute. reflexivity.
Qed.

(** C9. [parse_txt] works on stripped lines: a line is handled as its
    [strip()], and a line that strips to nothing is skipped. A line whose
    stripped text begins with ['['] and is neither ['[Header]'] nor an
    ['[Index='] header closes the current section, and while no section is
    open every content line is dropped. So in the sample document the
    string line ['  A  '] is read as ['A'], and the line ['[B]'] and the
    line ['C'] after it are lost. *)
Theorem C9_parser_normalises_lines :
  (forall st raw,
      Writer.parse_line st raw = Writer.parse_line st (strip raw))
  /\ (forall st raw,
        strip raw = [] -> Writer.parse_line st raw = Ok (Writer.Next st))
  /\ (forall st raw,
        startswith BRACKET (strip raw) = true ->
        strip raw <> HEADER_TAG ->
        startswith INDEX_TAG (strip raw) = false ->
        Writer.parse_line st raw =
          Ok (Writer.Next
                (Writer.Locals (Writer.strings st) (Writer.header st)
                   (Writer.current_index st) None)))
  /\ (forall st raw,
        Writer.current_section st = None ->
        startswith BRACKET (strip raw) = false ->
        Writer.parse_line st raw = Ok (Writer.Next st))
  /\ Writer.parse_txt (H := Sample.seven_bit) Sample.doc_untidy =
       Ok (Some (<[STRING_COUNT := str_of "1"]>
                   (<[TEXT_COUNT := str_of "1"]> ∅),
                 [str_of "A"])).
Proof.
  split; [|split; [|split; [|split]]].
  - intros st raw. unfold Writer.parse_line. rewrite strip_idem.
    reflexivity.
  - intros st raw Hraw. unfold Writer.parse_line. rewrite Hraw.
    reflexivity.
  - intros st raw Hopen Hhdr Hidx. unfold Writer.parse_line.
    destruct (strip raw) as [|c r] eqn:Hline; [discriminate|].
    rewrite Hopen, Hidx.
    replace (str_eqb (c :: r) HEADER_TAG) with false
      by (symmetry; apply bool_decide_eq_false; exact Hhdr).
    reflexivity.
  - intros st raw Hsec Hopen. unfold Writer.parse_line.
    destruct (strip raw) as [|c r] eqn:Hline; [reflexivity|].
    rewrite Hopen, Hsec. reflexivity.
  - vm_compute. reflexivity.
Qed.

(** C10. Extraction never fails on undecodable octets: decoding a string
    slice with the [replace] handler always yields a string, so the
    [except UnicodeDecodeError] branch with its ['<DECODE_ERROR>'] marker is
    never taken, and [decode_string] returns that decoded string for every
    slice read. *)
Theorem C10_decode_error_unreachable (data : bytes) :
  exists s,
    decode cp932_decode_step Replace (rstrip_nul data) = Ok s
    /\ Extractor.decode_string data = Ok s.
Proof.
  destruct (decode_replace_total cp932_decode_step (rstrip_nul data))
    as [s Hs].
  exists s. split; [exact Hs|].
  unfold Extractor.decode_string. rewrite Hs. reflexivity.
Qed.

End claims.

(* ================================================================== *)
(** * Further properties of the two scripts *)
(* ================================================================== *)

Section further.
Context `{Runtime}.

(** X1. What was put in comes out: for a valid container with the right
    magic and a non-zero text count, the container a rebuild writes
    extracts to the first [stringCount] strings of the document, each as
    the codec gives it back, under the counts and the description of the
    original; strings that survive cp932 come out as they are in the
    document. *)
Theorem X1_rebuilt_container_extracts (scw : bytes) (txt : str)
    (out : bytes) (h : gmap str str) (ss : list str) :
  valid_container scw ->
  decode ascii_decode_step Strict (rstrip_nul (take 16 scw)) = Ok MAGIC ->
  text_count scw <> 0 ->
  Writer.process_scw scw txt = Writer.Written out ->
  Writer.parse_txt txt = Ok (Some (h, ss)) ->
  let strs := map recoded (take (Z.to_nat (string_count scw)) ss) in
  Extractor.extract_scw_file out =
    Extractor.Extracted
      (Extractor.document (string_count scw) (text_count scw)
         (description scw) strs) strs
  /\ (Forall codec_stable ss ->
      strs = take (Z.to_nat (string_count scw)) ss).
Proof.
  intros Hvalid Hmagic Htc Hrun Hparse strs. split.
  - apply (extract_rebuilt scw txt out h ss); assumption.
  - intros Hstable. unfold strs.
    rewrite <- (map_id (take _ ss)) at 2.
    apply map_ext_Forall. apply Forall_take.
    eapply Forall_impl; [exact Hstable|].
    intros s Hs. apply recoded_stable, Hs.
Qed.

(** X2. Rebuilding is idempotent: for a valid container with a
    non-negative addon size, the container a rebuild writes is valid
    again, and applying the same document to it writes the same container,
    octet for octet. *)
Theorem X2_rebuild_is_idempotent (scw : bytes) (txt : str) (out : bytes) :
  valid_container scw -> 0 <= addon_size scw ->
  Writer.process_scw scw txt = Writer.Written out ->
  valid_container out /\ Writer.process_scw out txt = Writer.Written out.
Proof.
  intros Hvalid Has Hrun. split.
  - apply (rebuilt_valid scw txt out Hvalid Has Hrun).
  - apply (rebuild_again scw txt out Hvalid Has Hrun).
Qed.

(** X3. A container written by a rebuild is a fixed point of the two
    scripts, octet for octet: when the original is valid, has the right
    magic, a non-zero text count, a non-negative addon size and a
    description of one line, the document holds exactly [stringCount]
    strings that survive cp932, and [int] reads the decimal numbers
    written, then the rebuilt container extracts to those strings, and
    rebuilding it from the document extracted writes it again. *)
Theorem X3_rebuilt_container_is_a_fixed_point (scw : bytes) (txt : str)
    (out : bytes) (h : gmap str str) (ss : list str) :
  valid_container scw -> 0 <= addon_size scw ->
  decode ascii_decode_step Strict (rstrip_nul (take 16 scw)) = Ok MAGIC ->
  text_count scw <> 0 ->
  single_line (description scw) = true ->
  (forall i, 1 <= i <= string_count scw \/ i = text_count scw ->
             int (str_int i) = Ok i) ->
  Writer.process_scw scw txt = Writer.Written out ->
  Writer.parse_txt txt = Ok (Some (h, ss)) ->
  len ss = string_count scw ->
  Forall codec_stable ss ->
  let doc := Extractor.document (string_count scw) (text_count scw)
               (description scw) ss in
  Extractor.extract_scw_file out = Extractor.Extracted doc ss
  /\ Writer.process_scw out doc = Writer.Written out.
Proof. apply rebuilt_fixed_point. Qed.

(** X4. The strings that come back from the document the extractor
    writes are exactly those the document holds faithfully: for a
    description of one line, and [int] reading the section numbers,
    [parse_txt] returns the strings the document was written from if and
    only if each of them is empty or made of lines that are not blank,
    have no white space at either end, do not open with a bracket and
    hold no carriage return. *)
Theorem X4_document_round_trip (sc tc : Z) (desc : str) (ss : list str) :
  single_line desc = true ->
  (forall i, 1 <= i <= len ss -> int (str_int i) = Ok i) ->
  (exists h, Writer.parse_txt (Extractor.document sc tc desc ss)
             = Ok (Some (h, ss)))
  <-> Forall (fun s => document_safe s = true) ss.
Proof.
  intros Hdesc Hint. split.
  - intros [h Hp]. eapply parse_txt_safe. exact Hp.
  - intros Hss.
    destruct (parse_written_document sc tc desc ss Hdesc Hss Hint)
      as (h & Hp & _). eauto.
Qed.

(** X5. Every string [parse_txt] returns, from whatever text, is one the
    text document holds faithfully: empty, or made of lines that are not
    blank, have no white space at either end, do not open with a bracket
    and hold no line break. *)
Theorem X5_parsed_strings_are_document_safe (text : str)
    (h : gmap str str) (ss : list str) :
  Writer.parse_txt text = Ok (Some (h, ss)) ->
  Forall (fun s => document_safe s = true) ss.
Proof. apply parse_txt_safe. Qed.

(** X6. The strings [parse_txt] returns are as many as the document has
    lines that open an index section. *)
Theorem X6_one_string_per_index_header (text : str)
    (h : gmap str str) (ss : list str) :
  Writer.parse_txt text = Ok (Some (h, ss)) ->
  length ss = index_headers (readlines text).
Proof.
  unfold Writer.parse_txt. intros Hp.
  destruct (parse_lines_some _ _ _ _ Hp) as (st & Hst & _ & ->).
  rewrite (locals_after_count _ _ _ Hst). reflexivity.
Qed.

(** X7. Through the loop of [parse_txt], [current_index] is the number of
    strings collected so far, so both guards of the content branch hold
    whenever it is reached; a content line goes to the end of the last
    string, and the strings before the last are final: what has been
    collected after any number of lines is continued by the result. *)
Theorem X7_content_goes_to_the_last_string (text : str)
    (pre post : list str) (st : Writer.locals)
    (h : gmap str str) (ss : list str) :
  readlines text = pre ++ post ->
  locals_after pre Writer.initial = Some st ->
  Writer.parse_txt text = Ok (Some (h, ss)) ->
  index_in_step st /\ continues (Writer.strings st) ss.
Proof.
  unfold Writer.parse_txt. intros -> Hpre Hp.
  rewrite (parse_lines_app _ _ _ _ Hpre) in Hp.
  destruct (parse_lines_some _ _ _ _ Hp) as (st' & Hst' & _ & ->).
  destruct (locals_after_step _ _ _ index_in_step_initial Hpre) as [Hst _].
  split; [exact Hst|].
  apply (locals_after_step _ _ _ Hst Hst').
Qed.


(** X9. A document whose lines end in ["\r\n"] parses, and rebuilds, as
    the same document with lines ending in ["\n"]. *)
Theorem X9_line_ends_do_not_matter (scw : bytes) (text : str) :
  Writer.parse_txt (crlf text) = Writer.parse_txt text
  /\ Writer.process_scw scw (crlf text) = Writer.process_scw scw text.
Proof. split; [apply parse_txt_crlf|apply process_scw_crlf]. Qed.

(** X10. With the header and the content area of the container read,
    [process_scw] ends at its "Failed to parse" return exactly when
    [parse_txt] returned [(None, None)], an empty header block or no
    strings; so a document without any section header, which parses to an
    empty header block and no strings, is refused. *)
Theorem X10_failed_to_parse (scw : bytes) (txt : str) :
  (452 <= length scw)%nat -> - 1 <= content_length scw ->
  (Writer.process_scw scw txt = Writer.ParseFailed <->
   Writer.parse_txt txt = Ok None
   \/ (exists ss, Writer.parse_txt txt = Ok (Some (∅, ss)))
   \/ (exists h, Writer.parse_txt txt = Ok (Some (h, []))))
  /\ (Forall (fun l => startswith BRACKET (strip l) = false)
        (readlines txt) ->
      Writer.parse_txt txt = Ok (Some (∅, []))
      /\ Writer.process_scw scw txt = Writer.ParseFailed).
Proof.
  intros Hlen Hcl. split; [apply parse_failed_iff; assumption|].
  intros Hlines.
  assert (Hp : Writer.parse_txt txt = Ok (Some (∅, []))).
  { unfold Writer.parse_txt.
    rewrite (locals_after_parse_lines _ _ Writer.initial); [reflexivity|].
    apply locals_after_no_section; [reflexivity|exact Hlines]. }
  split; [exact Hp|].
  apply parse_failed_iff; [assumption..|]. right. left. eauto.
Qed.

(** X11. Of the header block of the document, [process_scw] uses the two
    declared counts and nothing else: two documents with the same strings
    whose header blocks are not empty and declare the same [STRING_COUNT]
    and [TEXT_COUNT] give the same result, whatever else the blocks hold.
    The description in the document is never written back. *)
Theorem X11_only_the_counts_are_read (scw : bytes) (txt1 txt2 : str)
    (h1 h2 : gmap str str) (ss : list str) :
  Writer.parse_txt txt1 = Ok (Some (h1, ss)) ->
  Writer.parse_txt txt2 = Ok (Some (h2, ss)) ->
  h1 <> ∅ -> h2 <> ∅ ->
  Writer.declared h1 STRING_COUNT = Writer.declared h2 STRING_COUNT ->
  Writer.declared h1 TEXT_COUNT = Writer.declared h2 TEXT_COUNT ->
  Writer.process_scw scw txt1 = Writer.process_scw scw txt2.
Proof. apply process_scw_counts. Qed.

(** X12. A container file shorter than the fixed header of 452 octets is
    rejected by [struct.unpack], whatever the text document: the call ends
    in the handler with [struct.error] and writes nothing. *)
Theorem X12_short_container (scw : bytes) (txt : str) :
  (length scw < 452)%nat ->
  Writer.process_scw scw txt = Writer.Failed StructError.
Proof.
  intros Hlen. unfold Writer.process_scw.
  rewrite process_scw_try_short by lia. reflexivity.
Qed.

(** X13. A file that passes the checks of the extractor, with counts and
    command size that are not negative, always yields a document: the
    header block with the counts of the header and the description, then
    one section for each of the [stringCount] entries of the string
    group. *)
Theorem X13_extraction_succeeds (data : bytes) :
  0 <= command_count data -> 0 <= string_count data ->
  0 <= addon_count data -> 0 <= command_size data ->
  extractable data ->
  Extractor.extract_scw_file data =
    Extractor.Extracted
      (Extractor.document (string_count data) (text_count data)
         (description data) (decoded_strings data))
      (decoded_strings data)
  /\ len (decoded_strings data) = string_count data.
Proof.
  intros Hcc Hsc Hac Hcs Hable. split.
  - apply extract_valid; assumption.
  - unfold decoded_strings, len. rewrite length_map, length_seqZ. lia.
Qed.

(** X14. Unless the first sixteen octets of the file, trailing NULs
    stripped, are the ASCII text [Scw4.x], no document is written,
    whatever the length of the file: the call ends at its "Invalid MAGIC"
    return or, when those octets are not ASCII, in the handler with
    [UnicodeDecodeError]. *)
Theorem X14_wrong_magic (data : bytes) :
  decode ascii_decode_step Strict (rstrip_nul (take 16 data)) <> Ok MAGIC ->
  Extractor.extract_scw_file data = Extractor.InvalidMagic
  \/ Extractor.extract_scw_file data = Extractor.Failed UnicodeDecodeError.
Proof.
  intros Hmagic. unfold Extractor.extract_scw_file.
  rewrite extract_try_magic.
  destruct (decode ascii_decode_step Strict (rstrip_nul (take 16 data)))
    as [magic|e] eqn:Hdec; cbn [mbind result_bind].
  - left. unfold str_eqb.
    rewrite bool_decide_eq_false_2 by congruence. reflexivity.
  - right. apply decode_raises in Hdec as [-> _]. reflexivity.
Qed.

(** X15. A file with the right magic that ends before the text count has
    been read, that is with fewer than 68 octets, ends in the handler with
    [struct.error]: no document is written. *)
Theorem X15_truncated_header (data : bytes) :
  (length data < 68)%nat ->
  decode ascii_decode_step Strict (rstrip_nul (take 16 data)) = Ok MAGIC ->
  Extractor.extract_scw_file data = Extractor.Failed StructError.
Proof.
  intros Hlen Hmagic. unfold Extractor.extract_scw_file.
  rewrite extract_try_short_header by (assumption || lia). reflexivity.
Qed.

(** X16. A container whose text count is zero is skipped, whatever its
    string count and whatever follows the header: no document is
    written. *)
Theorem X16_text_count_zero (data : bytes) :
  (68 <= length data)%nat ->
  decode ascii_decode_step Strict (rstrip_nul (take 16 data)) = Ok MAGIC ->
  text_count data = 0 ->
  Extractor.extract_scw_file data = Extractor.TextCountZero.
Proof.
  intros Hlen Hmagic Htc. unfold Extractor.extract_scw_file.
  rewrite extract_try_long by exact Hlen. unfold after_header.
  rewrite Hmagic. cbn [mbind result_bind].
  change (negb (str_eqb MAGIC MAGIC)) with false. cbv iota.
  destruct (description_eq data) as (dtext & -> & _).
  cbn [mbind result_bind]. rewrite Htc. reflexivity.
Qed.

(** X17. An entry of the string group that points at or past the end of
    the file gives the empty string, and extraction goes on: in a
    document written for a container with a non-negative command count,
    the string of such an entry is empty. *)
Theorem X17_entry_past_the_end (data : bytes) (doc : str) (ss : list str)
    (i : nat) :
  Extractor.extract_scw_file data = Extractor.Extracted doc ss ->
  0 <= command_count data ->
  (i < length ss)%nat ->
  len data <= header_length + index_table_size data + command_size data
              + entry_start data (Z.of_nat i) ->
  ss !! i = Some [].
Proof.
  intros Hex Hcc Hi Hpast.
  destruct (extracted_strings _ _ _ Hex Hcc) as [m ->].
  destruct (lookup_lt_is_Some_2 _ _ Hi) as [s Hs]. rewrite Hs. f_equal.
  rewrite list_lookup_fmap in Hs.
  destruct (take m (seqZ 0 (string_count data)) !! i) as [j|] eqn:Hj;
    [|discriminate].
  injection Hs as <-.
  apply lookup_take_Some in Hj as [Hj _].
  apply lookup_seqZ in Hj as [-> _]. rewrite Z.add_0_l.
  unfold string_of_entry, string_region_start.
  rewrite octets_at_end by exact Hpast. reflexivity.
Qed.

(** X21. [process_scw] never looks at the first 24 octets of the
    container, the magic, the main version and the compression flag: it
    copies them. A container that is rebuilt is rebuilt all the same with
    any other 24 octets in their place, and the output differs in those
    octets only. *)
Theorem X21_magic_and_flags_are_not_checked (scw : bytes) (txt : str)
    (out pre : bytes) :
  length pre = 24%nat ->
  Writer.process_scw scw txt = Writer.Written out ->
  Writer.process_scw (pre ++ drop 24 scw) txt
  = Writer.Written (pre ++ drop 24 out).
Proof. apply process_scw_prefix. Qed.

(** X22. [process_scw] reads [contentLength] octets after the header and
    no more: what the file holds after them has no influence on the
    result, and is not in the output. *)
Theorem X22_octets_after_the_content_are_not_read (scw : bytes)
    (txt : str) :
  (452 <= length scw)%nat -> 0 <= content_length scw ->
  Writer.process_scw (take (452 + Z.to_nat (content_length scw)) scw) txt
  = Writer.process_scw scw txt.
Proof. apply process_scw_limit. Qed.

(** X23. The extractor takes from a file its length, the magic, the three
    counts, the command size, the text count, the description and the
    content, and nothing else: for counts and command size that are not
    negative, two files that agree on these give the same result. The
    versions, the compression flag, [contentLength], [stringSize] and
    [addonSize] have no influence on what is extracted. *)
Theorem X23_extractor_reads_counts_and_content (a b : bytes) :
  extractor_reads a = extractor_reads b ->
  0 <= command_count a -> 0 <= string_count a ->
  0 <= addon_count a -> 0 <= command_size a ->
  Extractor.extract_scw_file a = Extractor.extract_scw_file b.
Proof. apply extract_reads. Qed.

End further.

Section writer_main_properties.
Context {world : Type}.
Variable join : str -> str -> str.
Variable join3 : str -> str -> str -> str.
Variable relpath : str -> str -> option str.
Variable dirname : str -> str.
Variable makedirs : str -> world -> attempt world.
Variable warning : str -> world -> world.
Variable process_scw : str -> str -> str -> world -> bool * world.

(** X18. [main] of the writer finds the script of a text document by
    file name alone: the dictionary [scw_files] holds under a name the
    path of the file of that name in the directory of [SCR] walked last
    among those that have one, and holds nothing under a name with a dot
    in it. So scripts of the same name in several directories are all
    rebuilt from the one walked last, and a text document whose name
    without [.txt] has a dot is never rebuilt. *)
Theorem X18_scripts_are_found_by_name (walk : list (str * list str))
    (name p : str) :
  WriterMain.scw_files join walk !! name = Some p <->
  has_dot name = false
  /\ exists pre root files post,
       walk = pre ++ (root, files) :: post
       /\ name ∈ files /\ p = join root name
       /\ Forall (fun d => name ∉ d.2) post.
Proof. apply scw_files_lookup. Qed.

(** X19. When [main] of the writer gets through its loops, every file of
    the [TXT] tree whose name ends in [.txt] has been counted once, as a
    success, a failure or a warning, and no other file has been counted,
    whatever the calls on the file system did. *)
Theorem X19_writer_main_counts_every_text_file (txt_dir new_scr_dir : str)
    (scr_walk txt_walk : list (str * list str)) (w w' : world)
    (c : WriterMain.counts) :
  WriterMain.main join join3 relpath dirname makedirs warning process_scw
    txt_dir new_scr_dir scr_walk txt_walk w = Some (c, w') ->
  rebuild_tally c = len (text_names txt_walk).
Proof.
  unfold WriterMain.main, WriterMain.rebuild_all. intros Hmain.
  destruct (rebuild_all_tally _ _ _ _ _ _ _ _ _ _ _ _ _ Hmain)
    as (st0 & [= <-] & Htot).
  exact Htot.
Qed.

End writer_main_properties.

Section extractor_main_properties.
Context {world path : Type}.
Variable scw_path : str -> str -> path.
Variable with_suffix_txt : path -> path.
Variable exists_ : path -> world -> bool.
Variable output_path : path -> path -> option path.
Variable mkdir_parent : path -> world -> attempt world.
Variable rename : path -> path -> world -> attempt world.
Variable extract_scw_file : path -> world -> world.

(** X20. [main] of the extractor counts every file of the [SCR] tree
    without a dot in its name once, as processed or as an error, and no
    other file, whatever the calls on the file system did. *)
Theorem X20_extractor_main_counts_every_script
    (walk : list (str * list str)) (w : world) :
  extract_tally
    (ExtractorMain.main scw_path with_suffix_txt exists_ output_path
       mkdir_parent rename extract_scw_file walk w).1
  = len (script_names walk).
Proof.
  unfold ExtractorMain.main. rewrite extract_walk_tally. reflexivity.
Qed.

End extractor_main_properties.

(* ================================================================== *)
(** * The theorems at the sample data *)
(* ================================================================== *)

Section instances.
Import Sample.

Lemma C1_counterexample :
  valid_container spaced /\ ~ round_trip_fixed_point spaced.
Proof.
  split.
  - unfold valid_container. repeat split; vm_compute; discriminate.
  - intros Hrt.
    assert (Hex : Extractor.extract_scw_file spaced
                  = Extractor.Extracted doc_spaced [str_of " AB"])
      by (vm_compute; reflexivity).
    destruct (Hrt _ _ Hex) as (_ & out & doc' & Hrun & Hout).
    vm_compute in Hrun. injection Hrun as <-.
    vm_compute in Hout. discriminate.
Defined.

Lemma C1_witness :
  round_trip_fixed_point two_lines
  /\ accumulate [] (split_nl [65; 10; 66]) = [65; 10; 66].
Proof.
  assert (Hstrings : decoded_strings two_lines = [[65; 10; 66]])
    by (vm_compute; reflexivity).
  assert (Hvalid : valid_container two_lines).
  { unfold valid_container. repeat split; vm_compute; discriminate. }
  assert (Hsc : 1 <= string_count two_lines) by (vm_compute; discriminate).
  assert (Hdesc : single_line (description two_lines) = true)
    by (vm_compute; reflexivity).
  assert (Hsafe : Forall (fun s => document_safe s = true)
                    (decoded_strings two_lines))
    by (rewrite Hstrings; constructor; [reflexivity|constructor]).
  assert (Hstable : Forall codec_stable (decoded_strings two_lines))
    by (rewrite Hstrings; constructor;
        [vm_compute; reflexivity|constructor]).
  assert (Hint : forall i,
             1 <= i <= string_count two_lines \/ i = text_count two_lines ->
             int (str_int i) = Ok i).
  { change (string_count two_lines) with 1.
    change (text_count two_lines) with 1.
    intros i Hi. assert (i = 1) as -> by lia. reflexivity. }
  assert (Hsize : rebuilt_size two_lines (decoded_strings two_lines) < 2 ^ 31)
    by (vm_compute; reflexivity).
  destruct (C1_round_trip_of_safe_strings two_lines Hvalid Hsc Hdesc Hsafe
              Hstable Hint Hsize) as [Hrt Hacc].
  split; [exact Hrt|]. apply Hacc; [reflexivity|discriminate].
Defined.

(** More containers that do not come back: a blank line inside a string is
    lost, a line opening with a bracket is taken for a section header, and
    a document without strings is refused. *)
Example blank_line_is_lost : ~ round_trip_fixed_point blank_inside.
Proof.
  intros Hrt.
  assert (Hex : Extractor.extract_scw_file blank_inside
                = Extractor.Extracted
                    (Extractor.document 1 1 [] [[65; 10; 10; 66]])
                    [[65; 10; 10; 66]])
    by (vm_compute; reflexivity).
  destruct (Hrt _ _ Hex) as (_ & out & doc' & Hrun & Hout).
  vm_compute in Hrun. injection Hrun as <-.
  vm_compute in Hout. discriminate.
Qed.

Example bracket_line_is_lost : ~ round_trip_fixed_point bracketed.
Proof.
  intros Hrt.
  assert (Hex : Extractor.extract_scw_file bracketed
                = Extractor.Extracted
                    (Extractor.document 1 1 [] [str_of "[A]"])
                    [str_of "[A]"])
    by (vm_compute; reflexivity).
  destruct (Hrt _ _ Hex) as (_ & out & doc' & Hrun & Hout).
  vm_compute in Hrun. injection Hrun as <-.
  vm_compute in Hout. discriminate.
Qed.

Example no_strings_is_refused : ~ round_trip_fixed_point no_strings.
Proof.
  intros Hrt.
  assert (Hex : Extractor.extract_scw_file no_strings
                = Extractor.Extracted (Extractor.document 0 1 [] []) [])
    by (vm_compute; reflexivity).
  destruct (Hrt _ _ Hex) as (_ & out & doc' & Hrun & Hout).
  vm_compute in Hrun. discriminate.
Qed.

Lemma C2_witness :
  exists out,
    Writer.process_scw framed doc_AB = Writer.Written out
    /\ same_header_frame framed out
    /\ octets_at out 452 8 = entry 0 2
    /\ octets_at out (452 + 16) 8 = entry 0 2
    /\ octets_at out (452 + 24) 2 = bytes_of "CC"
    /\ octets_at out (452 + 29) 2 = bytes_of "ZZ".
Proof.
  eexists. split; [vm_compute; reflexivity|].
  match goal with
  | |- same_header_frame _ ?out /\ _ =>
      destruct (C2_rebuild_preserves_frame framed doc_AB out)
        as (new_index & new_str_data & _ & _ & Hframe & _ & Hsize & _ & _
            & Hsame)
  end.
  - vm_compute. reflexivity.
  - split; [exact Hframe|].
    assert (Hlen : len new_str_data = 3)
      by (rewrite <- Hsize; vm_compute; reflexivity).
    cbv zeta in Hsame. rewrite Hlen in Hsame.
    destruct Hsame as (Hci & Hai & Hcr & Har & _);
      [vm_compute; discriminate..|].
    split; [etransitivity; [exact Hci|]; vm_compute; reflexivity|].
    split; [etransitivity; [exact Hai|]; vm_compute; reflexivity|].
    split; [etransitivity; [exact Hcr|]; vm_compute; reflexivity|].
    etransitivity; [exact Har|]. vm_compute. reflexivity.
Defined.

Lemma C3_witness :
  exists out,
    Writer.process_scw scenario doc_scenario = Writer.Written out
    /\ entry_start out 1 = 3 /\ entry_length out 1 = 3.
Proof.
  eexists. split; [vm_compute; reflexivity|].
  match goal with
  | |- entry_start ?out _ = _ /\ _ =>
      destruct (C3_string_index_recomputed scenario doc_scenario out)
        as (header_txt & new_strings & Hparse & _ & _ & _ & Hentry)
  end.
  - vm_compute. reflexivity.
  - vm_compute. discriminate.
  - assert (Hdoc : Writer.parse_txt doc_scenario
                   = Ok (Some (header_scenario, [str_of "AB"; str_of "CD"])))
      by reflexivity.
    rewrite Hdoc in Hparse. injection Hparse as _ <-.
    exact (Hentry 1%nat (str_of "CD") ltac:(vm_compute; reflexivity) eq_refl).
Defined.



Lemma C5_witness :
  output_file (Writer.process_scw scenario doc_AB) = None.
Proof.
  apply (C5_count_mismatch scenario doc_AB header_AB [str_of "AB"]).
  - reflexivity.
  - left. vm_compute. discriminate.
Defined.

Lemma C6_witness : Writer.parse_txt doc_gap = Ok None.
Proof.
  apply (C6_index_out_of_order doc_gap
           (take 7 (readlines doc_gap)) (drop 8 (readlines doc_gap))
           (str_of "[Index=3]" ++ NL)
           locals_gap
           (str_of "[Index") (str_of "3]") 3).
  - vm_compute. reflexivity.
  - reflexivity.
  - vm_compute. reflexivity.
  - vm_compute. reflexivity.
  - vm_compute. reflexivity.
  - vm_compute. discriminate.
Defined.



Lemma C8_witness :
  exists doc ss,
    Extractor.extract_scw_file trio = Extractor.Extracted doc ss
    /\ len ss = 3
    /\ ss !! 2%nat = Some (str_of "C")
    /\ decode cp932_decode_step Replace
         (rstrip_nul (octets_at trio (452 + 32 + 2 + 4) 2))
       = Ok (str_of "C").
Proof.
  destruct (proj1 (proj2 C8_string_location) trio)
    as (doc & ss & Hex & Hlen & Hall).
  - vm_compute. discriminate.
  - vm_compute. discriminate.
  - vm_compute. discriminate.
  - vm_compute. discriminate.
  - split; [vm_compute; lia|].
    split; [vm_compute; reflexivity|].
    split; [vm_compute; discriminate|].
    vm_compute. discriminate.
  - destruct (Hall 2%nat) as (s & Hs & Hdec);
      [vm_compute; reflexivity|].
    assert (Hc : decode cp932_decode_step Replace
                   (rstrip_nul (octets_at trio (452 + 32 + 2 + 4) 2))
                 = Ok (str_of "C")) by (vm_compute; reflexivity).
    assert (Hs' : s = str_of "C").
    { assert (Heq : Ok s = Ok (str_of "C")).
      { rewrite <- Hdec, <- Hc. vm_compute. reflexivity. }
      injection Heq as ->. reflexivity. }
    subst s. exists doc, ss.
    split; [exact Hex|].
    split; [etransitivity; [exact Hlen|]; vm_compute; reflexivity|].
    split; [exact Hs|].
    exact (proj1 C8_string_location trio doc ss 2%nat (str_of "C") Hex
             ltac:(vm_compute; discriminate) Hs).
Defined.


Lemma X1_witness :
  exists out,
    Writer.process_scw scenario doc_scenario = Writer.Written out
    /\ Extractor.extract_scw_file out =
         Extractor.Extracted doc_scenario [str_of "AB"; str_of "CD"].
Proof.
  eexists. split; [vm_compute; reflexivity|].
  match goal with
  | |- Extractor.extract_scw_file ?out = _ =>
      destruct (X1_rebuilt_container_extracts scenario doc_scenario out
                  header_scenario [str_of "AB"; str_of "CD"])
        as [Hex _]
  end.
  - unfold valid_container. repeat split; vm_compute; discriminate.
  - vm_compute. reflexivity.
  - vm_compute. discriminate.
  - vm_compute. reflexivity.
  - reflexivity.
  - etransitivity; [exact Hex|]. vm_compute. reflexivity.
Defined.

Lemma X2_witness :
  exists out,
    Writer.process_scw scenario doc_scenario = Writer.Written out
    /\ Writer.process_scw out doc_scenario = Writer.Written out.
Proof.
  eexists. split; [vm_compute; reflexivity|].
  match goal with
  | |- Writer.process_scw ?out _ = _ =>
      apply (proj2 (X2_rebuild_is_idempotent scenario doc_scenario out
                      ltac:(unfold valid_container; repeat split;
                            vm_compute; discriminate)
                      ltac:(vm_compute; discriminate)
                      ltac:(vm_compute; reflexivity)))
  end.
Defined.

Lemma X3_witness :
  exists out,
    Writer.process_scw scenario doc_described = Writer.Written out
    /\ Extractor.extract_scw_file out =
         Extractor.Extracted doc_scenario [str_of "AB"; str_of "CD"]
    /\ Writer.process_scw out doc_scenario = Writer.Written out.
Proof.
  eexists. split; [vm_compute; reflexivity|].
  match goal with
  | |- Extractor.extract_scw_file ?out = _ /\ _ =>
      apply (X3_rebuilt_container_is_a_fixed_point scenario doc_described
               out header_described [str_of "AB"; str_of "CD"])
  end.
  - unfold valid_container. repeat split; vm_compute; discriminate.
  - vm_compute. discriminate.
  - vm_compute. reflexivity.
  - vm_compute. discriminate.
  - vm_compute. reflexivity.
  - change (string_count scenario) with 2.
    change (text_count scenario) with 2.
    intros i Hi. assert (i = 1 \/ i = 2) as [->| ->] by lia; reflexivity.
  - vm_compute. reflexivity.
  - reflexivity.
  - vm_compute. reflexivity.
  - repeat (constructor; [vm_compute; reflexivity|]). constructor.
Defined.

Lemma X4_witness :
  exists h, Writer.parse_txt doc_AB = Ok (Some (h, [str_of "AB"])).
Proof.
  apply (proj2 (X4_document_round_trip 1 1 [] [str_of "AB"] eq_refl
                  ltac:(intros i Hi; assert (i = 1) as ->
                          by (unfold len in Hi; cbn in Hi; lia);
                        reflexivity))).
  constructor; [reflexivity|constructor].
Defined.

Lemma X5_witness : Forall (fun s => document_safe s = true) [str_of "A"].
Proof.
  apply (X5_parsed_strings_are_document_safe doc_untidy header_untidy).
  reflexivity.
Defined.

Lemma X6_witness :
  length [str_of "A"] = index_headers (readlines doc_untidy).
Proof.
  apply (X6_one_string_per_index_header doc_untidy header_untidy).
  reflexivity.
Defined.

Lemma X7_witness :
  index_in_step locals_untidy /\ continues [str_of "A"] [str_of "A"].
Proof.
  apply (X7_content_goes_to_the_last_string doc_untidy
           (take 6 (readlines doc_untidy)) (drop 6 (readlines doc_untidy))
           locals_untidy header_untidy [str_of "A"]).
  - symmetry. apply take_drop.
  - reflexivity.
  - reflexivity.
Defined.

Lemma X10_witness :
  Writer.parse_txt doc_plain = Ok (Some (∅, []))
  /\ Writer.process_scw scenario doc_plain = Writer.ParseFailed.
Proof.
  apply (proj2 (X10_failed_to_parse scenario doc_plain
                  ltac:(vm_compute; lia)
                  ltac:(vm_compute; discriminate))).
  repeat (constructor; [reflexivity|]). constructor.
Defined.

Lemma X11_witness :
  Writer.process_scw scenario doc_described
  = Writer.process_scw scenario doc_scenario.
Proof.
  apply (X11_only_the_counts_are_read scenario doc_described doc_scenario
           header_described header_scenario [str_of "AB"; str_of "CD"]).
  - reflexivity.
  - reflexivity.
  - intros Heq.
    assert (Hno : header_described !! STRING_COUNT = None)
      by (rewrite Heq; apply lookup_empty).
    vm_compute in Hno. discriminate.
  - intros Heq.
    assert (Hno : header_scenario !! STRING_COUNT = None)
      by (rewrite Heq; apply lookup_empty).
    vm_compute in Hno. discriminate.
  - vm_compute. reflexivity.
  - vm_compute. reflexivity.
Defined.

Lemma X12_witness :
  Writer.process_scw (bytes_of "Scw4.x") doc_scenario
  = Writer.Failed StructError.
Proof. apply X12_short_container. cbn. lia. Defined.

Lemma X13_witness :
  Extractor.extract_scw_file scenario =
    Extractor.Extracted doc_scenario [str_of "AB"; str_of "CD"].
Proof.
  assert (Hcc : 0 <= command_count scenario) by (vm_compute; discriminate).
  assert (Hsc : 0 <= string_count scenario) by (vm_compute; discriminate).
  assert (Hac : 0 <= addon_count scenario) by (vm_compute; discriminate).
  assert (Hcs : 0 <= command_size scenario) by (vm_compute; discriminate).
  assert (Hable : extractable scenario).
  { unfold extractable.
    split; [vm_compute; lia|].
    split; [vm_compute; reflexivity|].
    split; vm_compute; discriminate. }
  etransitivity;
    [exact (proj1 (X13_extraction_succeeds scenario Hcc Hsc Hac Hcs Hable))|].
  vm_compute. reflexivity.
Defined.

Lemma X14_witness :
  Extractor.extract_scw_file (bytes_of "RIFF") = Extractor.InvalidMagic
  \/ Extractor.extract_scw_file (bytes_of "RIFF")
     = Extractor.Failed UnicodeDecodeError.
Proof. apply X14_wrong_magic. vm_compute. discriminate. Defined.

Lemma X15_witness :
  Extractor.extract_scw_file (bytes_of "Scw4.x")
  = Extractor.Failed StructError.
Proof.
  apply X15_truncated_header; [cbn; lia|vm_compute; reflexivity].
Defined.

Lemma X16_witness :
  Extractor.extract_scw_file skipped = Extractor.TextCountZero.
Proof.
  apply X16_text_count_zero.
  - vm_compute. lia.
  - vm_compute. reflexivity.
  - vm_compute. reflexivity.
Defined.

Lemma X17_witness :
  exists doc ss,
    Extractor.extract_scw_file dangling = Extractor.Extracted doc ss
    /\ ss !! 0%nat = Some [].
Proof.
  eexists. eexists. split; [vm_compute; reflexivity|].
  eapply (X17_entry_past_the_end dangling).
  - vm_compute. reflexivity.
  - vm_compute. discriminate.
  - cbn. lia.
  - vm_compute. discriminate.
Defined.

Lemma X18_witness :
  WriterMain.scw_files join_slash scr_walk !! str_of "a"
  = Some (str_of "SCR/x/a").
Proof.
  apply (proj2 (X18_scripts_are_found_by_name join_slash scr_walk
                  (str_of "a") (str_of "SCR/x/a"))).
  split; [reflexivity|].
  exists [(str_of "SCR", [str_of "a"; str_of "b.bak"])],
    (str_of "SCR/x"), [str_of "a"], [].
  repeat split; [left|constructor].
Defined.

Lemma X19_witness :
  rebuild_tally (WriterMain.Counts 1 0 1) = len (text_names txt_walk).
Proof.
  apply (X19_writer_main_counts_every_text_file (world := unit)
           join_slash (fun a b c => join_slash (join_slash a b) c)
           (fun p _ => Some p) (fun p => p) (fun _ w => Fine w)
           (fun _ w => w) (fun _ _ _ w => (true, w))
           (str_of "TXT") (str_of "NEW_SCR") scr_walk txt_walk tt tt).
  vm_compute. reflexivity.
Defined.

Lemma X21_witness :
  exists out,
    Writer.process_scw scenario doc_scenario = Writer.Written out
    /\ Writer.process_scw (replicate 24 x00 ++ drop 24 scenario)
         doc_scenario
       = Writer.Written (replicate 24 x00 ++ drop 24 out).
Proof.
  eexists. split; [vm_compute; reflexivity|].
  apply X21_magic_and_flags_are_not_checked; [reflexivity|].
  vm_compute. reflexivity.
Defined.

Lemma X22_witness :
  Writer.process_scw scenario doc_scenario
  = Writer.process_scw (scenario ++ bytes_of "tail") doc_scenario.
Proof.
  etransitivity;
    [|apply (X22_octets_after_the_content_are_not_read
               (scenario ++ bytes_of "tail") doc_scenario)].
  - vm_compute. reflexivity.
  - vm_compute. lia.
  - vm_compute. discriminate.
Defined.

Lemma X23_witness :
  Extractor.extract_scw_file scenario
  = Extractor.extract_scw_file scenario_odd.
Proof.
  apply X23_extractor_reads_counts_and_content;
    [vm_compute; reflexivity|vm_compute; discriminate..].
Defined.

End instances.
